(** * go-trafilatura: metadata extraction (metadata.go)

  A shallow embedding of [extractMetadata] and of the functions it calls,
  with the properties of the metadata record that the specification
  states about them.

  - Go strings are byte strings: they are modelled by [string], whose
    characters are the bytes.  Runes are read with the UTF-8 decoder of
    [Utf8]; white space is that of [unicode.IsSpace].
  - The regular expressions of metadata.go are values of [Regexp.regex] and
    run on a backtracking matcher with the semantics of Go's [regexp].
  - The HTML tree is [Node]; a selector is a predicate on a node and its
    ancestors, and the queries return the matches in document order.
  - A decoded JSON value is [JSON]; a map is an association list, and the
    order in which a [range] statement visits it is given by the
    environment, since the Go runtime chooses it.
  - What the file takes from elsewhere and is not computed here is a field
    of the environment [GoLib]: the case tables of package [unicode], the
    JSON decoder, the helpers of the package built on [net/url], and the
    selector tables.  [Ref.lib] is an instance for ASCII pages, on which
    the extractor runs. *)

From Stdlib Require Import String Ascii List ZArith Lia Bool Arith.
From Stdlib Require Import Permutation.
Import ListNotations.
Open Scope string_scope.

Set Implicit Arguments.
Set Warnings "-register-all".

(** ** Slices of a string: [s[n:]] and [s[:n]] *)

Module Slice.

Fixpoint drop (n : nat) (s : string) : string :=
  match n, s with
  | O, _ => s
  | S _, EmptyString => EmptyString
  | S n', String _ s' => drop n' s'
  end.

Fixpoint take (n : nat) (s : string) : string :=
  match n, s with
  | O, _ => EmptyString
  | S _, EmptyString => EmptyString
  | S n', String c s' => String c (take n' s')
  end.

End Slice.

(** ** Package unicode/utf8 *)

Module Utf8.

Definition byte (c : ascii) : Z := Z.of_nat (nat_of_ascii c).

Definition RuneError : Z := 65533.

Definition between (lo x hi : Z) : bool := (lo <=? x)%Z && (x <=? hi)%Z.

Definition cont (c : ascii) : bool := between 128 (byte c) 191.

(** [utf8.DecodeRuneInString]: the first rune of [s] and its width in
    bytes; an invalid or truncated encoding is [RuneError] of width 1.
    The second byte of a three- or four-byte form is restricted as in Go's
    [acceptRanges]. *)
Definition DecodeRuneInString (s : string) : option (Z * nat) :=
  match s with
  | EmptyString => None
  | String c0 s1 =>
      let b0 := byte c0 in
      let bad := Some (RuneError, 1%nat) in
      if (b0 <? 128)%Z then Some (b0, 1%nat)
      else if between 194 b0 223 then
        match s1 with
        | String c1 _ =>
            if cont c1
            then Some (((b0 - 192) * 64 + (byte c1 - 128))%Z, 2%nat)
            else bad
        | _ => bad
        end
      else if between 224 b0 239 then
        match s1 with
        | String c1 (String c2 _) =>
            let lo := if (b0 =? 224)%Z then 160%Z else 128%Z in
            let hi := if (b0 =? 237)%Z then 159%Z else 191%Z in
            if between lo (byte c1) hi && cont c2
            then Some (((b0 - 224) * 4096 + (byte c1 - 128) * 64
                        + (byte c2 - 128))%Z, 3%nat)
            else bad
        | _ => bad
        end
      else if between 240 b0 244 then
        match s1 with
        | String c1 (String c2 (String c3 _)) =>
            let lo := if (b0 =? 240)%Z then 144%Z else 128%Z in
            let hi := if (b0 =? 244)%Z then 143%Z else 191%Z in
            if between lo (byte c1) hi && cont c2 && cont c3
            then Some (((b0 - 240) * 262144 + (byte c1 - 128) * 4096
                        + (byte c2 - 128) * 64 + (byte c3 - 128))%Z, 4%nat)
            else bad
        | _ => bad
        end
      else bad
  end.

(** The runes of [s], as a [for _, r := range s] loop reads them. *)
Fixpoint runesFuel (fuel : nat) (s : string) : list Z :=
  match fuel with
  | O => []
  | S fuel' =>
      match DecodeRuneInString s with
      | None => []
      | Some (r, w) => r :: runesFuel fuel' (Slice.drop w s)
      end
  end.

Definition runes (s : string) : list Z := runesFuel (String.length s) s.

(** [utf8.RuneCountInString s]. *)
Definition RuneCountInString (s : string) : nat := List.length (runes s).

(** The runes of [s], each with the bytes that encode it, as a
    [for i, r := range s] loop reads them: an invalid byte is [RuneError]
    and stands by itself. *)
Fixpoint rangeFuel (fuel : nat) (s : string) : list (Z * string) :=
  match fuel with
  | O => []
  | S fuel' =>
      match DecodeRuneInString s with
      | None => []
      | Some (r, w) =>
          (r, Slice.take w s) :: rangeFuel fuel' (Slice.drop w s)
      end
  end.

Definition range (s : string) : list (Z * string) :=
  rangeFuel (String.length s) s.

(** The string that a list of encoded runes spells. *)
Definition unrange (rs : list (Z * string)) : string :=
  String.concat EmptyString (List.map snd rs).

End Utf8.

(** ** Package unicode *)

Module Unicode.

(** [unicode.IsSpace]: the runes of the property White_Space, which are
    U+0009 to U+000D, U+0020, U+0085, U+00A0, U+1680, U+2000 to U+200A,
    U+2028, U+2029, U+202F, U+205F and U+3000. *)
Definition IsSpace (r : Z) : bool :=
  Utf8.between 9 r 13 || (r =? 32)%Z || (r =? 133)%Z || (r =? 160)%Z
  || (r =? 5760)%Z || Utf8.between 8192 r 8202
  || (r =? 8232)%Z || (r =? 8233)%Z || (r =? 8239)%Z || (r =? 8287)%Z
  || (r =? 12288)%Z.

End Unicode.

(** ** Package strings *)

Module Strings.

(** [strings.HasPrefix s p]. *)
Definition HasPrefix (s p : string) : bool := String.prefix p s.

(** [strings.TrimPrefix s p]. *)
Definition TrimPrefix (s p : string) : string :=
  if HasPrefix s p then Slice.drop (String.length p) s else s.

(** [strings.Contains s sub]. *)
Fixpoint Contains (s sub : string) : bool :=
  String.prefix sub s ||
  match s with
  | EmptyString => false
  | String _ s' => Contains s' sub
  end.

(** [strings.Join elems sep]. *)
Definition Join (elems : list string) (sep : string) : string :=
  String.concat sep elems.

(** [strings.TrimLeftFunc] with [unicode.IsSpace], on the runes of the
    range loop: the white space in front is dropped. *)
Fixpoint trimLeft (rs : list (Z * string)) : list (Z * string) :=
  match rs with
  | [] => []
  | (r, _) :: rs' => if Unicode.IsSpace r then trimLeft rs' else rs
  end.

(** [strings.TrimSpace s]: the white space of Unicode is trimmed at both
    ends.  Go reads the end of the string backwards
    ([utf8.DecodeLastRuneInString]); a white-space rune is a valid encoding,
    which starts with a byte that is not a continuation byte, and the range
    loop reads it at the same offset, so that the runes at the end are
    those of the range loop. *)
Definition TrimSpace (s : string) : string :=
  Utf8.unrange
    (List.rev (trimLeft (List.rev (trimLeft (Utf8.range s))))).

(** [strings.FieldsFunc s f] on the runes of the range loop; [start] is the
    field that is being read, if any. *)
Fixpoint fieldsFunc (f : Z -> bool) (start : option string)
    (rs : list (Z * string)) : list string :=
  match rs with
  | [] => match start with Some w => [w] | None => [] end
  | (r, b) :: rs' =>
      if f r
      then match start with
           | Some w => w :: fieldsFunc f None rs'
           | None => fieldsFunc f None rs'
           end
      else fieldsFunc f
             (Some (match start with Some w => w ++ b | None => b end)) rs'
  end.

(** [strings.Fields s]: the maximal runs of runes that are not white
    space. *)
Definition Fields (s : string) : list string :=
  fieldsFunc Unicode.IsSpace None (Utf8.range s).

End Strings.


(** ** Package regexp

    A backtracking matcher with the leftmost-first semantics of Go's
    [regexp]: alternatives are tried in order, [*] and [+] are greedy unless
    marked lazy, and the search takes the leftmost position at which a match
    exists.  A character class is a predicate on runes; the input is read
    rune by rune with [Utf8.DecodeRuneInString] and offsets count bytes. *)

Module Regexp.

Inductive regex : Type :=
| Eps
| Class (p : Z -> bool)
| Cat (r1 r2 : regex)
| Alt (r1 r2 : regex)
| Star (greedy : bool) (r : regex)
| Group (i : nat) (r : regex)
| Bol
| Eol.

(** Capture [i] is the pair of byte offsets of its last match. *)
Definition captures := list (nat * (nat * nat)).

Definition outcome := option (nat * captures).

(** [run r pos s c k] matches [r] against [s], the part of the text that
    starts at offset [pos], and passes the rest of the text to [k]. *)
Fixpoint run (r : regex) (pos : nat) (s : string) (c : captures)
    (k : nat -> string -> captures -> outcome) : outcome :=
  match r with
  | Eps => k pos s c
  | Class p =>
      match Utf8.DecodeRuneInString s with
      | Some (x, w) =>
          if p x then k (pos + w)%nat (Slice.drop w s) c else None
      | None => None
      end
  | Cat r1 r2 => run r1 pos s c (fun pos' s' c' => run r2 pos' s' c' k)
  | Alt r1 r2 =>
      match run r1 pos s c k with
      | Some m => Some m
      | None => run r2 pos s c k
      end
  | Star greedy r1 =>
      (fix loop (n : nat) (pos : nat) (s : string) (c : captures) : outcome :=
         match n with
         | O => k pos s c
         | S n' =>
             let again pos' s' c' :=
               if (pos <? pos')%nat then loop n' pos' s' c' else None in
             if greedy
             then match run r1 pos s c again with
                  | Some m => Some m
                  | None => k pos s c
                  end
             else match k pos s c with
                  | Some m => Some m
                  | None => run r1 pos s c again
                  end
         end) (S (String.length s)) pos s c
  | Group i r1 =>
      run r1 pos s c (fun pos' s' c' => k pos' s' ((i, (pos, pos')) :: c'))
  | Bol => if (pos =? 0)%nat then k pos s c else None
  | Eol => match s with EmptyString => k pos s c | _ => None end
  end.

(** The loop of [run] on a star, by itself: [n] bounds the number of
    iterations. *)
Definition starLoop (greedy : bool) (r1 : regex)
    (k : nat -> string -> captures -> outcome)
    : nat -> nat -> string -> captures -> outcome :=
  fix loop (n : nat) (pos : nat) (s : string) (c : captures) : outcome :=
    match n with
    | O => k pos s c
    | S n' =>
        let again pos' s' c' :=
          if (pos <? pos')%nat then loop n' pos' s' c' else None in
        if greedy
        then match run r1 pos s c again with
             | Some m => Some m
             | None => k pos s c
             end
        else match k pos s c with
             | Some m => Some m
             | None => run r1 pos s c again
             end
    end.

Definition accept : nat -> string -> captures -> outcome :=
  fun pos _ c => Some (pos, c).

(** A match of [r] that starts at offset [pos]: its end and its captures. *)
Definition matchAt (r : regex) (pos : nat) (s : string) : outcome :=
  run r pos s [] accept.

(** The leftmost match at or after [pos]; the search moves rune by rune. *)
Fixpoint searchFuel (fuel : nat) (r : regex) (pos : nat) (s : string)
    : option (nat * nat * captures) :=
  match matchAt r pos s with
  | Some (e, c) => Some (pos, e, c)
  | None =>
      match fuel, Utf8.DecodeRuneInString s with
      | S fuel', Some (_, w) =>
          searchFuel fuel' r (pos + w)%nat (Slice.drop w s)
      | _, _ => None
      end
  end.

Definition search (r : regex) (pos : nat) (s : string) :=
  searchFuel (String.length s) r pos s.

Definition substr (s : string) (b e : nat) : string :=
  Slice.take (e - b) (Slice.drop b s).

Fixpoint capture (i : nat) (c : captures) : option (nat * nat) :=
  match c with
  | [] => None
  | (j, be) :: c' => if (i =? j)%nat then Some be else capture i c'
  end.

Fixpoint numGroups (r : regex) : nat :=
  match r with
  | Cat r1 r2 | Alt r1 r2 => Nat.max (numGroups r1) (numGroups r2)
  | Star _ r1 => numGroups r1
  | Group i r1 => Nat.max i (numGroups r1)
  | _ => O
  end.

(** [re.MatchString s]. *)
Definition MatchString (r : regex) (s : string) : bool :=
  match search r 0 s with Some _ => true | None => false end.

(** [re.FindStringSubmatch s]: the match and its groups, an unmatched group
    being the empty string; the empty list when there is no match. *)
Definition FindStringSubmatch (r : regex) (s : string) : list string :=
  match search r 0 s with
  | None => []
  | Some (b, e, c) =>
      substr s b e ::
      List.map (fun i => match capture i c with
                         | Some (gb, ge) => substr s gb ge
                         | None => EmptyString
                         end) (List.seq 1 (numGroups r))
  end.

(** The successive matches of [FindAllStringIndex s (-1)]: the search
    resumes at the end of a match, one rune further after an empty match,
    and an empty match that touches the previous match is dropped. *)
Fixpoint allMatches (fuel : nat) (r : regex) (pos : nat) (s : string)
    (prevEnd : option nat) : list (nat * nat) :=
  match fuel with
  | O => []
  | S fuel' =>
      match search r pos s with
      | None => []
      | Some (b, e, _) =>
          if (e =? pos)%nat
          then
            let rest :=
              match Utf8.DecodeRuneInString s with
              | Some (_, w) =>
                  allMatches fuel' r (pos + w)%nat (Slice.drop w s) (Some e)
              | None => []
              end in
            match prevEnd with
            | Some p => if (p =? b)%nat then rest else (b, e) :: rest
            | None => (b, e) :: rest
            end
          else (b, e) :: allMatches fuel' r e (Slice.drop (e - pos) s) (Some e)
      end
  end.

Definition FindAllStringIndex (r : regex) (s : string) : list (nat * nat) :=
  allMatches (2 * String.length s + 2) r 0 s None.

(** The loop of [re.Split]: [beg] and [end_] are its two cursors. *)
Fixpoint splitLoop (s : string) (ms : list (nat * nat)) (beg end_ : nat)
    : list string :=
  match ms with
  | [] => if (end_ =? String.length s)%nat then [] else [Slice.drop beg s]
  | (b, e) :: ms' =>
      if (e =? 0)%nat
      then splitLoop s ms' e b
      else substr s beg b :: splitLoop s ms' e b
  end.

(** [re.Split s (-1)]. *)
Definition Split (r : regex) (s : string) : list string :=
  match s with
  | EmptyString => [EmptyString]
  | _ => splitLoop s (FindAllStringIndex r s) 0 0
  end.

(** The loop of [re.ReplaceAllString] for a replacement without [$]. *)
Fixpoint replaceLoop (s repl : string) (ms : list (nat * nat)) (last : nat)
    : string :=
  match ms with
  | [] => Slice.drop last s
  | (b, e) :: ms' => substr s last b ++ repl ++ replaceLoop s repl ms' e
  end.

(** [re.ReplaceAllString s repl]. *)
Definition ReplaceAllString (r : regex) (s repl : string) : string :=
  replaceLoop s repl (FindAllStringIndex r s) 0.

(** *** Syntax *)

Definition Plus (greedy : bool) (r : regex) : regex := Cat r (Star greedy r).
Definition Opt (r : regex) : regex := Alt r Eps.

Definition rune (c : ascii) : Z := Utf8.byte c.

Definition inRange (lo hi : ascii) (x : Z) : bool :=
  Utf8.between (rune lo) x (rune hi).

Definition oneOf (cs : string) (x : Z) : bool :=
  List.existsb (fun c => (rune c =? x)%Z) (list_ascii_of_string cs).

(** The Perl classes are ASCII-only: [\s], [\d], [\w] and [.]. *)
Definition perl_s (x : Z) : bool :=
  List.existsb (Z.eqb x) [9; 10; 12; 13; 32]%Z.
Definition perl_d : Z -> bool := inRange "0" "9".
Definition perl_w (x : Z) : bool :=
  perl_d x || inRange "A" "Z" x || inRange "a" "z" x || (x =? rune "_")%Z.
Definition dot (x : Z) : bool := negb (x =? 10)%Z.

(** Case folding under [(?i)]: an ASCII letter matches both of its cases,
    and [k] and [s] also match the Kelvin sign U+212A and the long s
    U+017F, which fold to them. *)
Definition foldRune (x : Z) : Z :=
  if Utf8.between 65 x 90 then (x + 32)%Z
  else if (x =? 8490)%Z then rune "k"
  else if (x =? 383)%Z then rune "s"
  else x.

Definition chr (c : ascii) : regex := Class (Z.eqb (rune c)).
Definition chr_i (c : ascii) : regex :=
  Class (fun x => (foldRune x =? foldRune (rune c))%Z).

Fixpoint lit (s : string) : regex :=
  match s with
  | EmptyString => Eps
  | String c EmptyString => chr c
  | String c s' => Cat (chr c) (lit s')
  end.

Fixpoint lit_i (s : string) : regex :=
  match s with
  | EmptyString => Eps
  | String c EmptyString => chr_i c
  | String c s' => Cat (chr_i c) (lit_i s')
  end.

Fixpoint seq (rs : list regex) : regex :=
  match rs with
  | [] => Eps
  | [r] => r
  | r :: rs' => Cat r (seq rs')
  end.

End Regexp.


(** ** Package encoding/json: decoded values

    [json.Unmarshal] into [interface{}] yields [nil], [bool], [float64],
    [string], [[]interface{}] or [map[string]interface{}].  A map is an
    association list with distinct keys; the order in which a [range]
    statement visits it is chosen by the runtime ([rangeOrder] below).  A
    number is never inspected and keeps its literal. *)

Inductive JSON : Type :=
| JNull
| JBool (b : bool)
| JNumber (literal : string)
| JString (s : string)
| JArray (items : list JSON)
| JObject (fields : list (string * JSON)).

Definition jsonObject := list (string * JSON).

(** [value, exist := obj[key]]. *)
Fixpoint mapGet (obj : jsonObject) (key : string) : option JSON :=
  match obj with
  | [] => None
  | (k, v) :: obj' => if String.eqb k key then Some v else mapGet obj' key
  end.

(** ** Package golang.org/x/net/html and go-shiori/dom *)

Inductive Node : Type :=
| DocumentNode (children : list Node)
| ElementNode (Data : string) (Attr : list (string * string))
    (children : list Node)
| TextNode (Data : string)
| CommentNode (Data : string).

Module Dom.

Definition Attr (n : Node) : list (string * string) :=
  match n with
  | ElementNode _ a _ => a
  | _ => []
  end.

Definition Children (n : Node) : list Node :=
  match n with
  | DocumentNode cs | ElementNode _ _ cs => cs
  | _ => []
  end.

(** [dom.GetAttribute node name]: the value of the first attribute with that
    key, or the empty string. *)
Fixpoint getAttr (attrs : list (string * string)) (name : string) : string :=
  match attrs with
  | [] => EmptyString
  | (k, v) :: attrs' => if String.eqb k name then v else getAttr attrs' name
  end.

Definition GetAttribute (n : Node) (name : string) : string :=
  getAttr (Attr n) name.

(** [dom.TextContent node]: the text nodes under [node], concatenated in
    document order. *)
Fixpoint TextContent (n : Node) : string :=
  match n with
  | TextNode d => d
  | DocumentNode cs | ElementNode _ _ cs =>
      String.concat EmptyString (List.map TextContent cs)
  | CommentNode _ => EmptyString
  end.

(** A compiled selector decides a node from the node and its ancestors,
    the parent first. *)
Definition Selector := list Node -> Node -> bool.

(** [dom.QuerySelectorAll doc sel]: the matching nodes of the tree under
    [doc], in document order. *)
Fixpoint queryAll (sel : Selector) (anc : list Node) (n : Node) : list Node :=
  (if sel anc n then [n] else []) ++
  match n with
  | DocumentNode cs | ElementNode _ _ cs =>
      List.flat_map (queryAll sel (n :: anc)) cs
  | _ => []
  end.

Definition QuerySelectorAll (doc : Node) (sel : Selector) : list Node :=
  queryAll sel [] doc.

(** [dom.QuerySelector doc sel]: the first match, if any. *)
Definition QuerySelector (doc : Node) (sel : Selector) : option Node :=
  List.hd_error (QuerySelectorAll doc sel).

(** *** The selectors that metadata.go writes out *)

(** [tag]. *)
Definition tag (t : string) : Selector :=
  fun _ n => match n with
             | ElementNode d _ _ => String.eqb d t
             | _ => false
             end.

(** [[key]], [[key="val"]] and [[key^="val"]]: some attribute with that key
    passes the test. *)
Definition attrTest (key : string) (f : string -> bool) : Selector :=
  fun _ n => List.existsb (fun kv => String.eqb (fst kv) key && f (snd kv))
               (Attr n).

Definition attrHas (key : string) : Selector := attrTest key (fun _ => true).
Definition attrEq (key val : string) : Selector :=
  attrTest key (String.eqb val).
Definition attrPrefix (key val : string) : Selector :=
  attrTest key (fun v => negb (String.eqb val EmptyString)
                         && String.prefix val v).

Definition both (a b : Selector) : Selector :=
  fun anc n => a anc n && b anc n.

(** [p > c]. *)
Definition child (p c : Selector) : Selector :=
  fun anc n =>
    c anc n &&
    match anc with
    | parent :: anc' => p anc' parent
    | [] => false
    end.

(** [a c]: some ancestor matches [a]. *)
Fixpoint anyAncestor (a : Selector) (anc : list Node) : bool :=
  match anc with
  | [] => false
  | x :: anc' => a anc' x || anyAncestor a anc'
  end.

Definition descendant (a c : Selector) : Selector :=
  fun anc n => c anc n && anyAncestor a anc.

End Dom.


(** ** metadata.go: regular expressions and key sets *)

Definition dquote : ascii := "034"%char.
Definition backslash : ascii := "092"%char.

Import Regexp.

Definition ws : regex := Class perl_s.
Definition notSlash : regex := Class (fun x => negb (x =? rune "/")%Z).

(** [(?i)https?://], the common prefix of four of the expressions. *)
Definition httpScheme : regex :=
  seq [lit_i "http"; Opt (chr_i "s"); lit "://"].

(** [\s*[,;]\s*] *)
Definition rxCommaSeparator : regex :=
  seq [Star true ws; Class (oneOf ",;"); Star true ws].

(** [(?i)(.+)?\s+[-|]\s+.*$] *)
Definition rxTitleCleaner : regex :=
  seq [Opt (Group 1 (Plus true (Class dot))); Plus true ws;
       Class (oneOf "-|"); Plus true ws; Star true (Class dot); Eol].

(** [[{\\}]] *)
Definition rxJsonSymbol : regex := Class (oneOf "{\}").

(** The expression that recovers a name from an unescaped JSON literal:
    a quote, [(?i)name?], an optional backslash, a quote, a colon, an
    optional space, an optional backslash, a quote, and as group 1 one or
    more characters other than quote and backslash. *)
Definition rxNameJson : regex :=
  seq [chr dquote; lit_i "nam"; Opt (chr_i "e"); Opt (chr backslash);
       chr dquote; chr ":"; Opt (chr " "); Opt (chr backslash); chr dquote;
       Group 1 (Plus true (Class (fun x =>
         negb ((x =? rune dquote)%Z || (x =? rune backslash)%Z))))].

(** The class [[a-zäöüß]] under [(?i)]: the runes U+00E4, U+00F6, U+00FC
    and U+00DF with their upper-case forms U+00C4, U+00D6, U+00DC and
    U+1E9E. *)
Definition germanLetter (x : Z) : bool :=
  inRange "a" "z" (foldRune x) ||
  List.existsb (Z.eqb x) [228; 196; 246; 214; 252; 220; 223; 7838]%Z.

(** [(?i)^([a-zäöüß]+(ed|t))?\s?(by|von)\s] *)
Definition rxAuthorCleaner1 : regex :=
  seq [Bol;
       Opt (Group 1 (Cat (Plus true (Class germanLetter))
                         (Group 2 (Alt (lit_i "ed") (lit_i "t")))));
       Opt ws; Group 3 (Alt (lit_i "by") (lit_i "von")); ws].

(** [(?i)\d.+?$] *)
Definition rxAuthorCleaner2 : regex :=
  seq [Class perl_d; Plus false (Class dot); Eol].

(** [(?i)[^\w]+$|( am| on)] *)
Definition rxAuthorCleaner3 : regex :=
  Alt (Cat (Plus true (Class (fun x => negb (perl_w (foldRune x))))) Eol)
      (Group 1 (Alt (lit_i " am") (lit_i " on"))).

(** [(?i)https?://|/] *)
Definition rxUrlCheck : regex := Alt httpScheme (chr "/").

(** [(?i)https?://[^/]+] *)
Definition rxDomainFinder : regex := Cat httpScheme (Plus true notSlash).

(** [(?i)^.*?[-|]\s+(G)$] where the group [G] is [.*] *)
Definition rxSitenameFinder1 : regex :=
  seq [Bol; Star false (Class dot); Class (oneOf "-|"); Plus true ws;
       Group 1 (Star true (Class dot)); Eol].

(** [(?i)https?://(?:www\.|w[0-9]+\.)?([^/]+)] *)
Definition rxSitenameFinder2 : regex :=
  seq [httpScheme;
       Opt (Alt (Cat (lit_i "www") (chr "."))
                (seq [chr_i "w"; Plus true (Class perl_d); chr "."]));
       Group 1 (Plus true notSlash)].

Definition metaNameAuthor : list string :=
  ["author"; "byl"; "dc.creator"; "dcterms.creator"; "sailthru.author"].
Definition metaNameTitle : list string :=
  ["title"; "dc.title"; "dcterms.title"; "fb_title"; "sailthru.title";
   "twitter:title"].
Definition metaNameDescription : list string :=
  ["description"; "dc.description"; "dcterms.description"; "dc:description";
   "sailthru.description"; "twitter:description"].
Definition metaNamePublisher : list string :=
  ["copyright"; "dc.publisher"; "dcterms.publisher"; "publisher"].

(** ** The metadata record *)

Record Metadata : Type := mkMetadata {
  Title : string;
  Author : string;
  URL : string;
  Hostname : string;
  Description : string;
  Sitename : string;
  Date : string;
  Categories : list string;
  Tags : list string
}.

(** [var metadata Metadata]: the zero value. *)
Definition zeroMetadata : Metadata :=
  mkMetadata "" "" "" "" "" "" "" [] [].

Definition setTitle (m : Metadata) (v : string) : Metadata :=
  mkMetadata v (Author m) (URL m) (Hostname m) (Description m) (Sitename m)
    (Date m) (Categories m) (Tags m).
Definition setAuthor (m : Metadata) (v : string) : Metadata :=
  mkMetadata (Title m) v (URL m) (Hostname m) (Description m) (Sitename m)
    (Date m) (Categories m) (Tags m).
Definition setURL (m : Metadata) (v : string) : Metadata :=
  mkMetadata (Title m) (Author m) v (Hostname m) (Description m) (Sitename m)
    (Date m) (Categories m) (Tags m).
Definition setHostname (m : Metadata) (v : string) : Metadata :=
  mkMetadata (Title m) (Author m) (URL m) v (Description m) (Sitename m)
    (Date m) (Categories m) (Tags m).
Definition setDescription (m : Metadata) (v : string) : Metadata :=
  mkMetadata (Title m) (Author m) (URL m) (Hostname m) v (Sitename m)
    (Date m) (Categories m) (Tags m).
Definition setSitename (m : Metadata) (v : string) : Metadata :=
  mkMetadata (Title m) (Author m) (URL m) (Hostname m) (Description m) v
    (Date m) (Categories m) (Tags m).
Definition setCategories (m : Metadata) (v : list string) : Metadata :=
  mkMetadata (Title m) (Author m) (URL m) (Hostname m) (Description m)
    (Sitename m) (Date m) v (Tags m).
Definition setTags (m : Metadata) (v : list string) : Metadata :=
  mkMetadata (Title m) (Author m) (URL m) (Hostname m) (Description m)
    (Sitename m) (Date m) (Categories m) v.

(** ** Helpers of the package that metadata.go calls *)

Definition isEmpty (s : string) : bool := String.eqb s "".
Definition nonEmpty (s : string) : bool := negb (isEmpty s).
Definition noneOf {A} (l : list A) : bool :=
  match l with [] => true | _ => false end.

(** Modelled from the spec: [strNormalize] is not in metadata.go; the spec
    calls it white-space normalization.  The fields of the string, which
    [strings.Fields] splits at the white space of Unicode, are joined by
    single spaces, which also trims both ends. *)
Definition strNormalize (s : string) : string :=
  Strings.Join (Strings.Fields s) " ".

(** Modelled from the spec: [strWordCount] is not in metadata.go; the
    number of words of the title. *)
Definition strWordCount (s : string) : nat :=
  List.length (Strings.Fields s).

(** Modelled from the spec: [strOr] is not in metadata.go; the first
    argument unless it is empty ("fill if empty"). *)
Definition strOr (a b : string) : string := if isEmpty a then b else a.

(** Modelled from the spec: [strIn] is not in metadata.go; membership of a
    key in a key set. *)
Definition strIn (s : string) (args : list string) : bool :=
  List.existsb (String.eqb s) args.

(** Modelled from the spec: [getRune] is not in metadata.go; the rune of
    the string at an index, -1 when there is none. *)
Definition getRune (s : string) (idx : nat) : Z :=
  List.nth idx (Utf8.runes s) (-1)%Z.

(** ** The library environment

    What metadata.go takes from outside and this development does not
    compute: the case tables of package [unicode], the JSON decoder, the
    order of a [range] over a map, the helpers of the package built on
    [net/url], and the four selector tables. *)

(** [net/url.URL], reduced to the components of an http URL. *)
Record Url : Type := mkUrl {
  Scheme : string;
  Host : string;
  Path : string;
  RawQuery : string;
  Fragment : string
}.

Class GoLib : Type := {
  (** [strings.ToLower], [strings.Title], [unicode.IsUpper] *)
  strings_ToLower : string -> string;
  strings_Title : string -> string;
  unicode_IsUpper : Z -> bool;
  (** the value that [encoding/json] decodes from a text, if it is JSON *)
  json_Decode : string -> option JSON;
  (** the order in which [range] visits a map with the given keys, as a
      list of positions in the association list *)
  rangeOrder : list string -> list nat;
  (** the [String] method of [url.URL] *)
  url_String : Url -> string;
  (** [isAbsoluteURL], [createAbsoluteURL] and [extractDomainURL] are
      helpers of the package that are not in metadata.go *)
  isAbsoluteURL : string -> bool;
  createAbsoluteURL : string -> option Url -> string;
  extractDomainURL : string -> string;
  (** the selector tables, which are not in metadata.go *)
  metaTitleSelectors : list Dom.Selector;
  metaAuthorSelectors : list Dom.Selector;
  metaCategoriesSelectors : list Dom.Selector;
  metaTagsSelectors : list Dom.Selector
}.


(** ** metadata.go: the extractor *)

Section Extractor.

Context {lib : GoLib}.

Import Strings.

(** *** validateMetadataAuthor *)

Definition validateMetadataAuthor (author : string) : string :=
  if isEmpty author then author
  else if negb (Contains author " ") || HasPrefix author "http" then ""
  else if MatchString rxJsonSymbol author then ""
  else author.

(** *** extractOpenGraphMeta *)

(** [meta[property^="og:"]] *)
Definition selOpenGraph : Dom.Selector :=
  Dom.both (Dom.tag "meta") (Dom.attrPrefix "property" "og:").

(** The body of the loop over the OpenGraph nodes. *)
Definition openGraphStep (metadata : Metadata) (node : Node) : Metadata :=
  let propName := strNormalize (Dom.GetAttribute node "property") in
  let content := strNormalize (Dom.GetAttribute node "content") in
  if isEmpty content then metadata
  else if String.eqb propName "og:site_name" then setSitename metadata content
  else if String.eqb propName "og:title" then setTitle metadata content
  else if String.eqb propName "og:description"
  then setDescription metadata content
  else if strIn propName ["og:author"; "og:article:author"]
  then setAuthor metadata content
  else if String.eqb propName "og:url"
  then if isAbsoluteURL content then setURL metadata content else metadata
  else metadata.

Definition extractOpenGraphMeta (doc : Node) : Metadata :=
  List.fold_left openGraphStep (Dom.QuerySelectorAll doc selOpenGraph)
    zeroMetadata.

(** *** processMetaTags *)

(** [meta[content]] *)
Definition selMetaContent : Dom.Selector :=
  Dom.both (Dom.tag "meta") (Dom.attrHas "content").

(** The test that ends [processMetaTags] after the OpenGraph pass. *)
Definition allOpenGraphAssigned (metadata : Metadata) : bool :=
  nonEmpty (Title metadata) && nonEmpty (Author metadata) &&
  nonEmpty (URL metadata) && nonEmpty (Description metadata) &&
  nonEmpty (Sitename metadata).

(** The body of the scan of the [meta] nodes; the state is the record and
    the local [tmpSitename]. *)
Definition metaTagStep (st : Metadata * string) (node : Node)
    : Metadata * string :=
  let (metadata, tmpSitename) := st in
  let content := strNormalize (Dom.GetAttribute node "content") in
  if isEmpty content then st else
  let property := strNormalize (Dom.GetAttribute node "property") in
  if nonEmpty property then
    if HasPrefix property "og:" then st
    else if String.eqb property "article:tag"
    then (setTags metadata (Tags metadata ++ [content]), tmpSitename)
    else if strIn property ["author"; "article:author"]
    then (setAuthor metadata (strOr (Author metadata) content), tmpSitename)
    else st
  else
  let name := strNormalize (strings_ToLower (Dom.GetAttribute node "name")) in
  if nonEmpty name then
    if strIn name metaNameAuthor
    then (setAuthor metadata (strOr (Author metadata) content), tmpSitename)
    else if strIn name metaNameTitle
    then (setTitle metadata (strOr (Title metadata) content), tmpSitename)
    else if strIn name metaNameDescription
    then (setDescription metadata (strOr (Description metadata) content),
          tmpSitename)
    else if strIn name metaNamePublisher
    then (setSitename metadata (strOr (Sitename metadata) content),
          tmpSitename)
    else if strIn name ["twitter:site"; "application-name"]
            || Contains name "twitter:app:name"
    then (metadata, content)
    else if String.eqb name "twitter:url"
    then if isEmpty (URL metadata) && isAbsoluteURL content
         then (setURL metadata content, tmpSitename) else st
    else if String.eqb name "keywords"
    then (setTags metadata (Tags metadata ++ [content]), tmpSitename)
    else st
  else
  let itemprop := strNormalize (Dom.GetAttribute node "itemprop") in
  if nonEmpty itemprop then
    if String.eqb itemprop "author"
    then (setAuthor metadata (strOr (Author metadata) content), tmpSitename)
    else if String.eqb itemprop "description"
    then (setDescription metadata (strOr (Description metadata) content),
          tmpSitename)
    else if String.eqb itemprop "headline"
    then (setTitle metadata (strOr (Title metadata) content), tmpSitename)
    else st
  else st.

Definition processMetaTags (doc : Node) : Metadata :=
  let metadata := extractOpenGraphMeta doc in
  if allOpenGraphAssigned metadata then metadata else
  let (metadata, tmpSitename) :=
    List.fold_left metaTagStep (Dom.QuerySelectorAll doc selMetaContent)
      (metadata, "") in
  let metadata :=
    if isEmpty (Sitename metadata) && nonEmpty tmpSitename
    then setSitename metadata tmpSitename else metadata in
  setAuthor metadata (validateMetadataAuthor (Author metadata)).

(** *** extractJsonString, extractJsonThingName *)

Definition extractJsonString (iface : JSON) : string :=
  match iface with
  | JString s => strNormalize s
  | _ => ""
  end.

(** One entry of an array of names. *)
Definition arrayEntryName (entry : JSON) : list string :=
  match entry with
  | JString entryVal => [strNormalize entryVal]
  | JObject entryVal =>
      match mapGet entryVal "name" with
      | Some iName =>
          let name := extractJsonString iName in
          if nonEmpty name then [name] else []
      | None => []
      end
  | _ => []
  end.

Definition extractJsonThingName (iface : JSON) (allowedTypes : list string)
    : string :=
  match iface with
  | JString val =>
      if MatchString rxJsonSymbol val
      then match FindStringSubmatch rxNameJson val with
           | _ :: m1 :: _ => strNormalize m1
           | _ => ""
           end
      else strNormalize val
  | JObject val =>
      let rejected :=
        match allowedTypes, mapGet val "@type" with
        | _ :: _, Some (JString strObjType) =>
            negb (strIn strObjType allowedTypes)
        | _, _ => false
        end in
      if rejected then ""
      else match mapGet val "name" with
           | Some iName => extractJsonString iName
           | None => ""
           end
  | JArray val =>
      let names := List.flat_map arrayEntryName val in
      if noneOf names then "" else Join names "; "
  | _ => ""
  end.

Definition extractJsonArticleThingName (article : jsonObject) (key : string)
    (allowedTypes : list string) : string :=
  match mapGet article key with
  | None => ""
  | Some value => extractJsonThingName value allowedTypes
  end.

(** *** extractJsonLd *)

(** The entries of a map in the order of a [range] over it. *)
Definition mapRange {A : Type} (m : list (string * A)) : list (string * A) :=
  List.flat_map
    (fun i => match List.nth_error m i with Some kv => [kv] | None => [] end)
    (rangeOrder (List.map fst m)).

Inductive objectKind : Type := IsArticle | IsPerson | IsOther.

(** The test at the head of [findImportantObjects]. *)
Definition kindOf (obj : jsonObject) : objectKind :=
  match mapGet obj "@type" with
  | Some (JString strObjType) =>
      if Contains strObjType "Article"
         || String.eqb strObjType "SocialMediaPosting"
         || String.eqb strObjType "Report"
      then IsArticle
      else if String.eqb strObjType "Person" then IsPerson
      else IsOther
  | _ => IsOther
  end.

Definition found : Type := (list jsonObject * list jsonObject)%type.

Definition collect (l : list found) : found :=
  (List.flat_map fst l, List.flat_map snd l).

(** [findImportantObjects]: the articles and the persons under a value, each
    list in the order in which the closure appends to it.  Only a map is
    visited; what the call does on a map is [findImportantObjects] below. *)
Fixpoint findImportant (v : JSON) : found :=
  match v with
  | JObject obj =>
      match kindOf obj with
      | IsArticle => ([obj], [])
      | IsPerson => ([], [obj])
      | IsOther =>
          let visit (value : JSON) : found :=
            match value with
            | JObject _ => findImportant value
            | JArray items =>
                collect (List.map (fun item =>
                                     match item with
                                     | JObject _ => findImportant item
                                     | _ => ([], [])
                                     end) items)
            | _ => ([], [])
            end in
          collect (List.map snd
                     (mapRange (List.map (fun kv => (fst kv, visit (snd kv)))
                                  obj)))
      end
  | _ => ([], [])
  end.

Definition findImportantObjects (data : jsonObject) : found :=
  findImportant (JObject data).

(** The headline fallback: the first key of the article, in the order of the
    [range], that contains [headline] and holds a usable title. *)
Definition headlineTitle (article : jsonObject) : option string :=
  match List.find
          (fun kv =>
             Contains (strings_ToLower (fst kv)) "headline" &&
             let title := extractJsonString (snd kv) in
             negb (isEmpty title || Contains title "..."))
          (mapRange article) with
  | Some kv => Some (extractJsonString (snd kv))
  | None => None
  end.

(** The body of the loop over the articles of one script. *)
Definition articleStep (metadata : Metadata) (article : jsonObject)
    : Metadata :=
  let metadata :=
    if isEmpty (Author metadata)
    then setAuthor metadata
           (validateMetadataAuthor
              (extractJsonArticleThingName article "author" ["Person"]))
    else metadata in
  let metadata :=
    if isEmpty (Sitename metadata)
    then setSitename metadata
           (extractJsonArticleThingName article "publisher" [])
    else metadata in
  let metadata :=
    if noneOf (Categories metadata)
    then match mapGet article "articleSection" with
         | Some section =>
             setCategories metadata
               (Categories metadata ++ [extractJsonString section])
         | None => metadata
         end
    else metadata in
  let metadata :=
    if isEmpty (Title metadata)
    then match mapGet article "name" with
         | Some name => setTitle metadata (extractJsonString name)
         | None => metadata
         end
    else metadata in
  if isEmpty (Title metadata) || (strWordCount (Title metadata) =? 1)%nat
  then match headlineTitle article with
       | Some title => setTitle metadata title
       | None => metadata
       end
  else metadata.

(** The names of the persons of a script that pass the author check. *)
Definition personNames (persons : list jsonObject) : list string :=
  List.filter nonEmpty
    (List.map (fun person =>
                 validateMetadataAuthor
                   (extractJsonThingName (JObject person) []))
       persons).

(** [json.Unmarshal] into a [map[string]interface{}]: the text must be JSON
    and its value an object, or [null], which leaves a nil map. *)
Definition unmarshalObject (text : string) : option jsonObject :=
  match json_Decode text with
  | Some (JObject data) => Some data
  | Some JNull => Some []
  | _ => None
  end.

(** The body of the loop over the scripts; [None] is [continue]. *)
Definition scriptStep (metadata : Metadata) (script : Node)
    : option Metadata :=
  let jsonLdText := TrimSpace (Dom.TextContent script) in
  if isEmpty jsonLdText then None else
  match unmarshalObject jsonLdText with
  | None => None
  | Some data =>
      let (articles, persons) := findImportantObjects data in
      let metadata := List.fold_left articleStep articles metadata in
      Some (if isEmpty (Author metadata)
            then match personNames persons with
                 | [] => metadata
                 | names => setAuthor metadata (Join names "; ")
                 end
            else metadata)
  end.

(** The test that leaves the loop over the scripts. *)
Definition allFound (metadata : Metadata) : bool :=
  nonEmpty (Author metadata) && nonEmpty (Sitename metadata) &&
  negb (noneOf (Categories metadata)) && nonEmpty (Title metadata).

Fixpoint scriptLoop (metadata : Metadata) (scripts : list Node) : Metadata :=
  match scripts with
  | [] => metadata
  | script :: rest =>
      match scriptStep metadata script with
      | None => scriptLoop metadata rest
      | Some metadata' =>
          if allFound metadata' then metadata' else scriptLoop metadata' rest
      end
  end.

Definition selScript (type : string) : Dom.Selector :=
  Dom.both (Dom.tag "script") (Dom.attrEq "type" type).

Definition scriptNodes (doc : Node) : list Node :=
  Dom.QuerySelectorAll doc (selScript "application/ld+json") ++
  Dom.QuerySelectorAll doc (selScript "application/settings+json").

(** The record that the loop over the scripts builds. *)
Definition jsonLdMetadata (doc : Node) : Metadata :=
  scriptLoop zeroMetadata (scriptNodes doc).

(** The merge at the end of [extractJsonLd]. *)
Definition mergeJsonLd (metadata originalMetadata : Metadata) : Metadata :=
  let originalMetadata :=
    setAuthor originalMetadata
      (strOr (Author metadata) (Author originalMetadata)) in
  let originalMetadata :=
    if negb (noneOf (Categories metadata))
    then setCategories originalMetadata (Categories metadata)
    else originalMetadata in
  let originalMetadata :=
    if (Utf8.RuneCountInString (Sitename originalMetadata)
        <? Utf8.RuneCountInString (Sitename metadata))%nat
    then setSitename originalMetadata (Sitename metadata)
    else originalMetadata in
  if isEmpty (Title originalMetadata)
  then setTitle originalMetadata (Title metadata)
  else originalMetadata.

Definition extractJsonLd (doc : Node) (originalMetadata : Metadata)
    : Metadata :=
  mergeJsonLd (jsonLdMetadata doc) originalMetadata.

(** *** extractDomMetaSelectors, extractDomTitle, extractDomAuthor *)

Definition firstSome {A B : Type} (f : A -> option B) (l : list A)
    : option B :=
  List.fold_right (fun a r => match f a with Some b => Some b | None => r end)
    None l.

Definition extractDomMetaSelectors (doc : Node) (limit : nat)
    (selectors : list Dom.Selector) : string :=
  let usable node :=
    let text := strNormalize (Dom.TextContent node) in
    if nonEmpty text && (Utf8.RuneCountInString text <? limit)%nat
    then Some text else None in
  match firstSome (fun selector =>
                     firstSome usable (Dom.QuerySelectorAll doc selector))
          selectors with
  | Some text => text
  | None => ""
  end.

(** [head > title] *)
Definition selHeadTitle : Dom.Selector :=
  Dom.child (Dom.tag "head") (Dom.tag "title").

Definition extractDomTitle (doc : Node) : string :=
  let h1Nodes := Dom.QuerySelectorAll doc (Dom.tag "h1") in
  match h1Nodes with
  | [h1] => strNormalize (Dom.TextContent h1)
  | _ =>
      let title := extractDomMetaSelectors doc 200 metaTitleSelectors in
      if nonEmpty title then title else
      match Dom.QuerySelector doc selHeadTitle with
      | Some titleNode =>
          let title := strNormalize (Dom.TextContent titleNode) in
          match FindStringSubmatch rxTitleCleaner title with
          | _ :: m1 :: _ => m1
          | _ => title
          end
      | None =>
          match h1Nodes with
          | h1 :: _ => TrimSpace (Dom.TextContent h1)
          | [] =>
              match Dom.QuerySelector doc (Dom.tag "h2") with
              | Some h2Node => TrimSpace (Dom.TextContent h2Node)
              | None => ""
              end
          end
      end
  end.

Definition extractDomAuthor (doc : Node) : string :=
  let author := extractDomMetaSelectors doc 75 metaAuthorSelectors in
  if nonEmpty author then
    let author := ReplaceAllString rxAuthorCleaner1 author "" in
    let author := ReplaceAllString rxAuthorCleaner2 author "" in
    let author := ReplaceAllString rxAuthorCleaner3 author "" in
    strings_Title author
  else "".

(** *** extractDomURL *)

(** [head link[rel="canonical"]] and [head link[rel="alternate"]] *)
Definition selHeadLink (rel : string) : Dom.Selector :=
  Dom.descendant (Dom.tag "head")
    (Dom.both (Dom.tag "link") (Dom.attrEq "rel" rel)).

(** [head meta[content]] *)
Definition selHeadMetaContent : Dom.Selector :=
  Dom.descendant (Dom.tag "head") selMetaContent.

(** The [href] of a link when it passes the URL check, else [url]. *)
Definition linkHref (node : Node) (url : string) : string :=
  let href := strNormalize (Dom.GetAttribute node "href") in
  if nonEmpty href && MatchString rxUrlCheck href then href else url.

(** The loop that looks for a domain name to put before a path; it stops at
    the first [og:] or [twitter:] node whose content holds one. *)
Fixpoint addDomain (url : string) (nodes : list Node) : string :=
  match nodes with
  | [] => url
  | node :: rest =>
      let nodeName := strNormalize (Dom.GetAttribute node "name") in
      let nodeProperty := strNormalize (Dom.GetAttribute node "property") in
      let attrType := strOr nodeName nodeProperty in
      if isEmpty attrType then addDomain url rest
      else if HasPrefix attrType "og:" || HasPrefix attrType "twitter:"
      then
        let nodeContent := strNormalize (Dom.GetAttribute node "content") in
        match FindStringSubmatch rxDomainFinder nodeContent with
        | m0 :: _ => m0 ++ url
        | [] => addDomain url rest
        end
      else addDomain url rest
  end.

Definition defaultURLString (defaultURL : option Url) : string :=
  match defaultURL with
  | Some u => url_String u
  | None => ""
  end.

Definition extractDomURL (doc : Node) (defaultURL : option Url) : string :=
  let url :=
    match Dom.QuerySelector doc (selHeadLink "canonical") with
    | Some linkNode => linkHref linkNode ""
    | None =>
        List.fold_left
          (fun url node =>
             if String.eqb (Dom.GetAttribute node "hreflang") "x-default"
             then linkHref node url else url)
          (Dom.QuerySelectorAll doc (selHeadLink "alternate")) ""
    end in
  let url :=
    if nonEmpty url && HasPrefix url "/"
    then addDomain url (Dom.QuerySelectorAll doc selHeadMetaContent)
    else url in
  if nonEmpty url && isAbsoluteURL url then url
  else if nonEmpty url && isAbsoluteURL (createAbsoluteURL url defaultURL)
  then createAbsoluteURL url defaultURL
  else defaultURLString defaultURL.

(** *** extractDomSitename, extractDomCategories, extractDomTags *)

Definition extractDomSitename (doc : Node) : string :=
  match Dom.QuerySelector doc selHeadTitle with
  | None => ""
  | Some titleNode =>
      let titleText := strNormalize (Dom.TextContent titleNode) in
      if isEmpty titleText then ""
      else match FindStringSubmatch rxSitenameFinder1 titleText with
           | _ :: m1 :: _ => m1
           | _ => ""
           end
  end.

(** The texts of the links under one selector whose [href] contains
    [part]. *)
Definition linkTexts (doc : Node) (part : string) (selector : Dom.Selector)
    : list string :=
  List.flat_map
    (fun node =>
       let href := TrimSpace (Dom.GetAttribute node "href") in
       if nonEmpty href && Contains href part
       then let text := strNormalize (Dom.TextContent node) in
            if nonEmpty text then [text] else []
       else [])
    (Dom.QuerySelectorAll doc selector).

(** The loop over a selector table, left at the first selector that yields
    an entry. *)
Fixpoint firstLinkTexts (doc : Node) (part : string)
    (selectors : list Dom.Selector) : list string :=
  match selectors with
  | [] => []
  | selector :: rest =>
      match linkTexts doc part selector with
      | [] => firstLinkTexts doc part rest
      | texts => texts
      end
  end.

(** [head meta[property="article:section"]] *)
Definition selArticleSection : Dom.Selector :=
  Dom.descendant (Dom.tag "head")
    (Dom.both (Dom.tag "meta") (Dom.attrEq "property" "article:section")).

Definition extractDomCategories (doc : Node) : list string :=
  match firstLinkTexts doc "/category/" metaCategoriesSelectors with
  | [] =>
      match Dom.QuerySelector doc selArticleSection with
      | Some node =>
          let content := strNormalize (Dom.GetAttribute node "content") in
          if nonEmpty content then [content] else []
      | None => []
      end
  | categories => categories
  end.

Definition extractDomTags (doc : Node) : list string :=
  firstLinkTexts doc "/tags/" metaTagsSelectors.

(** *** cleanCatTags *)

Definition cleanCatTags (catTags : list string) : list string :=
  List.flat_map
    (fun entry =>
       List.filter nonEmpty
         (List.map strNormalize (Split rxCommaSeparator entry)))
    catTags.

(** *** extractMetadata *)

(** The block that scraps the Twitter ID and capitalizes a site name. *)
Definition normalizeSitename (sitename : string) : string :=
  let sitename :=
    if HasPrefix sitename "@" then TrimPrefix sitename "@" else sitename in
  let firstRune := getRune sitename 0 in
  if negb (Contains sitename ".") && negb (unicode_IsUpper firstRune)
  then strings_Title sitename
  else sitename.

(** The record after the meta tags, JSON-LD and the DOM fallbacks for the
    title, the author, the URL, the host name and the site name: lines 48
    to 79 of metadata.go. *)
Definition collectMetadata (doc : Node) (defaultURL : option Url)
    : Metadata :=
  let metadata := processMetaTags doc in
  let metadata := extractJsonLd doc metadata in
  let metadata :=
    if isEmpty (Title metadata)
    then setTitle metadata (extractDomTitle doc) else metadata in
  let metadata :=
    if isEmpty (Author metadata)
    then setAuthor metadata (extractDomAuthor doc) else metadata in
  let metadata :=
    if isEmpty (URL metadata)
    then setURL metadata (extractDomURL doc defaultURL) else metadata in
  let metadata :=
    if nonEmpty (URL metadata)
    then setHostname metadata (extractDomainURL (URL metadata))
    else metadata in
  if isEmpty (Sitename metadata)
  then setSitename metadata (extractDomSitename doc) else metadata.

Definition extractMetadata (doc : Node) (defaultURL : option Url)
    : Metadata :=
  let metadata := collectMetadata doc defaultURL in
  let metadata :=
    if nonEmpty (Sitename metadata)
    then setSitename metadata (normalizeSitename (Sitename metadata))
    else if nonEmpty (URL metadata)
    then match FindStringSubmatch rxSitenameFinder2 (URL metadata) with
         | _ :: m1 :: _ => setSitename metadata m1
         | _ => metadata
         end
    else metadata in
  let metadata :=
    if noneOf (Categories metadata)
    then setCategories metadata (extractDomCategories doc) else metadata in
  let metadata :=
    if negb (noneOf (Categories metadata))
    then setCategories metadata (cleanCatTags (Categories metadata))
    else metadata in
  let metadata :=
    if noneOf (Tags metadata)
    then setTags metadata (extractDomTags doc) else metadata in
  if negb (noneOf (Tags metadata))
  then setTags metadata (cleanCatTags (Tags metadata))
  else metadata.

End Extractor.


(** ** A reference environment for ASCII pages

    An instance of [GoLib] on which the extractor runs: the case functions
    on ASCII letters, a decoder for JSON texts without [\u] escapes, the
    resolution of a path against a base URL, and the entries of the selector
    tables that metadata_test.go relies on. *)

Module Ref.

Definition isLower (c : ascii) : bool :=
  let n := nat_of_ascii c in ((97 <=? n) && (n <=? 122))%nat.
Definition isUpper (c : ascii) : bool :=
  let n := nat_of_ascii c in ((65 <=? n) && (n <=? 90))%nat.
Definition isDigit (c : ascii) : bool :=
  let n := nat_of_ascii c in ((48 <=? n) && (n <=? 57))%nat.

Definition toLower (c : ascii) : ascii :=
  if isUpper c then ascii_of_nat (nat_of_ascii c + 32) else c.
Definition toUpper (c : ascii) : ascii :=
  if isLower c then ascii_of_nat (nat_of_ascii c - 32) else c.

Fixpoint mapString (f : ascii -> ascii) (s : string) : string :=
  match s with
  | EmptyString => EmptyString
  | String c s' => String (f c) (mapString f s')
  end.

Definition ToLower : string -> string := mapString toLower.

(** [isSeparator] of package strings: ASCII letters, digits and the
    underscore are not separators, the other ASCII characters are; a byte
    of a longer rune is taken for a letter. *)
Definition isSeparator (c : ascii) : bool :=
  (nat_of_ascii c <? 128)%nat &&
  negb (isLower c || isUpper c || isDigit c || Ascii.eqb c "_").

(** [strings.Title]: the first letter of every word in upper case. *)
Fixpoint titleFrom (prev : ascii) (s : string) : string :=
  match s with
  | EmptyString => EmptyString
  | String c s' =>
      String (if isSeparator prev then toUpper c else c) (titleFrom c s')
  end.

Definition Title : string -> string := titleFrom " ".

Definition IsUpper (x : Z) : bool := Utf8.between 65 x 90.

(** *** A JSON decoder *)

Definition isJsonSpace (c : ascii) : bool :=
  List.existsb (Ascii.eqb c) [" "; "009"; "010"; "013"]%char.

Fixpoint skipSpace (s : string) : string :=
  match s with
  | String c s' => if isJsonSpace c then skipSpace s' else s
  | EmptyString => s
  end.

(** The characters of a string literal after its opening quote. *)
Fixpoint parseChars (s : string) : option (string * string) :=
  match s with
  | EmptyString => None
  | String c s' =>
      if Ascii.eqb c dquote then Some (EmptyString, s')
      else if Ascii.eqb c backslash then
        match s' with
        | String e s'' =>
            let unescaped :=
              if Ascii.eqb e "n" then Some "010"%char
              else if Ascii.eqb e "t" then Some "009"%char
              else if Ascii.eqb e "r" then Some "013"%char
              else if Ascii.eqb e "b" then Some "008"%char
              else if Ascii.eqb e "f" then Some "012"%char
              else if Ascii.eqb e dquote || Ascii.eqb e backslash
                      || Ascii.eqb e "/" then Some e
              else None in
            match unescaped, parseChars s'' with
            | Some u, Some (str, rest) => Some (String u str, rest)
            | _, _ => None
            end
        | EmptyString => None
        end
      else if (nat_of_ascii c <? 32)%nat then None
      else match parseChars s' with
           | Some (str, rest) => Some (String c str, rest)
           | None => None
           end
  end.

Definition isNumberChar (c : ascii) : bool :=
  isDigit c || List.existsb (Ascii.eqb c) ["-"; "+"; "."; "e"; "E"]%char.

Fixpoint spanNumber (s : string) : string * string :=
  match s with
  | String c s' =>
      if isNumberChar c
      then let (n, rest) := spanNumber s' in (String c n, rest)
      else (EmptyString, s)
  | EmptyString => (EmptyString, s)
  end.

(** A later member with the same key replaces the earlier one, as an
    assignment to a Go map does. *)
Fixpoint mapSet (obj : jsonObject) (k : string) (v : JSON) : jsonObject :=
  match obj with
  | [] => [(k, v)]
  | (k', v') :: obj' =>
      if String.eqb k' k then (k, v) :: obj' else (k', v') :: mapSet obj' k v
  end.

Fixpoint parseValue (fuel : nat) (s : string) : option (JSON * string) :=
  match fuel with
  | O => None
  | S fuel' =>
      match skipSpace s with
      | String "{" rest =>
          match skipSpace rest with
          | String "}" rest' => Some (JObject [], rest')
          | _ => parseMembers fuel' rest []
          end
      | String "[" rest =>
          match skipSpace rest with
          | String "]" rest' => Some (JArray [], rest')
          | _ => parseElements fuel' rest []
          end
      | String c rest =>
          if Ascii.eqb c dquote then
            match parseChars rest with
            | Some (str, rest') => Some (JString str, rest')
            | None => None
            end
          else if String.prefix "true" (String c rest)
          then Some (JBool true, Slice.drop 4 (String c rest))
          else if String.prefix "false" (String c rest)
          then Some (JBool false, Slice.drop 5 (String c rest))
          else if String.prefix "null" (String c rest)
          then Some (JNull, Slice.drop 4 (String c rest))
          else if isDigit c || Ascii.eqb c "-"
          then let (n, rest') := spanNumber (String c rest) in
               Some (JNumber n, rest')
          else None
      | EmptyString => None
      end
  end
with parseElements (fuel : nat) (s : string) (acc : list JSON)
    : option (JSON * string) :=
  match fuel with
  | O => None
  | S fuel' =>
      match parseValue fuel' s with
      | Some (v, rest) =>
          match skipSpace rest with
          | String "," rest' => parseElements fuel' rest' (acc ++ [v])
          | String "]" rest' => Some (JArray (acc ++ [v]), rest')
          | _ => None
          end
      | None => None
      end
  end
with parseMembers (fuel : nat) (s : string) (acc : jsonObject)
    : option (JSON * string) :=
  match fuel with
  | O => None
  | S fuel' =>
      match skipSpace s with
      | String q rest =>
          if Ascii.eqb q dquote then
            match parseChars rest with
            | Some (key, rest1) =>
                match skipSpace rest1 with
                | String ":" rest2 =>
                    match parseValue fuel' rest2 with
                    | Some (v, rest3) =>
                        match skipSpace rest3 with
                        | String "," rest4 =>
                            parseMembers fuel' rest4 (mapSet acc key v)
                        | String "}" rest4 =>
                            Some (JObject (mapSet acc key v), rest4)
                        | _ => None
                        end
                    | None => None
                    end
                | _ => None
                end
            | None => None
            end
          else None
      | EmptyString => None
      end
  end.

Definition Decode (text : string) : option JSON :=
  match parseValue (S (String.length text)) text with
  | Some (v, rest) =>
      match skipSpace rest with
      | EmptyString => Some v
      | _ => None
      end
  | None => None
  end.

(** *** URLs *)

(** [(?i)^[a-z][a-z0-9+.-]*://([^/?#]+)]: a scheme and a host. *)
Definition rxAbsolute : regex :=
  seq [Bol; Class (fun x => inRange "a" "z" (foldRune x));
       Star true (Class (fun x => inRange "a" "z" (foldRune x) || perl_d x
                                  || oneOf "+.-" x));
       lit "://"; Group 1 (Plus true (Class (fun x => negb (oneOf "/?#" x))))].

(** Modelled from the spec: [isAbsoluteURL] is not in metadata.go; an
    absolute URL has a scheme and a host. *)
Definition IsAbsoluteURL (s : string) : bool := MatchString rxAbsolute s.

Definition UrlString (u : Url) : string :=
  (if isEmpty (Scheme u) then "" else Scheme u ++ ":") ++
  (if isEmpty (Host u) then "" else "//" ++ Host u) ++
  Path u ++
  (if isEmpty (RawQuery u) then "" else "?" ++ RawQuery u) ++
  (if isEmpty (Fragment u) then "" else "#" ++ Fragment u).

(** Modelled from the spec: [createAbsoluteURL] is not in metadata.go; it
    resolves a reference against the base URL.  A reference that is not
    absolute is resolved here as a path from the root of the base. *)
Definition CreateAbsoluteURL (url : string) (base : option Url) : string :=
  match base with
  | None => url
  | Some b =>
      if isEmpty url || IsAbsoluteURL url then url
      else UrlString (mkUrl (Scheme b) (Host b)
                        (if Strings.HasPrefix url "/" then url else "/" ++ url)
                        "" "")
  end.

(** Modelled from the spec: [extractDomainURL] is not in metadata.go; the
    domain of the URL. *)
Definition ExtractDomainURL (url : string) : string :=
  match FindStringSubmatch rxAbsolute url with
  | _ :: host :: _ => host
  | _ => ""
  end.

(** *** Selector tables *)

Definition classIs (c : string) : Dom.Selector := Dom.attrEq "class" c.

(** Modelled from the spec: the selector tables are not in metadata.go.
    These are the entries that Test_Metadata_Authors, Test_Metadata_Categories
    and Test_Metadata_Tags rely on: [author], [[rel="author"]] and
    [[class="author"]] for the author, *)
Definition authorSelectors : list Dom.Selector :=
  [Dom.attrEq "rel" "author"; classIs "author"; Dom.tag "author"].

(** and [p[class="entry-categories"] a] and [p[class="entry-tags"] a] for
    the categories and the tags. *)
Definition categoriesSelectors : list Dom.Selector :=
  [Dom.descendant (Dom.both (Dom.tag "p") (classIs "entry-categories"))
     (Dom.tag "a")].
Definition tagsSelectors : list Dom.Selector :=
  [Dom.descendant (Dom.both (Dom.tag "p") (classIs "entry-tags"))
     (Dom.tag "a")].

(** The keys of a map in the order of the association list. *)
Definition inOrder (keys : list string) : list nat :=
  List.seq 0 (List.length keys).

(** The keys of a map from the last to the first. *)
Definition reversed (keys : list string) : list nat :=
  List.rev (List.seq 0 (List.length keys)).

Definition libWith (order : list string -> list nat) : GoLib := {|
  strings_ToLower := ToLower;
  strings_Title := Title;
  unicode_IsUpper := IsUpper;
  json_Decode := Decode;
  rangeOrder := order;
  url_String := UrlString;
  isAbsoluteURL := IsAbsoluteURL;
  createAbsoluteURL := CreateAbsoluteURL;
  extractDomainURL := ExtractDomainURL;
  metaTitleSelectors := [];
  metaAuthorSelectors := authorSelectors;
  metaCategoriesSelectors := categoriesSelectors;
  metaTagsSelectors := tagsSelectors
|}.

Definition lib : GoLib := libWith inOrder.

End Ref.


(** ** Pages

    Trees as [html.Parse] builds them: a document node over [html], [head]
    and [body]. *)

Module Page.

Definition html (head body : list Node) : Node :=
  DocumentNode [ElementNode "html" []
                  [ElementNode "head" [] head; ElementNode "body" [] body]].

Definition meta (key val content : string) : Node :=
  ElementNode "meta" [(key, val); ("content", content)] [].

Definition elem (tag : string) (text : string) : Node :=
  ElementNode tag [] [TextNode text].

Definition quoted (s : string) : string :=
  String dquote s ++ String dquote "".

(** [<script type="application/ld+json">text</script>] *)
Definition ldJson (text : string) : Node :=
  ElementNode "script" [("type", "application/ld+json")] [TextNode text].

(** A JSON object text from its members, already written as JSON. *)
Definition object (members : list (string * string)) : string :=
  "{" ++ String.concat ","
           (List.map (fun kv => quoted (fst kv) ++ ":" ++ snd kv) members)
      ++ "}".

Definition link (href text : string) : Node :=
  ElementNode "a" [("href", href)] [TextNode text].

(** The five OpenGraph tags of Test_Metadata_MetaTags. *)
Definition openGraphFive (author : string) : list Node :=
  [meta "property" "og:title" "Open Graph Title";
   meta "property" "og:author" author;
   meta "property" "og:description" "This is an Open Graph description";
   meta "property" "og:site_name" "My first site";
   meta "property" "og:url" "https://example.org/test"].

(** The article of scenarios S7 and S8, with an author of the given
    type. *)
Definition jane (type : string) : Node :=
  ldJson
    (object
       [("@type", quoted "NewsArticle");
        ("author", object [("@type", quoted type);
                           ("name", quoted "Jane Doe")])]).

(** The extractor in the reference environment, without a default URL. *)
Definition run (page : Node) : Metadata :=
  extractMetadata (lib := Ref.lib) page None.

End Page.


(** ** Predicates of the specification *)

Definition isObjectValue (v : JSON) : bool :=
  match v with JObject _ => true | _ => false end.

(** The name that an author or publisher object carries. *)
Definition objectName (o : jsonObject) : string :=
  match mapGet o "name" with
  | Some iName => extractJsonString iName
  | None => ""
  end.

(** The type constraint on an author object: it fails when [@type] is a
    string other than [Person]. *)
Definition notPerson (o : jsonObject) : bool :=
  match mapGet o "@type" with
  | Some (JString strObjType) => negb (String.eqb strObjType "Person")
  | _ => false
  end.

(** The three conditions on an author: a space, no leading [http], and
    none of the JSON symbols. *)
Definition validAuthor (a : string) : Prop :=
  Strings.Contains a " " = true /\
  Strings.HasPrefix a "http" = false /\
  Strings.Contains a "{" = false /\
  Strings.Contains a "}" = false /\
  Strings.Contains a (String backslash "") = false.

Definition emptyOrValidAuthor (a : string) : Prop := a = "" \/ validAuthor a.

(** An entry of the categories or of the tags as [cleanCatTags] leaves
    it: not empty, white-space normalized, without white space at either
    end, and without a separator. *)
Definition cleanEntry (e : string) : Prop :=
  e <> "" /\
  strNormalize e = e /\
  Strings.TrimSpace e = e /\
  Strings.Contains e "," = false /\
  Strings.Contains e ";" = false.

(** The bytes of a string. *)
Definition bytes (s : string) : list ascii := list_ascii_of_string s.

(** Runes of which none is white space. *)
Definition noSpace (rs : list (Z * string)) : Prop :=
  List.Forall (fun rb => Unicode.IsSpace (fst rb) = false) rs.

(** A word of [strings.Fields]: not empty and without a white-space
    rune. *)
Definition isWord (w : string) : Prop :=
  w <> "" /\ noSpace (Utf8.range w).

(** The field that is being read, when the runes [a] have been read. *)
Definition fieldOf (a : list (Z * string)) : option string :=
  match a with
  | [] => None
  | _ => Some (Utf8.unrange a)
  end.

(** A string that is empty or starts with a byte that begins a rune. *)
Definition atBoundary (q : string) : Prop :=
  match q with
  | EmptyString => True
  | String d _ => Utf8.cont d = false
  end.

(** The white space of [\s], which is ASCII. *)
Definition allWs (w : string) : Prop :=
  List.Forall (fun c => Regexp.perl_s (Utf8.byte c) = true) (bytes w).

(** The characters of the class of [rxCommaSeparator]. *)
Definition isSeparator (c : ascii) : bool :=
  Regexp.oneOf ",;" (Utf8.byte c).

Definition noSeparator (s : string) : Prop :=
  forall c, In c (bytes s) -> isSeparator c = false.

(** The parts of [s] between the matches [ms], from offset [beg] on, hold
    no separator. *)
Fixpoint gapsClean (s : string) (beg : nat) (ms : list (nat * nat)) : Prop :=
  match ms with
  | [] => noSeparator (Slice.drop beg s)
  | (b, e) :: ms' =>
      beg <= b /\ noSeparator (Regexp.substr s beg b) /\ gapsClean s e ms'
  end.

(** A site name without the [@] of a Twitter ID. *)
Definition withoutAt (sitename : string) : string :=
  if Strings.HasPrefix sitename "@"
  then Strings.TrimPrefix sitename "@" else sitename.

(** [sub] stands somewhere in [s]. *)
Definition occursIn (sub s : string) : Prop :=
  exists before after, s = (before ++ sub ++ after)%string.

(** An object whose [@type] is a string that names an article. *)
Definition articleObject (o : jsonObject) : Prop :=
  exists t, In ("@type", JString t) o /\
            (occursIn "Article" t \/ t = "SocialMediaPosting" \/ t = "Report").

(** An object whose [@type] is the string [Person]. *)
Definition personObject (o : jsonObject) : Prop :=
  In ("@type", JString "Person") o.

(** The objects that [findImportantObjects] collects are of the kind of
    their list. *)
Definition kindsOk (f : found) : Prop :=
  List.Forall articleObject (fst f) /\ List.Forall personObject (snd f).

(** The separators of the specification. *)
Definition separates (c : ascii) : bool :=
  Ascii.eqb c "," || Ascii.eqb c ";".

(** The pieces of an entry between its separators. *)
Fixpoint pieces (s : string) : list string :=
  match s with
  | EmptyString => [EmptyString]
  | String c s' =>
      if separates c then EmptyString :: pieces s'
      else match pieces s' with
           | piece :: rest => String c piece :: rest
           | [] => [String c EmptyString]
           end
  end.

(** The pieces of a list, normalized, without the empty ones. *)
Definition normalized (l : list string) : list string :=
  List.filter nonEmpty (List.map strNormalize l).

(** What the specification asks of the categories and of the tags: every
    collected entry is split at its separators, every piece is normalized,
    and the empty ones are dropped. *)
Definition splitEntries (entries : list string) : list string :=
  normalized (List.flat_map pieces entries).

(** What has been found in [before] is still in [after]. *)
Definition keeps (before after : Metadata) : Prop :=
  (Author before = "" \/ Author after = Author before) /\
  (Sitename before = "" \/ Sitename after = Sitename before) /\
  (Categories before = [] \/ Categories after = Categories before).

(** A string without a slash. *)
Definition noSlash (s : string) : Prop := ~ In "/"%char (bytes s).

(** The fields that the meta tags never fill are still empty. *)
Definition untouched (m : Metadata) : Prop :=
  Hostname m = "" /\ Date m = "" /\ Categories m = [].

Section Specification.

Context {lib : GoLib}.

Definition emptyOrAbsolute (u : string) : Prop :=
  u = "" \/ isAbsoluteURL u = true.

(** What one [meta] node adds to the tags: its content, when the content is
    not empty and either the property is [article:tag], or there is no
    property and the name is [keywords]. *)
Definition metaTagContent (node : Node) : list string :=
  let content := strNormalize (Dom.GetAttribute node "content") in
  let property := strNormalize (Dom.GetAttribute node "property") in
  let name := strNormalize (strings_ToLower (Dom.GetAttribute node "name")) in
  if isEmpty content then []
  else if nonEmpty property
  then if String.eqb property "article:tag" then [content] else []
  else if String.eqb name "keywords" then [content] else [].

(** An entry of an article that the headline fallback accepts: its key
    contains [headline] and its value is a string that is not empty and
    holds no ellipsis. *)
Definition usableHeadline (kv : string * JSON) : bool :=
  Strings.Contains (strings_ToLower (fst kv)) "headline" &&
  let title := extractJsonString (snd kv) in
  negb (isEmpty title || Strings.Contains title "...").

End Specification.


(** * Properties *)

Unset Implicit Arguments.

(** ** Strings *)

Lemma isEmpty_true (s : string) : isEmpty s = true <-> s = "".
Proof. unfold isEmpty. apply String.eqb_eq. Qed.

Lemma isEmpty_false (s : string) : isEmpty s = false <-> s <> "".
Proof. unfold isEmpty. apply String.eqb_neq. Qed.

Lemma nonEmpty_true (s : string) : nonEmpty s = true <-> s <> "".
Proof.
  unfold nonEmpty. rewrite negb_true_iff. apply isEmpty_false.
Qed.

Lemma strOr_empty_l (b : string) : strOr "" b = b.
Proof. reflexivity. Qed.

Lemma strOr_cases (a b : string) :
  (a = "" /\ strOr a b = b) \/ (a <> "" /\ strOr a b = a).
Proof.
  unfold strOr. destruct (isEmpty a) eqn:E.
  - left. split; [now apply isEmpty_true | reflexivity].
  - right. split; [now apply isEmpty_false | reflexivity].
Qed.

(** ** The merge after JSON-LD *)

(** C6: in the merge at the end of [extractJsonLd] the site name of the
    JSON-LD record replaces the site name found before exactly when it has
    strictly more runes; otherwise the earlier site name is kept. *)
Theorem extractJsonLd_sitename_if_longer
    (lib : GoLib) (doc : Node) (originalMetadata : Metadata) :
  Sitename (extractJsonLd doc originalMetadata) =
  if (Utf8.RuneCountInString (Sitename originalMetadata)
      <? Utf8.RuneCountInString (Sitename (jsonLdMetadata doc)))%nat
  then Sitename (jsonLdMetadata doc)
  else Sitename originalMetadata.
Proof.
  unfold extractJsonLd, mergeJsonLd.
  destruct (noneOf (Categories (jsonLdMetadata doc))); simpl;
    destruct (Utf8.RuneCountInString (Sitename originalMetadata)
              <? Utf8.RuneCountInString (Sitename (jsonLdMetadata doc)))%nat;
    simpl;
    match goal with
    | |- context [if isEmpty ?t then _ else _] => destruct (isEmpty t)
    end; reflexivity.
Qed.

(** The comparison counts runes, not bytes: a two-rune name of four bytes
    does not replace a three-letter name. *)
Example sitename_runes_not_bytes :
  let name := String "195" (String "169" (String "195" (String "169" ""))) in
  String.length name = 4 /\ Utf8.RuneCountInString name = 2 /\
  Sitename (mergeJsonLd (setSitename zeroMetadata name)
              (setSitename zeroMetadata "abc")) = "abc".
Proof. repeat split. Qed.

(** ** Scripts whose top-level value is not an object *)

Lemma mapRange_nil (lib : GoLib) (A : Type) :
  mapRange (@nil (string * A)) = [].
Proof.
  unfold mapRange. induction (rangeOrder (List.map fst (@nil (string * A))))
    as [|i l IH]; simpl; [reflexivity|].
  destruct i; simpl; exact IH.
Qed.

Lemma findImportantObjects_nil (lib : GoLib) :
  findImportantObjects [] = ([], []).
Proof.
  unfold findImportantObjects. simpl.
  change (List.map _ (@nil (string * JSON)))
    with (@nil (string * found)).
  rewrite mapRange_nil. reflexivity.
Qed.

(** The step of a script that decodes to something else than an object
    either is a [continue] or returns the record unchanged. *)
Lemma scriptStep_non_object (lib : GoLib) (metadata : Metadata)
    (script : Node) (v : JSON) :
  json_Decode (Strings.TrimSpace (Dom.TextContent script)) = Some v ->
  isObjectValue v = false ->
  scriptStep metadata script = None \/
  scriptStep metadata script = Some metadata.
Proof.
  intros Hdec Hobj. unfold scriptStep.
  destruct (isEmpty _); [now left|].
  unfold unmarshalObject. rewrite Hdec.
  destruct v; try (now left).
  right. rewrite findImportantObjects_nil. simpl.
  destruct (isEmpty (Author metadata)); reflexivity.
Qed.

Lemma scriptLoop_skip (lib : GoLib) (script : Node) (v : JSON)
    (rest : list Node) :
  json_Decode (Strings.TrimSpace (Dom.TextContent script)) = Some v ->
  isObjectValue v = false ->
  forall (before : list Node) (metadata : Metadata),
    allFound metadata = false ->
    scriptLoop metadata (before ++ script :: rest) =
    scriptLoop metadata (before ++ rest).
Proof.
  intros Hdec Hobj. induction before as [|b before IH]; intros metadata Hnot.
  - simpl.
    destruct (scriptStep_non_object lib metadata script v Hdec Hobj) as [E|E];
      rewrite E; [reflexivity|]. now rewrite Hnot.
  - simpl. destruct (scriptStep metadata b) as [metadata'|].
    + destruct (allFound metadata') eqn:E; [reflexivity | now apply IH].
    + now apply IH.
Qed.

(** C10: a script whose text is JSON but whose top-level value is not an
    object (an array of objects, a string, a number) is skipped entirely:
    the record that the loop over the scripts builds is the one it builds
    without that script. *)
Theorem jsonLd_skips_non_object_script
    (lib : GoLib) (before rest : list Node) (script : Node) (v : JSON) :
  json_Decode (Strings.TrimSpace (Dom.TextContent script)) = Some v ->
  isObjectValue v = false ->
  scriptLoop zeroMetadata (before ++ script :: rest) =
  scriptLoop zeroMetadata (before ++ rest).
Proof.
  intros Hdec Hobj. now apply (scriptLoop_skip lib script v rest Hdec Hobj).
Qed.

(** The hypotheses of the theorem hold for a script that holds an array
    with one article. *)
Lemma jsonLd_skips_non_object_script_witness :
  let text := "[" ++ Page.object [("@type", Page.quoted "Article");
                                  ("name", Page.quoted "A page title")] ++ "]" in
  scriptLoop (lib := Ref.lib) zeroMetadata ([] ++ Page.ldJson text :: []) =
  scriptLoop (lib := Ref.lib) zeroMetadata ([] ++ []).
Proof.
  intro text.
  apply (jsonLd_skips_non_object_script Ref.lib [] [] (Page.ldJson text)
           (JArray [JObject [("@type", JString "Article");
                             ("name", JString "A page title")]])).
  - reflexivity.
  - reflexivity.
Defined.

(** ** The author of an article *)

Ltac break_if :=
  match goal with
  | |- context [if ?c then _ else _] => destruct c eqn:?
  end.

Ltac break_match :=
  match goal with
  | |- context [match ?x with _ => _ end] => destruct x eqn:?
  end.

Lemma articleStep_Author (lib : GoLib) (metadata : Metadata)
    (article : jsonObject) :
  Author (articleStep metadata article) =
  if isEmpty (Author metadata)
  then validateMetadataAuthor
         (extractJsonArticleThingName article "author" ["Person"])
  else Author metadata.
Proof.
  unfold articleStep.
  destruct (isEmpty (Author metadata)); simpl;
    repeat (break_if; simpl); repeat (break_match; simpl); reflexivity.
Qed.

Lemma validateMetadataAuthor_empty : validateMetadataAuthor "" = "".
Proof. reflexivity. Qed.

(** C2, amended: when the [author] of an article is an object, the author
    is the empty string if the [@type] of the object is a string other than
    [Person]; otherwise, also when the object has no [@type] or one that is
    not a string, it is the name of the object, checked as an author. *)
Theorem article_author_object
    (lib : GoLib) (metadata : Metadata) (article o : jsonObject) :
  Author metadata = "" ->
  mapGet article "author" = Some (JObject o) ->
  Author (articleStep metadata article) =
  if notPerson o then "" else validateMetadataAuthor (objectName o).
Proof.
  intros Hempty Hauthor. rewrite articleStep_Author, Hempty. simpl.
  unfold extractJsonArticleThingName. rewrite Hauthor.
  unfold extractJsonThingName, notPerson, objectName.
  destruct (mapGet o "@type") as [[| | |t| |]|]; try reflexivity.
  unfold strIn. simpl. rewrite orb_false_r.
  destruct (String.eqb t "Person"); reflexivity.
Qed.

Lemma article_author_object_witness :
  let o := [("@type", JString "Organization"); ("name", JString "Acme")] in
  let article := [("@type", JString "NewsArticle"); ("author", JObject o)] in
  Author (articleStep (lib := Ref.lib) zeroMetadata article) =
  if notPerson o then "" else validateMetadataAuthor (objectName o).
Proof.
  intros o article.
  apply (article_author_object Ref.lib zeroMetadata article o);
    reflexivity.
Defined.

(** The claim as the specification states it fails on an author object
    without [@type]: its name becomes the author. *)
Lemma author_object_without_type_is_taken :
  let o := [("name", JString "Jane Doe")] in
  let article := [("@type", JString "NewsArticle"); ("author", JObject o)] in
  let text := Page.object
                [("@type", Page.quoted "NewsArticle");
                 ("author", Page.object [("name", Page.quoted "Jane Doe")])] in
  unmarshalObject (lib := Ref.lib) text = Some article /\
  mapGet o "@type" <> Some (JString "Person") /\
  Author (articleStep (lib := Ref.lib) zeroMetadata article) = "Jane Doe" /\
  Author (extractMetadata (lib := Ref.lib) (Page.html [Page.ldJson text] [])
            None) = "Jane Doe".
Proof.
  repeat split; try reflexivity. discriminate.
Qed.

(** ** The tags of the meta-tag scan *)

Lemma fold_left_preserves {A B : Type} (P : A -> Prop) (f : A -> B -> A) :
  (forall a b, P a -> P (f a b)) ->
  forall (l : list B) (a : A), P a -> P (List.fold_left f l a).
Proof.
  intros Hf. induction l as [|b l IH]; intros a Ha; simpl; auto.
Qed.

Lemma openGraphStep_Tags (lib : GoLib) (metadata : Metadata) (node : Node) :
  Tags (openGraphStep metadata node) = Tags metadata.
Proof.
  unfold openGraphStep. repeat (break_if; simpl); reflexivity.
Qed.

Lemma extractOpenGraphMeta_Tags (lib : GoLib) (doc : Node) :
  Tags (extractOpenGraphMeta doc) = [].
Proof.
  unfold extractOpenGraphMeta.
  apply (fold_left_preserves (fun m => Tags m = [])); [|reflexivity].
  intros a b Ha. now rewrite openGraphStep_Tags.
Qed.

Lemma metaTagStep_Tags (lib : GoLib) (st : Metadata * string) (node : Node) :
  Tags (fst (metaTagStep st node)) =
  (Tags (fst st) ++ metaTagContent node)%list.
Proof.
  destruct st as [metadata tmpSitename].
  unfold metaTagStep, metaTagContent.
  set (content := strNormalize (Dom.GetAttribute node "content")).
  set (property := strNormalize (Dom.GetAttribute node "property")).
  set (name := strNormalize (strings_ToLower (Dom.GetAttribute node "name"))).
  set (itemprop := strNormalize (Dom.GetAttribute node "itemprop")).
  destruct (isEmpty content); [simpl; now rewrite app_nil_r|].
  destruct (nonEmpty property).
  - destruct (String.eqb_spec property "article:tag") as [E|E].
    + rewrite E. reflexivity.
    + repeat (break_if; simpl); now rewrite app_nil_r.
  - destruct (nonEmpty name) eqn:En.
    + destruct (String.eqb_spec name "keywords") as [E|E].
      * rewrite E. reflexivity.
      * repeat (break_if; simpl); now rewrite app_nil_r.
    + unfold nonEmpty in En. apply negb_false_iff, isEmpty_true in En.
      rewrite En. simpl.
      repeat (break_if; simpl); now rewrite app_nil_r.
Qed.

Lemma metaTagScan_Tags (lib : GoLib) (nodes : list Node)
    (st : Metadata * string) :
  Tags (fst (List.fold_left metaTagStep nodes st)) =
  (Tags (fst st) ++ List.flat_map metaTagContent nodes)%list.
Proof.
  revert st. induction nodes as [|node nodes IH]; intro st; simpl.
  - now rewrite app_nil_r.
  - rewrite IH, metaTagStep_Tags. now rewrite <- app_assoc.
Qed.

(** C1, amended: when the OpenGraph pass has set all five of title, author,
    URL, description and site name, [processMetaTags] returns without
    scanning and its tags are empty; otherwise the scan collects the content
    of every [meta] node that [metaTagContent] accepts, in document
    order. *)
Theorem processMetaTags_Tags (lib : GoLib) (doc : Node) :
  Tags (processMetaTags doc) =
  if allOpenGraphAssigned (extractOpenGraphMeta doc) then []
  else List.flat_map metaTagContent (Dom.QuerySelectorAll doc selMetaContent).
Proof.
  unfold processMetaTags.
  destruct (allOpenGraphAssigned (extractOpenGraphMeta doc)).
  - apply extractOpenGraphMeta_Tags.
  - pose proof (metaTagScan_Tags lib (Dom.QuerySelectorAll doc selMetaContent)
                  (extractOpenGraphMeta doc, "")) as H.
    destruct (List.fold_left metaTagStep _ _) as [metadata tmpSitename].
    simpl in H. rewrite extractOpenGraphMeta_Tags in H. simpl in H.
    rewrite <- H. break_if; reflexivity.
Qed.

(** The claim as the specification states it fails on the five OpenGraph
    tags of Test_Metadata_MetaTags followed by an [article:tag] and a
    [keywords] node: no tag is collected. *)
Lemma openGraph_complete_drops_tags :
  let page :=
    Page.html (Page.openGraphFive "Jenny Smith" ++
               [Page.meta "property" "article:tag" "golang";
                Page.meta "name" "keywords" "parsing, html"]) [] in
  allOpenGraphAssigned (extractOpenGraphMeta (lib := Ref.lib) page) = true /\
  List.flat_map (metaTagContent (lib := Ref.lib))
    (Dom.QuerySelectorAll page selMetaContent) = ["golang"; "parsing, html"] /\
  Tags (processMetaTags (lib := Ref.lib) page) = [] /\
  Tags (extractMetadata (lib := Ref.lib) page None) = [].
Proof. repeat split. Qed.

(** With one of the five missing, the same two nodes are collected. *)
Example openGraph_incomplete_keeps_tags :
  let page :=
    Page.html [Page.meta "property" "og:title" "Open Graph Title";
               Page.meta "property" "article:tag" "golang";
               Page.meta "name" "keywords" "parsing, html"] [] in
  Tags (processMetaTags (lib := Ref.lib) page) = ["golang"; "parsing, html"] /\
  Tags (extractMetadata (lib := Ref.lib) page None) =
    ["golang"; "parsing"; "html"].
Proof. repeat split. Qed.

(** ** The URL *)

(** Projections of a record after setters, without unfolding anything
    else. *)
Ltac fields :=
  cbn [Title Author URL Hostname Description Sitename Date Categories Tags
       setTitle setAuthor setURL setHostname setDescription setSitename
       setCategories setTags fst snd] in *.

Section UrlField.

Context (lib : GoLib).

Lemma openGraphStep_URL (metadata : Metadata) (node : Node) :
  emptyOrAbsolute (URL metadata) ->
  emptyOrAbsolute (URL (openGraphStep metadata node)).
Proof.
  intro H. unfold openGraphStep.
  repeat (break_if; fields); try exact H. now right.
Qed.

Lemma extractOpenGraphMeta_URL (doc : Node) :
  emptyOrAbsolute (URL (extractOpenGraphMeta doc)).
Proof.
  unfold extractOpenGraphMeta.
  apply (fold_left_preserves (fun m => emptyOrAbsolute (URL m))).
  - intros a b. apply openGraphStep_URL.
  - now left.
Qed.

Lemma metaTagStep_URL (st : Metadata * string) (node : Node) :
  emptyOrAbsolute (URL (fst st)) ->
  emptyOrAbsolute (URL (fst (metaTagStep st node))).
Proof.
  destruct st as [metadata tmpSitename]. intro H. unfold metaTagStep.
  repeat (break_if; fields); try exact H.
  right. match goal with
         | E : (_ && isAbsoluteURL _)%bool = true |- _ =>
             apply andb_prop in E; apply E
         end.
Qed.

Lemma processMetaTags_URL (doc : Node) :
  emptyOrAbsolute (URL (processMetaTags doc)).
Proof.
  unfold processMetaTags. break_if; [apply extractOpenGraphMeta_URL|].
  pose proof (fold_left_preserves
                (fun st => emptyOrAbsolute (URL (fst st))) metaTagStep
                (fun a b => metaTagStep_URL a b)
                (Dom.QuerySelectorAll doc selMetaContent)
                (extractOpenGraphMeta doc, "")
                (extractOpenGraphMeta_URL doc)) as H.
  destruct (List.fold_left metaTagStep _ _) as [metadata tmpSitename].
  fields. break_if; exact H.
Qed.

Lemma mergeJsonLd_URL (metadata originalMetadata : Metadata) :
  URL (mergeJsonLd metadata originalMetadata) = URL originalMetadata.
Proof.
  unfold mergeJsonLd. repeat (break_if; fields); reflexivity.
Qed.

Lemma extractDomURL_cases (doc : Node) (defaultURL : option Url) :
  emptyOrAbsolute (extractDomURL doc defaultURL) \/
  extractDomURL doc defaultURL = defaultURLString defaultURL.
Proof.
  unfold extractDomURL.
  set (url0 := match Dom.QuerySelector doc (selHeadLink "canonical") with
               | Some linkNode => linkHref linkNode ""
               | None => _
               end).
  set (url := if (nonEmpty url0 && Strings.HasPrefix url0 "/")%bool
              then _ else url0).
  destruct (nonEmpty url && isAbsoluteURL url)%bool eqn:E1.
  - left. right. apply andb_prop in E1. apply E1.
  - destruct (nonEmpty url && isAbsoluteURL (createAbsoluteURL url defaultURL))%bool
      eqn:E2.
    + left. right. apply andb_prop in E2. apply E2.
    + now right.
Qed.

Lemma collectMetadata_URL (doc : Node) (defaultURL : option Url) :
  emptyOrAbsolute (URL (collectMetadata doc defaultURL)) \/
  URL (collectMetadata doc defaultURL) = defaultURLString defaultURL.
Proof.
  unfold collectMetadata, extractJsonLd.
  set (m0 := mergeJsonLd (jsonLdMetadata doc) (processMetaTags doc)).
  assert (H0 : emptyOrAbsolute (URL m0)).
  { unfold m0. rewrite mergeJsonLd_URL. apply processMetaTags_URL. }
  clearbody m0.
  repeat (break_if; fields); auto using extractDomURL_cases.
Qed.

Lemma extractMetadata_URL (doc : Node) (defaultURL : option Url) :
  URL (extractMetadata doc defaultURL) = URL (collectMetadata doc defaultURL).
Proof.
  unfold extractMetadata.
  repeat (break_if; fields); repeat (break_match; fields); reflexivity.
Qed.

End UrlField.

(** C7, amended: the URL of the returned record is empty, or absolute, or
    the string of the default URL, which [extractDomURL] returns as it is
    when nothing else yields an absolute URL. *)
Theorem extractMetadata_URL_absolute_or_default
    (lib : GoLib) (doc : Node) (defaultURL : option Url) :
  URL (extractMetadata doc defaultURL) = "" \/
  isAbsoluteURL (URL (extractMetadata doc defaultURL)) = true \/
  URL (extractMetadata doc defaultURL) = defaultURLString defaultURL.
Proof.
  rewrite extractMetadata_URL.
  destruct (collectMetadata_URL lib doc defaultURL) as [[H|H]|H]; auto.
Qed.

(** The claim as the specification states it fails when the default URL is
    a path: on a page without any URL the path is returned. *)
Lemma default_url_returned_unchecked :
  let defaultURL := Some (mkUrl "" "" "/archive/page.html" "" "") in
  URL (extractMetadata (lib := Ref.lib) (Page.html [] []) defaultURL) =
    "/archive/page.html" /\
  isAbsoluteURL (GoLib := Ref.lib) "/archive/page.html" = false.
Proof. split; reflexivity. Qed.

(** ** Bytes, runes and the search of a regular expression *)

Lemma bytes_app (s t : string) : bytes (s ++ t) = (bytes s ++ bytes t)%list.
Proof. induction s as [|c s IH]; simpl; [reflexivity | now rewrite IH]. Qed.

Lemma take_drop (n : nat) (s : string) :
  (Slice.take n s ++ Slice.drop n s)%string = s.
Proof.
  revert s. induction n as [|n IH]; intros [|c s]; simpl; try reflexivity.
  now rewrite IH.
Qed.

Lemma bytes_take_drop (n : nat) (s : string) :
  bytes s = (bytes (Slice.take n s) ++ bytes (Slice.drop n s))%list.
Proof. now rewrite <- bytes_app, take_drop. Qed.

Lemma drop_length (n : nat) (s : string) :
  String.length (Slice.drop n s) = String.length s - n.
Proof.
  revert s. induction n as [|n IH]; intros [|c s]; simpl; auto.
Qed.

Lemma drop_drop (n m : nat) (s : string) :
  Slice.drop n (Slice.drop m s) = Slice.drop (m + n) s.
Proof.
  revert s. induction m as [|m IH]; intros [|c s]; simpl; auto.
  now destruct n.
Qed.

Lemma take_take_drop (n m : nat) (s : string) :
  Slice.take (n + m) s =
  (Slice.take n s ++ Slice.take m (Slice.drop n s))%string.
Proof.
  revert s. induction n as [|n IH]; intros [|c s]; simpl; auto.
  - now destruct m.
  - now rewrite IH.
Qed.

Lemma byte_range (c : ascii) : (0 <= Utf8.byte c < 256)%Z.
Proof.
  unfold Utf8.byte. pose proof (nat_ascii_bounded c). lia.
Qed.

(** A rune is at least one byte wide; a byte below 128 is a rune by itself
    and the other bytes of a rune are not below 128. *)
Ltac split_andb :=
  repeat match goal with
         | H : (_ && _)%bool = true |- _ => apply andb_prop in H; destruct H
         end.

Lemma decode_shape (c0 : ascii) (s1 : string) :
  exists x w,
    Utf8.DecodeRuneInString (String c0 s1) = Some (x, w) /\
    1 <= w /\
    ((Utf8.byte c0 < 128)%Z -> x = Utf8.byte c0 /\ w = 1) /\
    (forall c, In c (bytes (Slice.take w (String c0 s1))) ->
               c = c0 \/ (128 <= Utf8.byte c)%Z).
Proof.
  unfold Utf8.DecodeRuneInString. cbv zeta.
  destruct (Utf8.byte c0 <? 128)%Z eqn:E0.
  - exists (Utf8.byte c0), 1.
    split; [reflexivity|]. split; [lia|]. split; [auto|].
    simpl. intros c [H|[]]; auto.
  - apply Z.ltb_ge in E0.
    repeat match goal with
           | |- context [match ?s with EmptyString => _ | String _ _ => _ end] =>
               is_var s; destruct s
           | |- context [if ?b then _ else _] => destruct b eqn:?
           end;
      (eexists _, _; split; [reflexivity|]; split; [lia|];
       split; [intro; lia|]; simpl; intros c Hc;
       unfold Utf8.cont, Utf8.between in *; split_andb;
       repeat match goal with
              | H : context [if ?b then _ else _] |- _ => destruct b
              end;
       repeat match goal with
              | H : _ \/ _ |- _ => destruct H
              | H : False |- _ => destruct H
              end; subst; auto; right; lia).
Qed.

Lemma searchFuel_O (r : Regexp.regex) (pos : nat) (s : string) :
  Regexp.searchFuel 0 r pos s =
  match Regexp.matchAt r pos s with
  | Some (e, c) => Some (pos, e, c)
  | None => None
  end.
Proof. reflexivity. Qed.

Lemma searchFuel_S (fuel : nat) (r : Regexp.regex) (pos : nat) (s : string) :
  Regexp.searchFuel (S fuel) r pos s =
  match Regexp.matchAt r pos s with
  | Some (e, c) => Some (pos, e, c)
  | None =>
      match Utf8.DecodeRuneInString s with
      | Some (_, w) =>
          Regexp.searchFuel fuel r (pos + w) (Slice.drop w s)
      | None => None
      end
  end.
Proof. reflexivity. Qed.

(** When an expression matches wherever one of the ASCII characters [q]
    stands, the part of the text that a search skips holds none of them. *)
Section SearchSkip.

Variable r : Regexp.regex.
Variable q : ascii -> bool.

Hypothesis q_ascii : forall c, q c = true -> (Utf8.byte c < 128)%Z.
Hypothesis q_match :
  forall pos c0 s1, q c0 = true -> Regexp.matchAt r pos (String c0 s1) <> None.

Lemma skipped_rune (pos : nat) (c0 : ascii) (s1 : string) :
  Regexp.matchAt r pos (String c0 s1) = None ->
  exists x w,
    Utf8.DecodeRuneInString (String c0 s1) = Some (x, w) /\ 1 <= w /\
    forall c, In c (bytes (Slice.take w (String c0 s1))) -> q c = false.
Proof.
  intro Hnone.
  destruct (decode_shape c0 s1) as (x & w & Hdec & Hw & _ & Hbytes).
  exists x, w. split; [exact Hdec|]. split; [exact Hw|].
  intros c Hc. destruct (q c) eqn:Hq; [exfalso | reflexivity].
  destruct (Hbytes c Hc) as [->|Hge].
  - exact (q_match pos c0 s1 Hq Hnone).
  - apply q_ascii in Hq. lia.
Qed.

Lemma searchFuel_none (fuel : nat) :
  forall (pos : nat) (s : string),
    String.length s <= fuel ->
    Regexp.searchFuel fuel r pos s = None ->
    forall c, In c (bytes s) -> q c = false.
Proof.
  induction fuel as [|fuel IH]; intros pos s Hlen Hsearch c Hc.
  - destruct s; [destruct Hc | simpl in Hlen; lia].
  - destruct s as [|c0 s1]; [destruct Hc|].
    rewrite searchFuel_S in Hsearch.
    destruct (Regexp.matchAt r pos (String c0 s1)) as [[e cap]|] eqn:Hm;
      [discriminate|].
    destruct (skipped_rune pos c0 s1 Hm) as (x & w & Hdec & Hw & Hskip).
    rewrite Hdec in Hsearch.
    rewrite (bytes_take_drop w) in Hc. apply in_app_or in Hc.
    destruct Hc as [Hc|Hc]; [now apply Hskip|].
    apply (IH (pos + w) (Slice.drop w (String c0 s1))); auto.
    rewrite drop_length. lia.
Qed.

Lemma searchFuel_some (fuel : nat) :
  forall (pos : nat) (s : string) (b e : nat) (cap : Regexp.captures),
    Regexp.searchFuel fuel r pos s = Some (b, e, cap) ->
    pos <= b /\
    Regexp.matchAt r b (Slice.drop (b - pos) s) = Some (e, cap) /\
    forall c, In c (bytes (Slice.take (b - pos) s)) -> q c = false.
Proof.
  induction fuel as [|fuel IH]; intros pos s b e cap Hsearch.
  - rewrite searchFuel_O in Hsearch.
    destruct (Regexp.matchAt r pos s) as [[e' cap']|] eqn:Hm;
      [|discriminate].
    injection Hsearch as <- <- <-. rewrite Nat.sub_diag. simpl.
    split; [lia|]. split; [exact Hm|]. now intros c [].
  - rewrite searchFuel_S in Hsearch.
    destruct (Regexp.matchAt r pos s) as [[e' cap']|] eqn:Hm.
    + injection Hsearch as <- <- <-. rewrite Nat.sub_diag. simpl.
      split; [lia|]. split; [exact Hm|]. now intros c [].
    + destruct s as [|c0 s1]; [discriminate|].
      destruct (skipped_rune pos c0 s1 Hm) as (x & w & Hdec & Hw & Hskip).
      rewrite Hdec in Hsearch.
      apply IH in Hsearch. destruct Hsearch as (Hle & Hmatch & Hpre).
      split; [lia|].
      replace (b - pos) with (w + (b - (pos + w))) by lia.
      split.
      * rewrite <- drop_drop. exact Hmatch.
      * intros c Hc. rewrite take_take_drop, bytes_app in Hc.
        apply in_app_or in Hc. destruct Hc as [Hc|Hc]; auto.
Qed.

End SearchSkip.

(** A class of ASCII characters matches wherever one of them stands. *)
Lemma matchAt_class (p : Z -> bool) (pos : nat) (c0 : ascii) (s1 : string) :
  (Utf8.byte c0 < 128)%Z -> p (Utf8.byte c0) = true ->
  Regexp.matchAt (Regexp.Class p) pos (String c0 s1) <> None.
Proof.
  intros Hascii Hp. unfold Regexp.matchAt. cbn [Regexp.run].
  destruct (decode_shape c0 s1) as (x & w & Hdec & _ & Hx & _).
  rewrite Hdec. destruct (Hx Hascii) as [-> ->]. rewrite Hp. discriminate.
Qed.

Lemma oneOf_ascii (cs : string) (c : ascii) :
  List.forallb (fun a => (Utf8.byte a <? 128)%Z) (bytes cs) = true ->
  Regexp.oneOf cs (Utf8.byte c) = true -> (Utf8.byte c < 128)%Z.
Proof.
  unfold Regexp.oneOf, bytes. intros Hall Hone.
  apply List.existsb_exists in Hone. destruct Hone as (a & Ha & Heq).
  rewrite List.forallb_forall in Hall. apply Hall in Ha.
  apply Z.eqb_eq in Heq. apply Z.ltb_lt in Ha.
  unfold Regexp.rune in Heq. lia.
Qed.

Lemma MatchString_class_false (cs : string) (s : string) :
  List.forallb (fun a => (Utf8.byte a <? 128)%Z) (bytes cs) = true ->
  Regexp.MatchString (Regexp.Class (Regexp.oneOf cs)) s = false ->
  forall c, In c (bytes s) -> Regexp.oneOf cs (Utf8.byte c) = false.
Proof.
  intros Hcs Hm. unfold Regexp.MatchString, Regexp.search in Hm.
  destruct (Regexp.searchFuel _ _ _ _) eqn:Hs; [discriminate|].
  apply (searchFuel_none (Regexp.Class (Regexp.oneOf cs))
           (fun c => Regexp.oneOf cs (Utf8.byte c))
           (fun c => oneOf_ascii cs c Hcs)
           (fun pos c0 s1 Hq =>
              matchAt_class _ pos c0 s1 (oneOf_ascii cs c0 Hcs Hq) Hq)
           (String.length s) 0 s (le_n _) Hs).
Qed.

Lemma prefix_empty (s : string) : String.prefix "" s = true.
Proof. now destruct s. Qed.

(** [strings.Contains] with a single character. *)
Lemma Contains_char (s : string) (c : ascii) :
  Strings.Contains s (String c "") = true <-> In c (bytes s).
Proof.
  induction s as [|a s IH]; simpl.
  - split; [discriminate | intros []].
  - destruct (ascii_dec c a) as [->|Hne]; simpl.
    + rewrite prefix_empty. split; [intros _; now left | reflexivity].
    + rewrite IH. split; [now right | intros [H|H]; [congruence | exact H]].
Qed.

Lemma Contains_char_false (s : string) (c : ascii) :
  Strings.Contains s (String c "") = false <-> ~ In c (bytes s).
Proof.
  rewrite <- Contains_char. split; intro H.
  - rewrite H. discriminate.
  - destruct (Strings.Contains s (String c "")); [now elim H | reflexivity].
Qed.

(** ** The author *)

Lemma apply_if {A B : Type} (f : A -> B) (c : bool) (x y : A) :
  f (if c then x else y) = if c then f x else f y.
Proof. now destruct c. Qed.

Lemma if_same {A : Type} (c : bool) (x : A) : (if c then x else x) = x.
Proof. now destruct c. Qed.

(** A projection of a record that was built by conditional updates. *)
Ltac push_field f :=
  repeat first [ rewrite (apply_if f) | progress fields | rewrite if_same ].

Lemma validateMetadataAuthor_valid (author : string) :
  emptyOrValidAuthor (validateMetadataAuthor author).
Proof.
  unfold validateMetadataAuthor.
  destruct (isEmpty author) eqn:E1; [left; now apply isEmpty_true|].
  destruct (negb (Strings.Contains author " ")
            || Strings.HasPrefix author "http")%bool eqn:E2; [now left|].
  destruct (Regexp.MatchString rxJsonSymbol author) eqn:E3; [now left|].
  right. apply orb_false_elim in E2. destruct E2 as [E2 E2'].
  apply negb_false_iff in E2.
  pose proof (MatchString_class_false "{\}" author eq_refl E3) as Hsym.
  repeat split; auto; apply Contains_char_false; intro Hin;
    apply Hsym in Hin; discriminate.
Qed.

Lemma prefix_cons (a b : ascii) (s1 s2 : string) :
  String.prefix (String a s1) (String b s2) =
  (Ascii.eqb a b && String.prefix s1 s2)%bool.
Proof.
  cbn [String.prefix]. destruct (ascii_dec a b) as [->|H].
  - now rewrite Ascii.eqb_refl.
  - apply Ascii.eqb_neq in H. now rewrite H.
Qed.

(** A name with a space that does not start with [http] does not start
    with it when something is put after the name. *)
Lemma prefix_http_app (n t : string) :
  In " "%char (bytes n) -> String.prefix "http" n = false ->
  String.prefix "http" (n ++ t) = false.
Proof.
  intros Hsp Hpre.
  destruct n as [|c1 [|c2 [|c3 [|c4 n]]]];
    cbn [append bytes list_ascii_of_string In] in *;
    rewrite ?prefix_cons, ?prefix_empty in *;
    repeat match goal with
           | H : _ \/ _ |- _ => destruct H
           | H : False |- _ => destruct H
           end;
    subst;
    repeat match goal with
           | |- context [Ascii.eqb ?a ?b] =>
               destruct (Ascii.eqb_spec a b); [subst|]
           end;
    cbn [andb] in *; try reflexivity; try discriminate.
Qed.

Lemma bytes_concat (sep : string) (l : list string) (c : ascii) :
  In c (bytes (String.concat sep l)) ->
  In c (bytes sep) \/ exists n, In n l /\ In c (bytes n).
Proof.
  induction l as [|n l IH]; simpl; [intros []|].
  destruct l as [|n' l].
  - intro H. right. exists n. auto.
  - rewrite !bytes_app. intro H.
    apply in_app_or in H. destruct H as [H|H].
    + right. exists n. auto.
    + apply in_app_or in H. destruct H as [H|H]; [now left|].
      destruct (IH H) as [H'|(m & Hm & Hc)]; [now left|].
      right. exists m. split; [now right | exact Hc].
Qed.

Lemma Join_valid (names : list string) :
  names <> [] -> List.Forall validAuthor names ->
  validAuthor (Strings.Join names "; ").
Proof.
  intros Hne Hall.
  assert (Hsym : forall c, c = "{"%char \/ c = "}"%char \/ c = backslash ->
                   Strings.Contains (Strings.Join names "; ") (String c "")
                   = false).
  { intros c Hc. apply Contains_char_false. intro Hin.
    apply bytes_concat in Hin. destruct Hin as [Hin|(n & Hn & Hin)].
    - simpl in Hin. destruct Hc as [->|[->| ->]];
        destruct Hin as [H|[H|[]]]; discriminate.
    - rewrite List.Forall_forall in Hall. apply Hall in Hn.
      destruct Hn as (_ & _ & H1 & H2 & H3).
      apply Contains_char_false in H1, H2, H3.
      destruct Hc as [->|[->| ->]]; contradiction. }
  destruct names as [|n names]; [congruence|].
  inversion Hall as [|? ? Hn Hrest]; subst.
  destruct Hn as (Hsp & Hpre & _).
  split; [|split; [|repeat split; apply Hsym; auto]].
  - unfold Strings.Join. simpl. destruct names; [exact Hsp|].
    apply Contains_char. rewrite bytes_app. apply in_or_app. left.
    now apply Contains_char.
  - unfold Strings.Join, Strings.HasPrefix in *. simpl.
    destruct names; [exact Hpre|].
    apply prefix_http_app; [now apply Contains_char | exact Hpre].
Qed.

Section AuthorField.

Context (lib : GoLib).

Lemma articleStep_author_ok (metadata : Metadata) (article : jsonObject) :
  emptyOrValidAuthor (Author metadata) ->
  emptyOrValidAuthor (Author (articleStep metadata article)).
Proof.
  intro H. rewrite articleStep_Author.
  destruct (isEmpty (Author metadata));
    [apply validateMetadataAuthor_valid | exact H].
Qed.

Lemma personNames_valid (persons : list jsonObject) :
  List.Forall validAuthor (personNames persons).
Proof.
  unfold personNames. apply List.Forall_forall. intros n Hn.
  apply List.filter_In in Hn. destruct Hn as [Hn Hne].
  apply List.in_map_iff in Hn. destruct Hn as (person & <- & _).
  destruct (validateMetadataAuthor_valid
              (extractJsonThingName (JObject person) [])) as [E|E];
    [|exact E].
  rewrite E in Hne. discriminate.
Qed.

Lemma scriptStep_author_ok (metadata metadata' : Metadata) (script : Node) :
  emptyOrValidAuthor (Author metadata) ->
  scriptStep metadata script = Some metadata' ->
  emptyOrValidAuthor (Author metadata').
Proof.
  intros H. unfold scriptStep.
  destruct (isEmpty _); [discriminate|].
  destruct (unmarshalObject _) as [data|]; [|discriminate].
  destruct (findImportantObjects data) as [articles persons].
  pose proof (fold_left_preserves
                (fun m => emptyOrValidAuthor (Author m)) articleStep
                articleStep_author_ok articles metadata H) as Hfold.
  intro E. injection E as <-.
  destruct (isEmpty (Author (List.fold_left articleStep articles metadata)));
    [|exact Hfold].
  pose proof (personNames_valid persons) as Hp.
  destruct (personNames persons) as [|n names] eqn:En; [exact Hfold|].
  right. apply (Join_valid (n :: names)); [discriminate | exact Hp].
Qed.

Lemma scriptLoop_author_ok (scripts : list Node) :
  forall metadata,
    emptyOrValidAuthor (Author metadata) ->
    emptyOrValidAuthor (Author (scriptLoop metadata scripts)).
Proof.
  induction scripts as [|script scripts IH]; intros metadata H; simpl; auto.
  destruct (scriptStep metadata script) as [metadata'|] eqn:E; auto.
  apply scriptStep_author_ok in E; auto.
  destruct (allFound metadata'); auto.
Qed.

Lemma processMetaTags_author_ok (doc : Node) :
  allOpenGraphAssigned (extractOpenGraphMeta doc) = false ->
  emptyOrValidAuthor (Author (processMetaTags doc)).
Proof.
  intro H. unfold processMetaTags. rewrite H.
  destruct (List.fold_left metaTagStep _ _) as [metadata tmpSitename].
  cbn [Author setAuthor]. apply validateMetadataAuthor_valid.
Qed.

Lemma mergeJsonLd_Author (metadata originalMetadata : Metadata) :
  Author (mergeJsonLd metadata originalMetadata) =
  strOr (Author metadata) (Author originalMetadata).
Proof.
  unfold mergeJsonLd. repeat (break_if; fields); reflexivity.
Qed.

Lemma collectMetadata_Author (doc : Node) (defaultURL : option Url) :
  Author (collectMetadata doc defaultURL) =
  let metadata := extractJsonLd doc (processMetaTags doc) in
  if isEmpty (Author metadata) then extractDomAuthor doc
  else Author metadata.
Proof.
  unfold collectMetadata.
  set (m0 := extractJsonLd doc (processMetaTags doc)). cbv zeta.
  clearbody m0. push_field Author. reflexivity.
Qed.

Lemma extractMetadata_Author (doc : Node) (defaultURL : option Url) :
  Author (extractMetadata doc defaultURL) =
  Author (collectMetadata doc defaultURL).
Proof.
  unfold extractMetadata.
  generalize (collectMetadata doc defaultURL) as m0. intro m0. cbv zeta.
  push_field Author.
  repeat (break_match; push_field Author); reflexivity.
Qed.

End AuthorField.

(** C3, amended: an author that JSON-LD yields is the author of the
    returned record on every page; it contains a space, does not start with
    [http] and contains none of the JSON symbols.  Without one, an author
    of the meta tags is returned: it passes the same check when the scan of
    the meta tags has run, and is the OpenGraph author as it stands when
    the OpenGraph pass has filled all five fields.  Without either, the
    author is the one of the DOM fallback, which is returned without that
    check. *)
Theorem extractMetadata_author_valid
    (lib : GoLib) (doc : Node) (defaultURL : option Url) :
  let author := Author (extractMetadata doc defaultURL) in
  let jsonLd := Author (jsonLdMetadata doc) in
  let meta := Author (processMetaTags doc) in
  let openGraph := extractOpenGraphMeta doc in
  (jsonLd <> "" /\ author = jsonLd /\ validAuthor author) \/
  (jsonLd = "" /\ meta <> "" /\ author = meta /\
   (allOpenGraphAssigned openGraph = false /\ validAuthor author \/
    allOpenGraphAssigned openGraph = true /\ author = Author openGraph)) \/
  (jsonLd = "" /\ meta = "" /\ author = extractDomAuthor doc).
Proof.
  intros author jsonLd meta openGraph.
  assert (E : author = if isEmpty (strOr jsonLd meta)
                       then extractDomAuthor doc else strOr jsonLd meta).
  { subst author. rewrite extractMetadata_Author, collectMetadata_Author.
    cbv zeta. unfold extractJsonLd. now rewrite mergeJsonLd_Author. }
  assert (H1 : emptyOrValidAuthor jsonLd).
  { unfold jsonLd, jsonLdMetadata. apply scriptLoop_author_ok. now left. }
  clearbody author.
  destruct (String.eqb_spec jsonLd "") as [Ej|Ej].
  - right.
    assert (Es : strOr jsonLd meta = meta) by (rewrite Ej; apply strOr_empty_l).
    rewrite Es in E.
    destruct (String.eqb_spec meta "") as [Em|Em].
    + right. split; [exact Ej|]. split; [exact Em|]. now rewrite E, Em.
    + left. split; [exact Ej|]. split; [exact Em|].
      assert (Ea : author = meta).
      { rewrite E. apply isEmpty_false in Em. now rewrite Em. }
      split; [exact Ea|]. rewrite Ea.
      destruct (allOpenGraphAssigned openGraph) eqn:Hog.
      * right. split; [reflexivity|]. unfold meta, processMetaTags.
        fold openGraph. now rewrite Hog.
      * left. split; [reflexivity|].
        destruct (processMetaTags_author_ok lib doc Hog) as [H|H];
          [now elim Em | exact H].
  - left.
    assert (Ea : author = jsonLd).
    { rewrite E. unfold strOr. apply isEmpty_false in Ej. now rewrite !Ej. }
    split; [exact Ej|]. split; [exact Ea|]. rewrite Ea.
    destruct H1 as [H|H]; [now elim Ej | exact H].
Qed.

(** The three sources of an author, each on a page. *)
Example author_sources :
  let run page := Author (extractMetadata (lib := Ref.lib) page None) in
  run (Page.html (Page.openGraphFive "Jenny") [Page.jane "Person"])
    = "Jane Doe" /\
  run (Page.html [Page.meta "name" "author" "Jenny Smith"] [])
    = "Jenny Smith" /\
  run (Page.html [Page.meta "name" "author" "Jenny"]
         [Page.elem "author" "Jim"]) = "Jim".
Proof. repeat split. Qed.

(** The claim as the specification states it fails on the author of the DOM
    fallback: the text of an [author] element is returned although it has
    no space.  It also fails after the early return of [processMetaTags],
    which skips the check of the OpenGraph author. *)
Lemma dom_author_not_validated :
  Author (extractMetadata (lib := Ref.lib)
            (Page.html [] [Page.elem "author" "Jenny"]) None) = "Jenny" /\
  Author (extractMetadata (lib := Ref.lib)
            (Page.html (Page.openGraphFive "Jenny") []) None) = "Jenny" /\
  Strings.Contains "Jenny" " " = false.
Proof. repeat split. Qed.

(** ** The site name *)

(** C4, amended: a site name that the sources yield loses one leading [@]
    and is then title-cased exactly when it contains no [.] and its first
    rune is not upper-case, which includes digits and symbols.  So when the
    returned site name contains no [.], its first rune is upper-case or the
    site name is the result of [strings.Title].  When the sources yield
    none, the site name is the host that [rxSitenameFinder2] finds in the
    returned URL, as it stands, or empty when it finds none. *)
Theorem extractMetadata_sitename_normalized
    (lib : GoLib) (doc : Node) (defaultURL : option Url) :
  let found := Sitename (collectMetadata doc defaultURL) in
  let sitename := Sitename (extractMetadata doc defaultURL) in
  let url := URL (extractMetadata doc defaultURL) in
  (found <> "" ->
   sitename =
     (if negb (Strings.Contains (withoutAt found) ".")
         && negb (unicode_IsUpper (getRune (withoutAt found) 0))
      then strings_Title (withoutAt found) else withoutAt found) /\
   (Strings.Contains sitename "." = false ->
    unicode_IsUpper (getRune sitename 0) = true \/
    sitename = strings_Title (withoutAt found))) /\
  (found = "" ->
   sitename =
     match Regexp.FindStringSubmatch rxSitenameFinder2 url with
     | _ :: host :: _ => host
     | _ => ""
     end).
Proof.
  intros found sitename url. split.
  - intro Hne.
    assert (E : sitename = normalizeSitename found).
    { subst sitename found. unfold extractMetadata.
      generalize dependent (collectMetadata doc defaultURL). intros m0 Hne.
      cbv zeta. apply nonEmpty_true in Hne. rewrite Hne.
      push_field Sitename. reflexivity. }
    rewrite E. unfold normalizeSitename. fold (withoutAt found).
    destruct (negb (Strings.Contains (withoutAt found) ".")
              && negb (unicode_IsUpper (getRune (withoutAt found) 0)))%bool
      eqn:Hcase.
    + split; [reflexivity | intros _; now right].
    + split; [reflexivity|]. intro Hdot. left.
      apply andb_false_iff in Hcase. destruct Hcase as [H|H];
        apply negb_false_iff in H; [congruence | exact H].
  - intro Hempty. subst sitename url. rewrite extractMetadata_URL.
    subst found. unfold extractMetadata.
    generalize dependent (collectMetadata doc defaultURL). intros m0 Hempty.
    cbv zeta. unfold nonEmpty at 1. rewrite Hempty. cbn [isEmpty String.eqb negb].
    push_field Sitename.
    destruct (nonEmpty (URL m0)) eqn:Hurl.
    + destruct (Regexp.FindStringSubmatch rxSitenameFinder2 (URL m0))
        as [|whole [|host l]]; fields; auto.
    + unfold nonEmpty in Hurl. apply negb_false_iff, isEmpty_true in Hurl.
      rewrite Hurl, Hempty. reflexivity.
Qed.

Lemma extractMetadata_sitename_normalized_witness :
  let page := Page.html [Page.meta "name" "twitter:site" "@example"] [] in
  let found := Sitename (collectMetadata (lib := Ref.lib) page None) in
  let sitename := Sitename (extractMetadata (lib := Ref.lib) page None) in
  let hostPage :=
    Page.html [Page.meta "property" "og:url" "http://localhost/page"] [] in
  (found = "@example" /\
   sitename =
     (if negb (Strings.Contains (withoutAt found) ".")
         && negb (unicode_IsUpper (GoLib := Ref.lib)
                    (getRune (withoutAt found) 0))
      then strings_Title (GoLib := Ref.lib) (withoutAt found)
      else withoutAt found) /\
   (Strings.Contains sitename "." = false ->
    unicode_IsUpper (GoLib := Ref.lib) (getRune sitename 0) = true \/
    sitename = strings_Title (GoLib := Ref.lib) (withoutAt found))) /\
  (Sitename (collectMetadata (lib := Ref.lib) hostPage None) = "" /\
   Sitename (extractMetadata (lib := Ref.lib) hostPage None) =
     match Regexp.FindStringSubmatch rxSitenameFinder2
             (URL (extractMetadata (lib := Ref.lib) hostPage None)) with
     | _ :: host :: _ => host
     | _ => ""
     end).
Proof.
  intros page found sitename hostPage. split.
  - split; [reflexivity|].
    apply (proj1 (extractMetadata_sitename_normalized Ref.lib page None)).
    vm_compute. discriminate.
  - split; [reflexivity|].
    apply (proj2 (extractMetadata_sitename_normalized Ref.lib hostPage None)).
    reflexivity.
Defined.

(** The claim as the specification states it fails in three ways: a site
    name that starts with a digit keeps it; title-casing is applied although
    the first character is not a lower-case letter; and a site name taken
    from the host of the URL is not capitalized. *)
Lemma sitename_first_rune_not_upper :
  let site name := Page.html [Page.meta "property" "og:site_name" name] [] in
  let run page := Sitename (extractMetadata (lib := Ref.lib) page None) in
  run (site "9gag") = "9gag" /\
  Strings.Contains "9gag" "." = false /\
  unicode_IsUpper (GoLib := Ref.lib) (getRune "9gag" 0) = false /\
  run (site "9gag news") = "9gag News" /\
  run (Page.html [Page.meta "property" "og:url" "http://localhost/page"] [])
    = "localhost" /\
  unicode_IsUpper (GoLib := Ref.lib) (getRune "localhost" 0) = false.
Proof. repeat split. Qed.

(** ** The categories of JSON-LD *)

(** An [articleSection] that is not a string still appends an entry, the
    empty string. *)
Lemma articleStep_section_appends (lib : GoLib) (metadata : Metadata)
    (article : jsonObject) (section : JSON) :
  Categories metadata = [] ->
  mapGet article "articleSection" = Some section ->
  Categories (articleStep metadata article) = [extractJsonString section].
Proof.
  intros Hnone Hsection. unfold articleStep.
  repeat (first [ rewrite Hnone | rewrite Hsection | break_if | break_match ];
          fields; cbn [noneOf app]);
    first [ reflexivity | rewrite Hnone in *; discriminate | congruence ].
Qed.

(** C5, the code at the failing input: the article holds an
    [articleSection] that is an array, and the head a meta tag
    [article:section].  The JSON-LD record gets the empty string as its
    category, which keeps [extractDomCategories] from running, and the
    returned record has no category; without the script the category is the
    one of the meta tag. *)
Theorem articleSection_array_blocks_categories :
  let section := Page.meta "property" "article:section" "Politics" in
  let script :=
    Page.ldJson (Page.object [("@type", Page.quoted "Article");
                              ("articleSection",
                               "[" ++ Page.quoted "News" ++ "]")]) in
  Categories (jsonLdMetadata (lib := Ref.lib)
                (Page.html [section; script] [])) = [""] /\
  Categories (extractMetadata (lib := Ref.lib)
                (Page.html [section; script] []) None) = [] /\
  Categories (extractMetadata (lib := Ref.lib)
                (Page.html [section] []) None) = ["Politics"].
Proof. repeat split. Qed.

(** ** The order of a range over a map *)

Lemma range_orders_permute (keys : list string) :
  Permutation (Ref.inOrder keys) (List.seq 0 (List.length keys)) /\
  Permutation (Ref.reversed keys) (List.seq 0 (List.length keys)).
Proof.
  split; [apply Permutation_refl|].
  unfold Ref.reversed. apply Permutation_sym, Permutation_rev.
Qed.

(** C9, the code at the failing input: an article with the keys [headline]
    and [alternativeHeadline] and no [name].  The title is the first usable
    headline in the order of the [range] over the article, which the Go
    runtime chooses anew at every run: with the keys visited in one order
    the first headline is returned, in the other order the second. *)
Theorem headline_depends_on_range_order :
  let page :=
    Page.html
      [Page.ldJson
         (Page.object
            [("@type", Page.quoted "Article");
             ("headline", Page.quoted "First headline here");
             ("alternativeHeadline", Page.quoted "Second headline here")])]
      [] in
  Title (extractMetadata (lib := Ref.libWith Ref.inOrder) page None)
    = "First headline here" /\
  Title (extractMetadata (lib := Ref.libWith Ref.reversed) page None)
    = "Second headline here".
Proof. split; reflexivity. Qed.

(** ** White-space normalization *)

Lemma append_empty (s : string) : (s ++ "")%string = s.
Proof. induction s as [|a s IH]; simpl; [reflexivity | now rewrite IH]. Qed.

Lemma append_assoc (s t u : string) :
  ((s ++ t) ++ u)%string = (s ++ (t ++ u))%string.
Proof. induction s as [|a s IH]; simpl; [reflexivity | now rewrite IH]. Qed.

Lemma length_app (s t : string) :
  String.length (s ++ t) = String.length s + String.length t.
Proof. induction s as [|a s IH]; simpl; [reflexivity | now rewrite IH]. Qed.

Lemma take_length (n : nat) (s : string) :
  n <= String.length s -> String.length (Slice.take n s) = n.
Proof.
  revert s. induction n as [|n IH]; intros [|c s] H; simpl in *;
    try reflexivity; try lia.
  rewrite IH; [reflexivity | lia].
Qed.

Lemma take_app (p q : string) : Slice.take (String.length p) (p ++ q) = p.
Proof. induction p as [|a p IH]; simpl; [now destruct q | now rewrite IH]. Qed.

Lemma drop_app (p q : string) : Slice.drop (String.length p) (p ++ q) = q.
Proof. induction p as [|a p IH]; simpl; [reflexivity | exact IH]. Qed.

Lemma take_app_le (n : nat) (p q : string) :
  n <= String.length p -> Slice.take n (p ++ q) = Slice.take n p.
Proof.
  revert p. induction n as [|n IH]; intros [|a p] H; simpl in *;
    try reflexivity; try lia.
  rewrite IH; [reflexivity | lia].
Qed.

Lemma drop_app_le (n : nat) (p q : string) :
  n <= String.length p -> Slice.drop n (p ++ q) = (Slice.drop n p ++ q)%string.
Proof.
  revert p. induction n as [|n IH]; intros [|a p] H; simpl in *;
    try reflexivity; try lia.
  apply IH. lia.
Qed.

(** *** The runes of the range loop *)

(** The width of a rune is within the string. *)
Lemma decode_width (s : string) (x : Z) (w : nat) :
  Utf8.DecodeRuneInString s = Some (x, w) -> 1 <= w <= String.length s.
Proof.
  unfold Utf8.DecodeRuneInString. cbv zeta. intro H.
  repeat match type of H with
         | context [match ?s with EmptyString => _ | String _ _ => _ end] =>
             is_var s; destruct s
         | context [if ?b then _ else _] => destruct b
         end;
    try discriminate; injection H as <- <-; simpl; lia.
Qed.

Lemma rangeFuel_enough (n : nat) :
  forall m s, String.length s <= n -> String.length s <= m ->
              Utf8.rangeFuel n s = Utf8.rangeFuel m s.
Proof.
  induction n as [|n IH]; intros m s Hn Hm.
  - destruct s; [|simpl in Hn; lia]. now destruct m.
  - destruct m as [|m].
    + destruct s; [reflexivity | simpl in Hm; lia].
    + cbn [Utf8.rangeFuel].
      destruct (Utf8.DecodeRuneInString s) as [[x w]|] eqn:E; [|reflexivity].
      apply decode_width in E. f_equal.
      apply IH; rewrite drop_length; lia.
Qed.

Lemma range_decode (s : string) :
  Utf8.range s =
  match Utf8.DecodeRuneInString s with
  | Some (x, w) => (x, Slice.take w s) :: Utf8.range (Slice.drop w s)
  | None => []
  end.
Proof.
  unfold Utf8.range. destruct s as [|c s]; [reflexivity|].
  cbn [String.length Utf8.rangeFuel].
  destruct (Utf8.DecodeRuneInString (String c s)) as [[x w]|] eqn:E;
    [|reflexivity].
  apply decode_width in E. f_equal.
  apply rangeFuel_enough; rewrite ?drop_length; cbn [String.length] in *; lia.
Qed.

Lemma range_empty : Utf8.range "" = [].
Proof. reflexivity. Qed.

Lemma unrange_cons (x : Z) (b : string) (rs : list (Z * string)) :
  Utf8.unrange ((x, b) :: rs) = (b ++ Utf8.unrange rs)%string.
Proof.
  unfold Utf8.unrange. cbn [List.map snd String.concat].
  destruct (List.map snd rs) as [|b' l] eqn:E.
  - simpl. symmetry. apply append_empty.
  - reflexivity.
Qed.

Lemma unrange_app (a b : list (Z * string)) :
  Utf8.unrange (a ++ b) = (Utf8.unrange a ++ Utf8.unrange b)%string.
Proof.
  induction a as [|[x c] a IH]; [reflexivity|].
  cbn [List.app]. now rewrite !unrange_cons, IH, append_assoc.
Qed.

(** The runes of a string spell the string. *)
Lemma unrange_range (s : string) : Utf8.unrange (Utf8.range s) = s.
Proof.
  remember (String.length s) as n eqn:En.
  revert s En. induction n as [n IH] using lt_wf_ind. intros s En.
  rewrite range_decode.
  destruct (Utf8.DecodeRuneInString s) as [[x w]|] eqn:E.
  - pose proof (decode_width _ _ _ E) as Hw.
    rewrite unrange_cons.
    rewrite (IH (String.length (Slice.drop w s))); [apply take_drop | | reflexivity].
    rewrite drop_length. lia.
  - destruct s as [|a s]; [reflexivity|].
    destruct (decode_shape a s) as (x & w & H & _). congruence.
Qed.

(** What the range loop has read of a rune does not depend on the bytes
    after the rune. *)
Lemma decode_prefix (p q : string) (x : Z) (w : nat) :
  Utf8.DecodeRuneInString (p ++ q) = Some (x, w) ->
  w <= String.length p ->
  Utf8.DecodeRuneInString p = Some (x, w).
Proof.
  unfold Utf8.DecodeRuneInString. cbv zeta.
  destruct p as [|c0 [|c1 [|c2 [|c3 p]]]]; cbn [append String.length];
    intros H Hw;
    repeat match type of H with
           | context [match ?s with EmptyString => _ | String _ _ => _ end] =>
               is_var s; destruct s
           | context [if ?b then _ else _] => destruct b eqn:?
           end;
    try discriminate; try (injection H as <- <-); try lia;
    try reflexivity.
Qed.

(** The bytes of a rune after the first are continuation bytes. *)
Lemma decode_cont (c0 : ascii) (s1 : string) (x : Z) (w : nat) :
  Utf8.DecodeRuneInString (String c0 s1) = Some (x, w) ->
  forall c, In c (bytes (Slice.take (w - 1) s1)) -> Utf8.cont c = true.
Proof.
  unfold Utf8.DecodeRuneInString. cbv zeta. intro H.
  repeat match type of H with
         | context [match ?s with EmptyString => _ | String _ _ => _ end] =>
             is_var s; destruct s
         | context [if ?b then _ else _] => destruct b eqn:?
         end;
    try discriminate; injection H as <- <-; simpl; intros c Hc;
    repeat match goal with
           | H : _ \/ _ |- _ => destruct H
           | H : False |- _ => destruct H
           end; subst;
    unfold Utf8.cont, Utf8.between in *; split_andb;
    repeat match goal with
           | H : context [if ?b then _ else _] |- _ => destruct b
           end;
    try assumption; apply andb_true_intro; split; lia.
Qed.

Lemma in_take_nth (p : string) (d : ascii) (q : string) (n : nat) :
  String.length p < n -> In d (bytes (Slice.take n (p ++ String d q))).
Proof.
  revert n. induction p as [|a p IH]; intros n Hn; simpl in *.
  - destruct n; [lia|]. simpl. now left.
  - destruct n; [lia|]. simpl. right. apply IH. lia.
Qed.

(** Neither does it depend on the bytes from the next start of a rune
    on. *)
Lemma decode_boundary (p q : string) :
  p <> "" -> atBoundary q ->
  Utf8.DecodeRuneInString (p ++ q) = Utf8.DecodeRuneInString p.
Proof.
  intros Hp Hq. destruct p as [|c0 p]; [now elim Hp|].
  cbn [append].
  destruct (decode_shape c0 (p ++ q)) as (x & w & Hdec & Hw & _).
  rewrite Hdec. symmetry.
  apply (decode_prefix (String c0 p) q); [exact Hdec|].
  cbn [String.length].
  destruct (Nat.le_gt_cases w (S (String.length p))) as [Hle|Hgt];
    [exact Hle | exfalso].
  destruct q as [|d q].
  - apply decode_width in Hdec. cbn [String.length] in Hdec.
    rewrite length_app in Hdec. simpl in Hdec. lia.
  - pose proof (decode_cont _ _ _ _ Hdec d) as Hc.
    simpl in Hq. rewrite Hc in Hq; [discriminate|].
    apply in_take_nth. lia.
Qed.

Lemma range_app (p q : string) :
  atBoundary q -> Utf8.range (p ++ q) = (Utf8.range p ++ Utf8.range q)%list.
Proof.
  intro Hq. remember (String.length p) as n eqn:En. revert p En.
  induction n as [n IH] using lt_wf_ind. intros p En.
  destruct p as [|c0 p]; [reflexivity|].
  rewrite (range_decode (String c0 p ++ q)), (range_decode (String c0 p)).
  rewrite decode_boundary by (discriminate || assumption).
  destruct (Utf8.DecodeRuneInString (String c0 p)) as [[x w]|] eqn:E.
  - pose proof (decode_width _ _ _ E) as Hw.
    rewrite take_app_le, drop_app_le by lia. cbn [List.app]. f_equal.
    apply (IH (String.length (Slice.drop w (String c0 p)))); [|reflexivity].
    rewrite drop_length. lia.
  - destruct (decode_shape c0 p) as (? & ? & H & _). congruence.
Qed.

Lemma range_inv (s : string) (x : Z) (b : string) (rest : list (Z * string)) :
  Utf8.range s = (x, b) :: rest ->
  exists w, Utf8.DecodeRuneInString s = Some (x, w) /\
            b = Slice.take w s /\ rest = Utf8.range (Slice.drop w s).
Proof.
  rewrite range_decode.
  destruct (Utf8.DecodeRuneInString s) as [[x' w]|]; [|discriminate].
  intro H. injection H as <- <- <-. eauto.
Qed.

(** A part of the runes of a string, spelled out and read again, gives the
    same runes. *)
Lemma range_suffix (X : list (Z * string)) :
  forall Y s, Utf8.range s = (X ++ Y)%list -> Utf8.range (Utf8.unrange Y) = Y.
Proof.
  induction X as [|[x b] X IH]; intros Y s H.
  - cbn [List.app] in H. now rewrite <- H, unrange_range.
  - cbn [List.app] in H. apply range_inv in H.
    destruct H as (w & _ & _ & H). symmetry in H. now apply IH in H.
Qed.

Lemma range_prefix (X : list (Z * string)) :
  forall Y s, Utf8.range s = (X ++ Y)%list -> Utf8.range (Utf8.unrange X) = X.
Proof.
  induction X as [|[x b] X IH]; intros Y s H; [reflexivity|].
  pose proof (unrange_range s) as Hs. rewrite H in Hs.
  cbn [List.app] in H, Hs. rewrite unrange_cons, unrange_app in Hs.
  apply range_inv in H. destruct H as (w & Hdec & Hb & Hrest).
  symmetry in Hrest. apply IH in Hrest.
  pose proof (decode_width _ _ _ Hdec) as Hw.
  assert (Hlen : String.length b = w) by (rewrite Hb; apply take_length; lia).
  rewrite unrange_cons, range_decode.
  rewrite <- Hs, <- append_assoc in Hdec.
  apply decode_prefix in Hdec; [|rewrite length_app; lia].
  rewrite Hdec, <- Hlen, take_app, drop_app, Hrest. reflexivity.
Qed.

Lemma range_part (X Y Z : list (Z * string)) (s : string) :
  Utf8.range s = (X ++ Y ++ Z)%list -> Utf8.range (Utf8.unrange Y) = Y.
Proof.
  intro H. apply range_suffix in H. pose proof (unrange_range (Utf8.unrange (Y ++ Z))) as E.
  eapply range_prefix. exact H.
Qed.

Lemma range_nonempty (s : string) (x : Z) (b : string) :
  In (x, b) (Utf8.range s) -> b <> "".
Proof.
  intro H. apply List.in_split in H. destruct H as (X & Y & H).
  apply range_suffix in H. apply range_inv in H.
  destruct H as (w & Hdec & -> & _). apply decode_width in Hdec.
  intro E. apply (f_equal String.length) in E.
  rewrite take_length in E by lia. simpl in E. lia.
Qed.

(** *** strings.Fields *)

Lemma unrange_snoc (a : list (Z * string)) (x : Z) (b : string) :
  Utf8.unrange (a ++ [(x, b)]) = (Utf8.unrange a ++ b)%string.
Proof.
  rewrite unrange_app, unrange_cons. cbn. now rewrite append_empty.
Qed.

Lemma fieldOf_snoc (a : list (Z * string)) (x : Z) (b : string) :
  Some (match fieldOf a with Some w => (w ++ b)%string | None => b end)
  = fieldOf (a ++ [(x, b)]).
Proof.
  destruct a as [|c a]; [reflexivity|].
  cbn [fieldOf List.app]. now rewrite <- (unrange_snoc (c :: a) x b).
Qed.

(** Every field is spelled by a run of runes of the text that are not
    white space. *)
Lemma fieldsFunc_segments (cs : list (Z * string)) :
  forall a w,
    noSpace a ->
    In w (Strings.fieldsFunc Unicode.IsSpace (fieldOf a) cs) ->
    exists pre seg post,
      (a ++ cs = pre ++ seg ++ post)%list /\ seg <> [] /\ noSpace seg /\
      w = Utf8.unrange seg.
Proof.
  induction cs as [|[x b] cs IH]; intros a w Ha Hw.
  - cbn [Strings.fieldsFunc] in Hw. destruct a as [|c a]; [destruct Hw|].
    cbn [fieldOf] in Hw. destruct Hw as [<-|[]].
    exists [], (c :: a), []. rewrite !List.app_nil_r.
    repeat split; [discriminate | exact Ha].
  - cbn [Strings.fieldsFunc] in Hw.
    destruct (Unicode.IsSpace x) eqn:Hx.
    + assert (Hrest : In w (Strings.fieldsFunc Unicode.IsSpace (fieldOf []) cs) ->
                      exists pre seg post,
                        (a ++ (x, b) :: cs = pre ++ seg ++ post)%list /\
                        seg <> [] /\ noSpace seg /\ w = Utf8.unrange seg).
      { intro H. apply IH in H; [|constructor].
        destruct H as (pre & seg & post & E & Hne & Hseg & Hw').
        exists (a ++ (x, b) :: pre)%list, seg, post.
        cbn [List.app] in E. rewrite E, <- List.app_assoc. auto. }
      destruct a as [|c a]; [exact (Hrest Hw)|].
      cbn [fieldOf] in Hw. destruct Hw as [<-|Hw]; [|exact (Hrest Hw)].
      exists [], (c :: a), ((x, b) :: cs).
      repeat split; [discriminate | exact Ha].
    + rewrite (fieldOf_snoc a x b) in Hw. apply IH in Hw.
      * destruct Hw as (pre & seg & post & E & H).
        exists pre, seg, post. rewrite <- E, <- List.app_assoc. auto.
      * apply List.Forall_app. split; [exact Ha|]. constructor; [exact Hx|constructor].
Qed.

Lemma unrange_nonempty (s : string) (X seg Y : list (Z * string)) :
  Utf8.range s = (X ++ seg ++ Y)%list -> seg <> [] -> Utf8.unrange seg <> "".
Proof.
  intros H Hne. destruct seg as [|[x b] seg]; [now elim Hne|].
  assert (Hb : b <> "").
  { apply (range_nonempty s x). rewrite H. apply List.in_or_app. right. now left. }
  rewrite unrange_cons. destruct b; [now elim Hb | discriminate].
Qed.

Lemma Fields_words (s : string) : List.Forall isWord (Strings.Fields s).
Proof.
  apply List.Forall_forall. intros w Hw. unfold Strings.Fields in Hw.
  apply (fieldsFunc_segments _ []) in Hw; [|constructor].
  destruct Hw as (pre & seg & post & E & Hne & Hseg & ->).
  cbn [List.app] in E. split.
  - now apply (unrange_nonempty s pre seg post).
  - now rewrite (range_part pre seg post s E).
Qed.

Lemma bytes_unrange_part (X Y Z : list (Z * string)) (c : ascii) :
  In c (bytes (Utf8.unrange Y)) -> In c (bytes (Utf8.unrange (X ++ Y ++ Z))).
Proof.
  intro H. rewrite !unrange_app, !bytes_app.
  apply List.in_or_app. right. apply List.in_or_app. now left.
Qed.

Lemma strNormalize_bytes (s : string) (c : ascii) :
  In c (bytes (strNormalize s)) -> c = " "%char \/ In c (bytes s).
Proof.
  unfold strNormalize, Strings.Join. intro H.
  apply bytes_concat in H. destruct H as [[<-|[]]|(x & Hx & Hc)]; [now left|].
  right. unfold Strings.Fields in Hx.
  apply (fieldsFunc_segments _ []) in Hx; [|constructor].
  destruct Hx as (pre & seg & post & E & _ & _ & ->).
  cbn [List.app] in E. rewrite <- (unrange_range s), E.
  now apply bytes_unrange_part.
Qed.

Lemma range_ascii (a : ascii) (s : string) :
  (Utf8.byte a < 128)%Z ->
  Utf8.range (String a s) = (Utf8.byte a, String a "") :: Utf8.range s.
Proof.
  intro H. rewrite range_decode.
  destruct (decode_shape a s) as (x & w & Hdec & _ & Hx & _).
  rewrite Hdec. destruct (Hx H) as [-> ->]. reflexivity.
Qed.

Lemma range_nil (s : string) : Utf8.range s = [] -> s = "".
Proof. intro H. now rewrite <- (unrange_range s), H. Qed.

(** Reading a run of runes that are not white space. *)
Lemma fieldsFunc_run (seg : list (Z * string)) :
  noSpace seg ->
  forall a cs,
    Strings.fieldsFunc Unicode.IsSpace (fieldOf a) (seg ++ cs) =
    Strings.fieldsFunc Unicode.IsSpace (fieldOf (a ++ seg)) cs.
Proof.
  induction 1 as [|[x b] seg Hx Hseg IH]; intros a cs.
  - now rewrite List.app_nil_r.
  - cbn [List.app Strings.fieldsFunc]. cbn [fst] in Hx. rewrite Hx.
    rewrite (fieldOf_snoc a x b), IH, <- List.app_assoc. reflexivity.
Qed.

(** White space at the end adds no field. *)
Lemma fieldsFunc_trailing (sps : list (Z * string)) :
  List.Forall (fun rb => Unicode.IsSpace (fst rb) = true) sps ->
  forall cs start,
    Strings.fieldsFunc Unicode.IsSpace start (cs ++ sps) =
    Strings.fieldsFunc Unicode.IsSpace start cs.
Proof.
  intro Hsps.
  assert (Hnone : Strings.fieldsFunc Unicode.IsSpace None sps = []).
  { induction Hsps as [|[x b] sps Hx _ IH]; [reflexivity|].
    cbn [Strings.fieldsFunc]. cbn [fst] in Hx. now rewrite Hx. }
  induction cs as [|[x b] cs IH]; intro start.
  - cbn [List.app]. destruct Hsps as [|[y c] sps Hy _]; [reflexivity|].
    cbn [Strings.fieldsFunc] in *. cbn [fst] in Hy. rewrite Hy in *.
    destruct start; now rewrite Hnone.
  - cbn [List.app Strings.fieldsFunc].
    destruct (Unicode.IsSpace x); [destruct start|]; now rewrite IH.
Qed.

Lemma Fields_word (w : string) (cs : list (Z * string)) :
  isWord w ->
  Strings.fieldsFunc Unicode.IsSpace None (Utf8.range w ++ cs) =
  Strings.fieldsFunc Unicode.IsSpace (Some w) cs.
Proof.
  intros [Hne Hw].
  change (@None string) with (fieldOf []).
  rewrite (fieldsFunc_run (Utf8.range w) Hw [] cs). cbn [List.app].
  destruct (Utf8.range w) eqn:E; [now apply range_nil in E|].
  cbn [fieldOf]. now rewrite <- E, unrange_range.
Qed.

Lemma range_Join (w : string) (ws : list string) :
  ws <> [] ->
  Utf8.range (Strings.Join (w :: ws) " ") =
  (Utf8.range w ++ (32%Z, " ") :: Utf8.range (Strings.Join ws " "))%list.
Proof.
  intro Hne. unfold Strings.Join. cbn [String.concat].
  destruct ws as [|w' ws]; [now elim Hne|].
  rewrite range_app by reflexivity.
  cbn [append]. now rewrite range_ascii.
Qed.

Lemma Fields_Join (ws : list string) :
  List.Forall isWord ws -> Strings.Fields (Strings.Join ws " ") = ws.
Proof.
  unfold Strings.Fields.
  induction ws as [|w ws IH]; intro Hall; [reflexivity|].
  inversion Hall as [|? ? Hw Hrest]; subst.
  destruct ws as [|w' ws].
  - cbn [Strings.Join String.concat].
    rewrite <- (List.app_nil_r (Utf8.range w)). now rewrite Fields_word.
  - rewrite range_Join by discriminate. rewrite Fields_word by exact Hw.
    cbn [Strings.fieldsFunc].
    change (Unicode.IsSpace 32) with true. cbv iota.
    f_equal. now apply IH.
Qed.

Lemma strNormalize_idempotent (s : string) :
  strNormalize (strNormalize s) = strNormalize s.
Proof.
  unfold strNormalize. now rewrite Fields_Join by apply Fields_words.
Qed.

(** *** strings.TrimSpace *)

Lemma word_first (w : string) :
  isWord w ->
  exists x b rest, Utf8.range w = (x, b) :: rest /\ Unicode.IsSpace x = false.
Proof.
  intros [Hne Hw]. destruct (Utf8.range w) as [|[x b] rest] eqn:E;
    [now apply range_nil in E|].
  exists x, b, rest. split; [reflexivity|]. now inversion Hw.
Qed.

Lemma word_last (w : string) :
  isWord w ->
  exists init x b, Utf8.range w = (init ++ [(x, b)])%list /\
                   Unicode.IsSpace x = false.
Proof.
  intros [Hne Hw].
  destruct (List.exists_last (l := Utf8.range w)) as (init & [x b] & E).
  - intro E. now apply range_nil in E.
  - exists init, x, b. split; [exact E|].
    unfold noSpace in Hw. rewrite E in Hw. apply List.Forall_app in Hw.
    destruct Hw as [_ Hw]. now inversion Hw.
Qed.

Lemma Join_first (ws : list string) :
  ws <> [] -> List.Forall isWord ws ->
  exists x b rest, Utf8.range (Strings.Join ws " ") = (x, b) :: rest /\
                   Unicode.IsSpace x = false.
Proof.
  intros Hne Hall. destruct ws as [|w ws]; [now elim Hne|].
  inversion Hall as [|? ? Hw _]; subst.
  destruct (word_first w Hw) as (x & b & rest & E & Hx).
  destruct ws as [|w' ws].
  - exists x, b, rest. now split.
  - rewrite range_Join by discriminate. rewrite E.
    eexists x, b, _. split; [reflexivity | exact Hx].
Qed.

Lemma Join_last (ws : list string) :
  ws <> [] -> List.Forall isWord ws ->
  exists init x b,
    Utf8.range (Strings.Join ws " ") = (init ++ [(x, b)])%list /\
    Unicode.IsSpace x = false.
Proof.
  induction ws as [|w ws IH]; intros Hne Hall; [now elim Hne|].
  inversion Hall as [|? ? Hw Hrest]; subst.
  destruct ws as [|w' ws]; [now apply word_last|].
  destruct IH as (init & x & b & E & Hx); [discriminate | exact Hrest|].
  rewrite range_Join by discriminate. rewrite E.
  exists (Utf8.range w ++ (32%Z, " ") :: init)%list, x, b.
  split; [|exact Hx]. now rewrite <- List.app_assoc.
Qed.

(** A normalized string has no white space at either end. *)
Lemma TrimSpace_strNormalize (s : string) :
  Strings.TrimSpace (strNormalize s) = strNormalize s.
Proof.
  unfold strNormalize. pose proof (Fields_words s) as Hall.
  destruct (Strings.Fields s) as [|w ws] eqn:E; [reflexivity|].
  destruct (Join_first (w :: ws)) as (x & b & rest & E1 & Hx);
    [discriminate | exact Hall |].
  destruct (Join_last (w :: ws)) as (init & y & c & E2 & Hy);
    [discriminate | exact Hall |].
  unfold Strings.TrimSpace.
  assert (Hl : Strings.trimLeft (Utf8.range (Strings.Join (w :: ws) " "))
               = Utf8.range (Strings.Join (w :: ws) " ")).
  { rewrite E1. cbn [Strings.trimLeft]. now rewrite Hx. }
  rewrite Hl, E2, List.rev_app_distr. cbn [List.rev List.app Strings.trimLeft].
  rewrite Hy. change ((y, c) :: List.rev init) with (List.rev [(y, c)] ++ List.rev init)%list.
  rewrite <- List.rev_app_distr, List.rev_involutive, <- E2.
  apply unrange_range.
Qed.

(** *** White space of the separator around a piece *)

Lemma perl_s_space (c : ascii) :
  Regexp.perl_s (Utf8.byte c) = true ->
  (Utf8.byte c < 128)%Z /\ Unicode.IsSpace (Utf8.byte c) = true.
Proof.
  unfold Regexp.perl_s. cbn [List.existsb]. intro H.
  repeat (apply orb_prop in H; destruct H as [H|H]);
    try discriminate; apply Z.eqb_eq in H; rewrite H; split; reflexivity || lia.
Qed.

Lemma Fields_ws_l (w y : string) :
  allWs w -> Strings.Fields (w ++ y) = Strings.Fields y.
Proof.
  unfold allWs, Strings.Fields. induction w as [|a w IH]; intro H; [reflexivity|].
  cbn [bytes list_ascii_of_string] in H. inversion H as [|? ? Ha Hw]; subst.
  apply perl_s_space in Ha. destruct Ha as [Hascii Hsp].
  cbn [append]. rewrite range_ascii by exact Hascii.
  cbn [Strings.fieldsFunc]. rewrite Hsp. now apply IH.
Qed.

Lemma range_ws (w : string) :
  allWs w ->
  List.Forall (fun rb => Unicode.IsSpace (fst rb) = true) (Utf8.range w).
Proof.
  unfold allWs. induction w as [|a w IH]; intro H; [constructor|].
  cbn [bytes list_ascii_of_string] in H. inversion H as [|? ? Ha Hw]; subst.
  apply perl_s_space in Ha. destruct Ha as [Hascii Hsp].
  rewrite range_ascii by exact Hascii. constructor; [exact Hsp | now apply IH].
Qed.

Lemma allWs_boundary (w : string) : allWs w -> atBoundary w.
Proof.
  unfold allWs. destruct w as [|a w]; [constructor|]. intro H.
  cbn [bytes list_ascii_of_string] in H. inversion H as [|? ? Ha _]; subst.
  apply perl_s_space in Ha. destruct Ha as [Hascii _].
  cbn [atBoundary]. unfold Utf8.cont, Utf8.between.
  apply andb_false_iff. left. apply Z.leb_gt. lia.
Qed.

Lemma Fields_ws_r (y w : string) :
  allWs w -> Strings.Fields (y ++ w) = Strings.Fields y.
Proof.
  intro H. unfold Strings.Fields.
  rewrite range_app by now apply allWs_boundary.
  apply fieldsFunc_trailing. now apply range_ws.
Qed.

Lemma strNormalize_ws (w1 y w2 : string) :
  allWs w1 -> allWs w2 -> strNormalize (w1 ++ y ++ w2) = strNormalize y.
Proof.
  intros H1 H2. unfold strNormalize.
  now rewrite Fields_ws_l, Fields_ws_r.
Qed.

(** ** The separator of categories and tags *)

Lemma isSeparator_ascii (c : ascii) :
  isSeparator c = true -> (Utf8.byte c < 128)%Z.
Proof. apply (oneOf_ascii ",;" c eq_refl). Qed.

Lemma run_Cat (r1 r2 : Regexp.regex) pos s c k :
  Regexp.run (Regexp.Cat r1 r2) pos s c k =
  Regexp.run r1 pos s c (fun pos' s' c' => Regexp.run r2 pos' s' c' k).
Proof. reflexivity. Qed.

Lemma run_Class (p : Z -> bool) pos s c k :
  Regexp.run (Regexp.Class p) pos s c k =
  match Utf8.DecodeRuneInString s with
  | Some (x, w) => if p x then k (pos + w) (Slice.drop w s) c else None
  | None => None
  end.
Proof. reflexivity. Qed.

Lemma run_Star (greedy : bool) (r : Regexp.regex) pos s c k :
  Regexp.run (Regexp.Star greedy r) pos s c k =
  Regexp.starLoop greedy r k (S (String.length s)) pos s c.
Proof. reflexivity. Qed.

Lemma starLoop_S (greedy : bool) (r : Regexp.regex) k n pos s c :
  Regexp.starLoop greedy r k (S n) pos s c =
  let again pos' s' c' :=
    if (pos <? pos')%nat then Regexp.starLoop greedy r k n pos' s' c' else None in
  if greedy
  then match Regexp.run r pos s c again with
       | Some m => Some m
       | None => k pos s c
       end
  else match k pos s c with
       | Some m => Some m
       | None => Regexp.run r pos s c again
       end.
Proof. reflexivity. Qed.

(** A greedy star succeeds when what follows always succeeds. *)
Lemma run_Star_total (r : Regexp.regex) pos s c k :
  (forall pos' s' c', k pos' s' c' <> None) ->
  Regexp.run (Regexp.Star true r) pos s c k <> None.
Proof.
  intro Hk. rewrite run_Star, starLoop_S. cbv zeta.
  match goal with
  | |- match ?x with _ => _ end <> None => destruct x
  end; [discriminate | apply Hk].
Qed.

(** A successful run has gone through its continuation, further in the
    text. *)
Lemma run_exit (r : Regexp.regex) :
  forall pos s c k res,
    Regexp.run r pos s c k = Some res ->
    exists pos' s' c', pos <= pos' /\ k pos' s' c' = Some res.
Proof.
  induction r as [|p|r1 IH1 r2 IH2|r1 IH1 r2 IH2|greedy r1 IH1|i r1 IH1| |];
    intros pos s c k res H.
  - exists pos, s, c. auto.
  - rewrite run_Class in H.
    destruct (Utf8.DecodeRuneInString s) as [[x w]|]; [|discriminate].
    destruct (p x); [|discriminate].
    exists (pos + w), (Slice.drop w s), c. split; [lia | exact H].
  - rewrite run_Cat in H. apply IH1 in H.
    destruct H as (pos1 & s1 & c1 & Hle & H). apply IH2 in H.
    destruct H as (pos2 & s2 & c2 & Hle2 & H).
    exists pos2, s2, c2. split; [lia | exact H].
  - cbn [Regexp.run] in H.
    destruct (Regexp.run r1 pos s c k) eqn:E.
    + injection H as <-. now apply IH1 in E.
    + now apply IH2 in H.
  - rewrite run_Star in H.
    remember (S (String.length s)) as n eqn:En. clear En.
    revert pos s c res H.
    induction n as [|n IHn]; intros pos s c res H.
    + exists pos, s, c. auto.
    + rewrite starLoop_S in H. cbv zeta in H.
      assert (Hag : forall res',
                 Regexp.run r1 pos s c
                   (fun pos' s' c' =>
                      if (pos <? pos')%nat
                      then Regexp.starLoop greedy r1 k n pos' s' c'
                      else None) = Some res' ->
                 exists pos' s' c', pos <= pos' /\ k pos' s' c' = Some res').
      { intros res' Hr. apply IH1 in Hr.
        destruct Hr as (pos1 & s1 & c1 & Hle & Hr).
        destruct (pos <? pos1)%nat; [|discriminate].
        apply IHn in Hr. destruct Hr as (pos2 & s2 & c2 & Hle2 & Hr).
        exists pos2, s2, c2. split; [lia | exact Hr]. }
      destruct greedy.
      * match type of H with
        | match ?x with _ => _ end = _ => destruct x eqn:E
        end.
        -- injection H as <-. now apply Hag.
        -- exists pos, s, c. auto.
      * destruct (k pos s c) eqn:E.
        -- injection H as <-. exists pos, s, c. auto.
        -- now apply Hag.
  - cbn [Regexp.run] in H. apply IH1 in H.
    destruct H as (pos1 & s1 & c1 & Hle & H).
    exists pos1, s1, ((i, (pos, pos1)) :: c1). auto.
  - cbn [Regexp.run] in H. destruct (pos =? 0)%nat; [|discriminate].
    exists pos, s, c. auto.
  - cbn [Regexp.run] in H. destruct s; [|discriminate].
    exists pos, "", c. auto.
Qed.

Lemma isSeparator_cases (c : ascii) :
  isSeparator c = true -> Utf8.byte c = 44%Z \/ Utf8.byte c = 59%Z.
Proof.
  unfold isSeparator, Regexp.oneOf. cbn [list_ascii_of_string List.existsb].
  intro H. apply orb_prop in H. destruct H as [H|H].
  - apply Z.eqb_eq in H. left. now rewrite <- H.
  - apply orb_prop in H. destruct H as [H|H]; [|discriminate].
    apply Z.eqb_eq in H. right. now rewrite <- H.
Qed.

(** [rxCommaSeparator] matches wherever a separator stands. *)
Lemma rxCommaSeparator_at_separator (pos : nat) (c0 : ascii) (s1 : string) :
  isSeparator c0 = true ->
  Regexp.matchAt rxCommaSeparator pos (String c0 s1) <> None.
Proof.
  intro Hsep. pose proof (isSeparator_ascii c0 Hsep) as Hascii.
  destruct (decode_shape c0 s1) as (x & w & Hdec & _ & Hx & _).
  destruct (Hx Hascii) as [-> ->].
  assert (Hspace : Regexp.perl_s (Utf8.byte c0) = false).
  { destruct (isSeparator_cases c0 Hsep) as [E|E]; now rewrite E. }
  unfold Regexp.matchAt, rxCommaSeparator, ws. cbn [Regexp.seq].
  rewrite run_Cat, run_Star, starLoop_S. cbv zeta.
  rewrite run_Class, Hdec, Hspace.
  rewrite run_Cat, run_Class, Hdec.
  unfold isSeparator in Hsep. rewrite Hsep.
  apply run_Star_total. intros pos' s' c'. discriminate.
Qed.

(** A match of [rxCommaSeparator] is not empty. *)
Lemma rxCommaSeparator_nonempty (b e : nat) (s : string)
    (cap : Regexp.captures) :
  Regexp.matchAt rxCommaSeparator b s = Some (e, cap) -> b < e.
Proof.
  unfold Regexp.matchAt, rxCommaSeparator, ws. cbn [Regexp.seq].
  rewrite run_Cat. intro H. apply run_exit in H.
  destruct H as (pos1 & s1 & c1 & Hle & H).
  rewrite run_Cat, run_Class in H.
  destruct s1 as [|a s1]; [discriminate|].
  destruct (decode_shape a s1) as (x & w & Hdec & Hw & _).
  rewrite Hdec in H. destruct (Regexp.oneOf ",;" x); [|discriminate].
  apply run_exit in H. destruct H as (pos2 & s2 & c2 & Hle2 & H).
  unfold Regexp.accept in H. injection H as <- _. lia.
Qed.

Lemma rxCommaSeparator_empty (b : nat) :
  Regexp.matchAt rxCommaSeparator b "" = None.
Proof. reflexivity. Qed.

Lemma noSeparator_empty : noSeparator "".
Proof. intros c []. Qed.

Lemma allMatches_gaps (text : string) (fuel : nat) :
  forall (pos : nat) (s : string) (prevEnd : option nat),
    s = Slice.drop pos text ->
    String.length s < fuel ->
    gapsClean text pos (Regexp.allMatches fuel rxCommaSeparator pos s prevEnd).
Proof.
  induction fuel as [|fuel IH]; intros pos s prevEnd Hs Hfuel; [lia|].
  cbn [Regexp.allMatches]. unfold Regexp.search.
  destruct (Regexp.searchFuel (String.length s) rxCommaSeparator pos s)
    as [[[b e] cap]|] eqn:Hsearch.
  - apply (searchFuel_some rxCommaSeparator isSeparator isSeparator_ascii
             rxCommaSeparator_at_separator) in Hsearch.
    destruct Hsearch as (Hle & Hmatch & Hpre).
    pose proof (rxCommaSeparator_nonempty _ _ _ _ Hmatch) as Hlt.
    assert (Hne : (e =? pos)%nat = false) by (apply Nat.eqb_neq; lia).
    rewrite Hne. cbn [gapsClean].
    split; [exact Hle|]. split.
    + unfold Regexp.substr. rewrite <- Hs. exact Hpre.
    + apply IH.
      * rewrite Hs, drop_drop. f_equal. lia.
      * rewrite drop_length.
        destruct s as [|a s]; [|cbn [String.length] in Hfuel |- *; lia].
        destruct (b - pos); cbn [Slice.drop] in Hmatch;
          rewrite rxCommaSeparator_empty in Hmatch; discriminate.
  - cbn [gapsClean]. rewrite <- Hs.
    exact (searchFuel_none rxCommaSeparator isSeparator isSeparator_ascii
             rxCommaSeparator_at_separator (String.length s) pos s
             (le_n _) Hsearch).
Qed.

Lemma splitLoop_clean (text : string) (ms : list (nat * nat)) :
  forall beg end_,
    gapsClean text beg ms ->
    List.Forall noSeparator (Regexp.splitLoop text ms beg end_).
Proof.
  induction ms as [|[b e] ms IH]; intros beg end_ H; cbn [Regexp.splitLoop].
  - destruct (end_ =? String.length text)%nat; constructor; [exact H | constructor].
  - destruct H as (_ & Hgap & Hrest).
    destruct (e =? 0)%nat; [now apply IH|].
    constructor; [exact Hgap | now apply IH].
Qed.

(** The pieces of [rxCommaSeparator.Split] hold no separator. *)
Lemma Split_clean (entry : string) :
  List.Forall noSeparator (Regexp.Split rxCommaSeparator entry).
Proof.
  unfold Regexp.Split. destruct entry as [|a entry].
  - constructor; [apply noSeparator_empty | constructor].
  - apply splitLoop_clean. unfold Regexp.FindAllStringIndex.
    apply allMatches_gaps; [reflexivity | lia].
Qed.

Lemma cleanCatTags_clean (catTags : list string) :
  List.Forall cleanEntry (cleanCatTags catTags).
Proof.
  unfold cleanCatTags. apply List.Forall_forall. intros e He.
  apply List.in_flat_map in He. destruct He as (entry & _ & He).
  apply List.filter_In in He. destruct He as [He Hne].
  apply List.in_map_iff in He. destruct He as (item & <- & Hitem).
  pose proof (Split_clean entry) as Hsplit.
  rewrite List.Forall_forall in Hsplit. apply Hsplit in Hitem.
  assert (Hsep : forall c, isSeparator c = true ->
                   Strings.Contains (strNormalize item) (String c "") = false).
  { intros c Hc. apply Contains_char_false. intro Hin.
    apply strNormalize_bytes in Hin. destruct Hin as [->|Hin].
    - discriminate.
    - apply Hitem in Hin. congruence. }
  split; [now apply nonEmpty_true|].
  split; [apply strNormalize_idempotent|].
  split; [apply TrimSpace_strNormalize|].
  split; apply Hsep; reflexivity.
Qed.

Section Lists.

Context (lib : GoLib).

Lemma noneOf_nil {A : Type} (l : list A) : noneOf l = true -> l = [].
Proof. destruct l; [reflexivity | discriminate]. Qed.

Lemma extractMetadata_Tags (doc : Node) (defaultURL : option Url) :
  Tags (extractMetadata doc defaultURL) = [] \/
  exists l, Tags (extractMetadata doc defaultURL) = cleanCatTags l.
Proof.
  unfold extractMetadata.
  match goal with
  | |- context [if negb (noneOf (Tags ?m)) then _ else _] =>
      generalize m; intro metadata
  end.
  cbv zeta. destruct (noneOf (Tags metadata)) eqn:E.
  - left. cbn. now apply noneOf_nil.
  - right. eexists. cbn. reflexivity.
Qed.

Lemma extractMetadata_Categories (doc : Node) (defaultURL : option Url) :
  Categories (extractMetadata doc defaultURL) = [] \/
  exists l, Categories (extractMetadata doc defaultURL) = cleanCatTags l.
Proof.
  unfold extractMetadata.
  match goal with
  | |- context [if negb (noneOf (Categories ?m)) then _ else _] =>
      generalize m; intro metadata
  end.
  cbv zeta. push_field Categories.
  destruct (noneOf (Categories metadata)) eqn:E.
  - left. cbn. now apply noneOf_nil.
  - right. eexists. cbn. reflexivity.
Qed.

End Lists.

(** The entries of a page with separators in its tags and categories. *)
Example entries_are_split :
  let page :=
    Page.html [Page.meta "name" "keywords" " go ,  html parsing;web ,"]
      [ElementNode "p" [("class", "entry-categories")]
         [Page.link "https://example.org/category/a/" "Science &  Health; News"]] in
  Tags (extractMetadata (lib := Ref.lib) page None)
    = ["go"; "html parsing"; "web"] /\
  Categories (extractMetadata (lib := Ref.lib) page None)
    = ["Science & Health"; "News"].
Proof. split; reflexivity. Qed.

(** ** The scenarios of the specification and of metadata_test.go *)

Import Page.

(** S1: a title alone. *)
Example scenario_title :
  run (Page.html [Page.elem "title" "Test Title"] []) =
  setTitle zeroMetadata "Test Title".
Proof. reflexivity. Qed.

(** S2 and S3: the first of two [h1], and the only [h1]. *)
Example scenario_h1 :
  Title (run (Page.html [] [Page.elem "h1" "First"; Page.elem "h1" "Second"]))
    = "First" /\
  Title (run (Page.html [] [Page.elem "h2" "First"; Page.elem "h1" "Second"]))
    = "Second".
Proof. split; reflexivity. Qed.

(** S4: the URL of OpenGraph and its host. *)
Example scenario_og_url :
  let m := run (Page.html [Page.meta "property" "og:url" "https://example.org"]
                  []) in
  URL m = "https://example.org" /\ Hostname m = "example.org".
Proof. split; reflexivity. Qed.

(** S5: the links of the categories. *)
Example scenario_categories :
  Categories
    (run (Page.html []
            [ElementNode "p" [("class", "entry-categories")]
               [Page.link "https://example.org/category/cat1/" "Cat1";
                TextNode ", ";
                Page.link "https://example.org/category/cat2/" "Cat2"]]))
  = ["Cat1"; "Cat2"].
Proof. reflexivity. Qed.

(** S6: the longer site name of JSON-LD. *)
Example scenario_sitename :
  Sitename
    (run (Page.html
            [Page.meta "property" "og:site_name" "x";
             Page.ldJson
               (Page.object
                  [("@type", Page.quoted "NewsArticle");
                   ("publisher",
                    Page.object [("name", Page.quoted "My first site")])])]
            []))
  = "My first site".
Proof. reflexivity. Qed.

(** S7 and S8: an author of type [Person], and one of type
    [Organization]. *)
Example scenario_author :
  Author (run (Page.html [jane "Person"] [])) = "Jane Doe" /\
  Author (run (Page.html [jane "Organization"] [])) = "".
Proof. split; reflexivity. Qed.

(** Test_Metadata_MetaTags: the five OpenGraph tags, and Dublin Core. *)
Example scenario_meta_tags :
  run (Page.html (Page.openGraphFive "Jenny Smith") []) =
    mkMetadata "Open Graph Title" "Jenny Smith" "https://example.org/test"
      "example.org" "This is an Open Graph description" "My first site" ""
      [] [] /\
  run (Page.html [Page.meta "name" "dc.title" "Open Graph Title";
                  Page.meta "name" "dc.creator" "Jenny Smith"] []) =
    setAuthor (setTitle zeroMetadata "Open Graph Title") "Jenny Smith".
Proof. split; reflexivity. Qed.

(** Test_Metadata_Authors: the author of the DOM, cleaned. *)
Example scenario_dom_author :
  Author (run (Page.html [] [Page.elem "author" "Jenny Smith"]))
    = "Jenny Smith" /\
  Author (run (Page.html [] [Page.elem "author" "by Jenny Smith 2020"]))
    = "Jenny Smith".
Proof. split; reflexivity. Qed.

(** * Further properties of metadata.go *)

(** ** Where each field of the record comes from *)

Section Fields.

Context (lib : GoLib).

(** The OpenGraph pass and the scan of the meta tags leave the host name,
    the date and the categories as they are. *)
Lemma openGraphStep_untouched (metadata : Metadata) (node : Node) :
  Hostname (openGraphStep metadata node) = Hostname metadata /\
  Date (openGraphStep metadata node) = Date metadata /\
  Categories (openGraphStep metadata node) = Categories metadata.
Proof.
  unfold openGraphStep. repeat (break_if; fields); auto.
Qed.

Lemma metaTagStep_untouched (st : Metadata * string) (node : Node) :
  Hostname (fst (metaTagStep st node)) = Hostname (fst st) /\
  Date (fst (metaTagStep st node)) = Date (fst st) /\
  Categories (fst (metaTagStep st node)) = Categories (fst st).
Proof.
  destruct st as [metadata tmpSitename]. unfold metaTagStep.
  repeat (break_if; fields); auto.
Qed.

Lemma extractOpenGraphMeta_untouched (doc : Node) :
  untouched (extractOpenGraphMeta doc).
Proof.
  unfold extractOpenGraphMeta.
  apply (fold_left_preserves untouched); [|repeat split].
  intros a b (H1 & H2 & H3).
  destruct (openGraphStep_untouched a b) as (E1 & E2 & E3).
  unfold untouched. now rewrite E1, E2, E3.
Qed.

Lemma processMetaTags_untouched (doc : Node) :
  untouched (processMetaTags doc).
Proof.
  unfold processMetaTags. break_if; [apply extractOpenGraphMeta_untouched|].
  pose proof (fold_left_preserves (fun st => untouched (fst st)) metaTagStep)
    as Hfold.
  specialize (Hfold
    (fun a b H =>
       match metaTagStep_untouched a b, H with
       | conj E1 (conj E2 E3), conj H1 (conj H2 H3) =>
           conj (eq_trans E1 H1) (conj (eq_trans E2 H2) (eq_trans E3 H3))
       end)
    (Dom.QuerySelectorAll doc selMetaContent) (extractOpenGraphMeta doc, "")
    (extractOpenGraphMeta_untouched doc)).
  destruct (List.fold_left metaTagStep _ _) as [metadata tmpSitename].
  unfold untouched in *. fields. break_if; fields; exact Hfold.
Qed.

Lemma strOr_nonempty (a b : string) : a <> "" -> strOr a b = a.
Proof.
  intro H. unfold strOr. apply isEmpty_false in H. now rewrite H.
Qed.

(** The scan fills blanks only: a title, description, URL or site name
    that is set stays as it is. *)
Lemma metaTagStep_keeps (st : Metadata * string) (node : Node) :
  (Title (fst st) <> "" -> Title (fst (metaTagStep st node)) = Title (fst st))
  /\ (Description (fst st) <> "" ->
      Description (fst (metaTagStep st node)) = Description (fst st))
  /\ (URL (fst st) <> "" -> URL (fst (metaTagStep st node)) = URL (fst st))
  /\ (Sitename (fst st) <> "" ->
      Sitename (fst (metaTagStep st node)) = Sitename (fst st)).
Proof.
  destruct st as [metadata tmpSitename]. unfold metaTagStep.
  repeat split; intro H; repeat (break_if; fields);
    try reflexivity; try (now apply strOr_nonempty).
  apply isEmpty_false in H.
  match goal with
  | E : (isEmpty _ && _)%bool = true |- _ => rewrite H in E; discriminate
  end.
Qed.

Lemma metaTagScan_keeps (f : Metadata -> string) (v : string) :
  (forall st node, f (fst st) <> "" ->
                   f (fst (metaTagStep st node)) = f (fst st)) ->
  v <> "" ->
  forall nodes st, f (fst st) = v ->
                   f (fst (List.fold_left metaTagStep nodes st)) = v.
Proof.
  intros Hstep Hv nodes.
  apply (fold_left_preserves (fun st => f (fst st) = v)).
  intros st node E. rewrite Hstep; [exact E | now rewrite E].
Qed.

Lemma processMetaTags_keeps (doc : Node) :
  let og := extractOpenGraphMeta doc in
  let pm := processMetaTags doc in
  (Title og = "" \/ Title pm = Title og) /\
  (Description og = "" \/ Description pm = Description og) /\
  (URL og = "" \/ URL pm = URL og) /\
  (Sitename og = "" \/ Sitename pm = Sitename og).
Proof.
  intros og pm. subst pm. unfold processMetaTags. fold og.
  destruct (allOpenGraphAssigned og); [repeat split; now right|].
  pose proof (fun f v H1 H2 =>
                metaTagScan_keeps f v H1 H2
                  (Dom.QuerySelectorAll doc selMetaContent) (og, ""))
    as Hscan.
  destruct (List.fold_left metaTagStep _ _) as [metadata tmpSitename].
  cbn [fst] in Hscan.
  repeat split.
  - destruct (String.eqb_spec (Title og) ""); [now left | right].
    push_field Title.
    apply (Hscan Title); auto. intros st node. apply metaTagStep_keeps.
  - destruct (String.eqb_spec (Description og) ""); [now left | right].
    push_field Description.
    apply (Hscan Description); auto. intros st node. apply metaTagStep_keeps.
  - destruct (String.eqb_spec (URL og) ""); [now left | right].
    push_field URL.
    apply (Hscan URL); auto. intros st node. apply metaTagStep_keeps.
  - destruct (String.eqb_spec (Sitename og) ""); [now left | right].
    assert (E : Sitename metadata = Sitename og).
    { apply (Hscan Sitename); auto. intros st node. apply metaTagStep_keeps. }
    fields. assert (Hne : isEmpty (Sitename metadata) = false)
      by (apply isEmpty_false; now rewrite E).
    rewrite Hne. cbn [andb]. exact E.
Qed.

Lemma mergeJsonLd_kept (metadata originalMetadata : Metadata) :
  Hostname (mergeJsonLd metadata originalMetadata) = Hostname originalMetadata
  /\ Date (mergeJsonLd metadata originalMetadata) = Date originalMetadata
  /\ Description (mergeJsonLd metadata originalMetadata)
     = Description originalMetadata
  /\ Tags (mergeJsonLd metadata originalMetadata) = Tags originalMetadata.
Proof.
  unfold mergeJsonLd. repeat split; push_field Hostname; push_field Date;
    push_field Description; push_field Tags; reflexivity.
Qed.

Lemma mergeJsonLd_Title (metadata originalMetadata : Metadata) :
  Title (mergeJsonLd metadata originalMetadata) =
  strOr (Title originalMetadata) (Title metadata).
Proof.
  unfold mergeJsonLd, strOr. push_field Title.
  destruct (isEmpty (Title originalMetadata)); reflexivity.
Qed.

Lemma mergeJsonLd_Categories (metadata originalMetadata : Metadata) :
  Categories (mergeJsonLd metadata originalMetadata) =
  if noneOf (Categories metadata) then Categories originalMetadata
  else Categories metadata.
Proof.
  unfold mergeJsonLd. push_field Categories.
  destruct (noneOf (Categories metadata)); reflexivity.
Qed.

End Fields.

Section Pipeline.

Context (lib : GoLib).

Lemma collectMetadata_fields (doc : Node) (defaultURL : option Url) :
  let m0 := extractJsonLd doc (processMetaTags doc) in
  let c := collectMetadata doc defaultURL in
  Title c = strOr (Title m0) (extractDomTitle doc) /\
  Description c = Description m0 /\
  Date c = Date m0 /\
  Tags c = Tags m0 /\
  Categories c = Categories m0 /\
  Hostname c = (if nonEmpty (URL c) then extractDomainURL (URL c)
                else Hostname m0).
Proof.
  intros m0 c. subst c. unfold collectMetadata. fold m0. clearbody m0.
  cbv zeta. unfold strOr.
  repeat split.
  - push_field Title. destruct (isEmpty (Title m0)); reflexivity.
  - push_field Description. reflexivity.
  - push_field Date. reflexivity.
  - push_field Tags. reflexivity.
  - push_field Categories. reflexivity.
  - push_field Hostname. push_field URL.
    destruct (isEmpty (URL m0)); fields;
      match goal with
      | |- context [if ?b then _ else _] => destruct b
      end; reflexivity.
Qed.

Lemma extractMetadata_same (doc : Node) (defaultURL : option Url) :
  let c := collectMetadata doc defaultURL in
  let m := extractMetadata doc defaultURL in
  Title m = Title c /\ Description m = Description c /\ Date m = Date c /\
  Hostname m = Hostname c.
Proof.
  intros c m. subst m. unfold extractMetadata. fold c. clearbody c.
  set (m1 := if nonEmpty (Sitename c) then _ else _).
  assert (H1 : Title m1 = Title c /\ Description m1 = Description c /\
               Date m1 = Date c /\ Hostname m1 = Hostname c).
  { subst m1. destruct (nonEmpty (Sitename c)); [repeat split|].
    destruct (nonEmpty (URL c)); [|repeat split].
    destruct (FindStringSubmatch rxSitenameFinder2 (URL c)) as [|x [|y l]];
      repeat split. }
  destruct H1 as (H1 & H2 & H3 & H4). clearbody m1. cbv zeta.
  repeat split.
  - push_field Title. exact H1.
  - push_field Description. exact H2.
  - push_field Date. exact H3.
  - push_field Hostname. exact H4.
Qed.

Lemma cleanCatTags_nil : cleanCatTags [] = [].
Proof. reflexivity. Qed.

Lemma clean_if_any (l : list string) :
  (if negb (noneOf l) then cleanCatTags l else l) = cleanCatTags l.
Proof. destruct l; reflexivity. Qed.

Lemma extractMetadata_lists (doc : Node) (defaultURL : option Url) :
  let c := collectMetadata doc defaultURL in
  let m := extractMetadata doc defaultURL in
  Tags m = cleanCatTags (if noneOf (Tags c) then extractDomTags doc
                         else Tags c) /\
  Categories m = cleanCatTags (if noneOf (Categories c)
                               then extractDomCategories doc
                               else Categories c).
Proof.
  intros c m. subst m. unfold extractMetadata. fold c. clearbody c.
  set (m1 := if nonEmpty (Sitename c) then _ else _).
  assert (H1 : Tags m1 = Tags c /\ Categories m1 = Categories c).
  { subst m1. destruct (nonEmpty (Sitename c)); [split; reflexivity|].
    destruct (nonEmpty (URL c)); [|split; reflexivity].
    destruct (FindStringSubmatch rxSitenameFinder2 (URL c)) as [|x [|y l]];
      split; reflexivity. }
  destruct H1 as [Ht Hc]. clearbody m1. cbv zeta. split.
  - push_field Tags. rewrite Ht.
    destruct (noneOf (Tags c)); fields; apply clean_if_any.
  - push_field Categories. rewrite Hc.
    destruct (noneOf (Categories c)); fields; apply clean_if_any.
Qed.

End Pipeline.

(** X1: the title of the returned record is the first non-empty one of the
    title of the meta tags (OpenGraph included), the title of JSON-LD and
    the title of the DOM. *)
Theorem title_precedence (lib : GoLib) (doc : Node) (defaultURL : option Url) :
  Title (extractMetadata doc defaultURL) =
  strOr (Title (processMetaTags doc))
    (strOr (Title (jsonLdMetadata doc)) (extractDomTitle doc)).
Proof.
  destruct (extractMetadata_same lib doc defaultURL) as (E & _).
  destruct (collectMetadata_fields lib doc defaultURL) as (E' & _).
  rewrite E, E'. unfold extractJsonLd. rewrite mergeJsonLd_Title.
  unfold strOr. destruct (isEmpty (Title (processMetaTags doc))) eqn:H.
  - reflexivity.
  - now rewrite H.
Qed.

(** X2: the author of the returned record is the first non-empty one of
    the author of JSON-LD, the author that [processMetaTags] returns and
    the author of the DOM: JSON-LD overrides the meta tags.  The author of
    [processMetaTags] is the one of the scan of the meta tags, or the
    OpenGraph author as it stands when the OpenGraph pass has filled all
    five fields. *)
Theorem author_precedence (lib : GoLib) (doc : Node)
    (defaultURL : option Url) :
  Author (extractMetadata doc defaultURL) =
  strOr (Author (jsonLdMetadata doc))
    (strOr (Author (processMetaTags doc)) (extractDomAuthor doc)).
Proof.
  rewrite extractMetadata_Author, collectMetadata_Author. cbv zeta.
  unfold extractJsonLd. rewrite mergeJsonLd_Author. unfold strOr.
  destruct (isEmpty (Author (jsonLdMetadata doc))) eqn:H.
  - reflexivity.
  - now rewrite H.
Qed.

(** X3: the description comes from the meta tags alone: neither JSON-LD nor
    the DOM changes it. *)
Theorem description_from_meta_tags (lib : GoLib) (doc : Node)
    (defaultURL : option Url) :
  Description (extractMetadata doc defaultURL) =
  Description (processMetaTags doc).
Proof.
  destruct (extractMetadata_same lib doc defaultURL) as (_ & E & _).
  destruct (collectMetadata_fields lib doc defaultURL) as (_ & E' & _).
  rewrite E, E'. unfold extractJsonLd.
  now destruct (mergeJsonLd_kept (jsonLdMetadata doc) (processMetaTags doc))
    as (_ & _ & -> & _).
Qed.

(** X4: the host name is the domain of the returned URL, and it is empty
    when the URL is empty. *)
Theorem hostname_from_url (lib : GoLib) (doc : Node)
    (defaultURL : option Url) :
  Hostname (extractMetadata doc defaultURL) =
  if nonEmpty (URL (extractMetadata doc defaultURL))
  then extractDomainURL (URL (extractMetadata doc defaultURL))
  else "".
Proof.
  destruct (extractMetadata_same lib doc defaultURL) as (_ & _ & _ & E).
  destruct (collectMetadata_fields lib doc defaultURL)
    as (_ & _ & _ & _ & _ & E').
  rewrite E, E', extractMetadata_URL. unfold extractJsonLd.
  destruct (mergeJsonLd_kept (jsonLdMetadata doc) (processMetaTags doc))
    as (-> & _).
  now destruct (processMetaTags_untouched lib doc) as (-> & _).
Qed.

(** X5: no stage sets the date: it is empty in every returned record. *)
Theorem date_never_set (lib : GoLib) (doc : Node) (defaultURL : option Url) :
  Date (extractMetadata doc defaultURL) = "".
Proof.
  destruct (extractMetadata_same lib doc defaultURL) as (_ & _ & E & _).
  destruct (collectMetadata_fields lib doc defaultURL) as (_ & _ & E' & _).
  rewrite E, E'. unfold extractJsonLd.
  destruct (mergeJsonLd_kept (jsonLdMetadata doc) (processMetaTags doc))
    as (_ & -> & _).
  now destruct (processMetaTags_untouched lib doc) as (_ & -> & _).
Qed.

(** X6: the tags are the cleaned tags of the meta tags when the scan found
    any, and otherwise the cleaned tags of the DOM; JSON-LD has no part in
    them. *)
Theorem tags_source (lib : GoLib) (doc : Node) (defaultURL : option Url) :
  Tags (extractMetadata doc defaultURL) =
  cleanCatTags (if noneOf (Tags (processMetaTags doc))
                then extractDomTags doc
                else Tags (processMetaTags doc)).
Proof.
  destruct (extractMetadata_lists lib doc defaultURL) as (E & _).
  destruct (collectMetadata_fields lib doc defaultURL)
    as (_ & _ & _ & E' & _).
  rewrite E, E'. unfold extractJsonLd.
  now destruct (mergeJsonLd_kept (jsonLdMetadata doc) (processMetaTags doc))
    as (_ & _ & _ & ->).
Qed.

(** X7: the categories are the cleaned categories of JSON-LD when it has
    any entry, and otherwise the cleaned categories of the DOM; the scan of
    the meta tags yields none. *)
Theorem categories_source (lib : GoLib) (doc : Node)
    (defaultURL : option Url) :
  Categories (extractMetadata doc defaultURL) =
  cleanCatTags (if noneOf (Categories (jsonLdMetadata doc))
                then extractDomCategories doc
                else Categories (jsonLdMetadata doc)).
Proof.
  destruct (extractMetadata_lists lib doc defaultURL) as (_ & E).
  destruct (collectMetadata_fields lib doc defaultURL)
    as (_ & _ & _ & _ & E' & _).
  rewrite E, E'. unfold extractJsonLd. rewrite mergeJsonLd_Categories.
  destruct (processMetaTags_untouched lib doc) as (_ & _ & ->).
  destruct (noneOf (Categories (jsonLdMetadata doc))) eqn:H.
  - reflexivity.
  - rewrite H. reflexivity.
Qed.

Lemma collectMetadata_URL_source (lib : GoLib) (doc : Node)
    (defaultURL : option Url) :
  URL (collectMetadata doc defaultURL) =
  if isEmpty (URL (processMetaTags doc)) then extractDomURL doc defaultURL
  else URL (processMetaTags doc).
Proof.
  unfold collectMetadata.
  assert (E : URL (extractJsonLd doc (processMetaTags doc))
              = URL (processMetaTags doc)) by apply mergeJsonLd_URL.
  revert E. generalize (extractJsonLd doc (processMetaTags doc)) as m0.
  intros m0 E. cbv zeta. push_field URL. rewrite E.
  destruct (isEmpty (URL (processMetaTags doc))); reflexivity.
Qed.

(** X8: a title, a description or a URL that OpenGraph sets is the one of
    the returned record. *)
Theorem openGraph_values_kept (lib : GoLib) (doc : Node)
    (defaultURL : option Url) :
  let og := extractOpenGraphMeta doc in
  let m := extractMetadata doc defaultURL in
  (Title og = "" \/ Title m = Title og) /\
  (Description og = "" \/ Description m = Description og) /\
  (URL og = "" \/ URL m = URL og).
Proof.
  intros og m.
  destruct (processMetaTags_keeps lib doc) as (Ht & Hd & Hu & _).
  fold og in Ht, Hd, Hu. subst m. repeat split.
  - destruct (String.eqb_spec (Title og) "") as [E0|E0]; [now left | right].
    destruct Ht as [Ht|Ht]; [contradiction|].
    destruct (extractMetadata_same lib doc defaultURL) as (E & _).
    destruct (collectMetadata_fields lib doc defaultURL) as (E' & _).
    rewrite E, E'. unfold extractJsonLd. rewrite mergeJsonLd_Title, Ht.
    rewrite (strOr_nonempty (Title og) _ E0).
    now apply strOr_nonempty.
  - destruct Hd as [Hd|Hd]; [now left | right].
    destruct (extractMetadata_same lib doc defaultURL) as (_ & E & _).
    destruct (collectMetadata_fields lib doc defaultURL) as (_ & E' & _).
    rewrite E, E'. unfold extractJsonLd.
    destruct (mergeJsonLd_kept (jsonLdMetadata doc) (processMetaTags doc))
      as (_ & _ & -> & _). exact Hd.
  - destruct (String.eqb_spec (URL og) "") as [E0|E0]; [now left | right].
    destruct Hu as [Hu|Hu]; [contradiction|].
    rewrite extractMetadata_URL, collectMetadata_URL_source, Hu.
    apply isEmpty_false in E0. now rewrite E0.
Qed.

(** ** Searches that find nothing *)

(** A rune that starts with a byte of 128 or more is not an ASCII
    character. *)
Lemma decode_nonascii (c0 : ascii) (s1 : string) (x : Z) (w : nat) :
  Utf8.DecodeRuneInString (String c0 s1) = Some (x, w) ->
  (128 <= Utf8.byte c0)%Z -> (128 <= x)%Z.
Proof.
  unfold Utf8.DecodeRuneInString. cbv zeta. intros H Hge.
  destruct (Utf8.byte c0 <? 128)%Z eqn:E0; [apply Z.ltb_lt in E0; lia|].
  revert H.
  repeat match goal with
         | |- context [match ?s with EmptyString => _ | String _ _ => _ end] =>
             is_var s; destruct s
         | |- context [if ?b then _ else _] => destruct b eqn:?
         end;
    intro H; injection H as <- <-;
    unfold Utf8.RuneError, Utf8.cont, Utf8.between in *; split_andb;
    repeat match goal with
           | H : context [if ?b then _ else _] |- _ => destruct b eqn:?
           end;
    try lia.
Qed.

Lemma decode_ascii_rune (c0 : ascii) (s1 : string) (x : Z) (w : nat) :
  Utf8.DecodeRuneInString (String c0 s1) = Some (x, w) ->
  (x < 128)%Z -> x = Utf8.byte c0.
Proof.
  intros H Hx.
  destruct (decode_shape c0 s1) as (x' & w' & Hdec & _ & Hascii & _).
  rewrite Hdec in H. injection H as -> ->.
  destruct (Z.lt_ge_cases (Utf8.byte c0) 128) as [Hlt|Hge].
  - now apply Hascii.
  - pose proof (decode_nonascii c0 s1 x w Hdec Hge). lia.
Qed.

Lemma bytes_drop (n : nat) (s : string) (c : ascii) :
  In c (bytes (Slice.drop n s)) -> In c (bytes s).
Proof.
  intro H. rewrite (bytes_take_drop n s). apply in_or_app. now right.
Qed.

(** When an expression matches nowhere in a text and in its suffixes, the
    search finds nothing. *)
Lemma searchFuel_fails (r : Regexp.regex) (P : string -> Prop) :
  (forall pos s, P s -> Regexp.matchAt r pos s = None) ->
  (forall w s, P s -> P (Slice.drop w s)) ->
  forall fuel pos s, P s -> Regexp.searchFuel fuel r pos s = None.
Proof.
  intros Hm Hdrop. induction fuel as [|fuel IH]; intros pos s HP.
  - rewrite searchFuel_O, Hm; auto.
  - rewrite searchFuel_S, Hm by exact HP.
    destruct (Utf8.DecodeRuneInString s) as [[x w]|]; auto.
Qed.

(** A class of ASCII characters matches nowhere in a text without them. *)
Lemma matchAt_class_none (p : Z -> bool) (pos : nat) (s : string) :
  (forall x, p x = true -> (x < 128)%Z) ->
  (forall c, In c (bytes s) -> p (Utf8.byte c) = false) ->
  Regexp.matchAt (Regexp.Class p) pos s = None.
Proof.
  intros Hascii Hs. unfold Regexp.matchAt. rewrite run_Class.
  destruct s as [|c0 s1]; [reflexivity|].
  destruct (Utf8.DecodeRuneInString (String c0 s1)) as [[x w]|] eqn:Hdec;
    [|reflexivity].
  destruct (p x) eqn:Hp; [|reflexivity].
  rewrite (decode_ascii_rune c0 s1 x w Hdec (Hascii x Hp)) in Hp.
  rewrite Hs in Hp; [discriminate | now left].
Qed.

Lemma oneOf_rune_ascii (cs : string) (x : Z) :
  List.forallb (fun a => (Utf8.byte a <? 128)%Z) (bytes cs) = true ->
  Regexp.oneOf cs x = true -> (x < 128)%Z.
Proof.
  unfold Regexp.oneOf, bytes. intros Hall Hone.
  apply List.existsb_exists in Hone. destruct Hone as (a & Ha & Heq).
  rewrite List.forallb_forall in Hall. apply Hall in Ha.
  apply Z.eqb_eq in Heq. apply Z.ltb_lt in Ha.
  unfold Regexp.rune in Heq. lia.
Qed.

Lemma MatchString_class_none (cs : string) (s : string) :
  List.forallb (fun a => (Utf8.byte a <? 128)%Z) (bytes cs) = true ->
  (forall c, In c (bytes s) -> Regexp.oneOf cs (Utf8.byte c) = false) ->
  Regexp.MatchString (Regexp.Class (Regexp.oneOf cs)) s = false.
Proof.
  intros Hcs Hs. unfold Regexp.MatchString, Regexp.search.
  rewrite (searchFuel_fails (Regexp.Class (Regexp.oneOf cs))
             (fun t => forall c, In c (bytes t) ->
                                 Regexp.oneOf cs (Utf8.byte c) = false));
    [reflexivity | | | exact Hs].
  - intros pos t Ht. apply matchAt_class_none; [|exact Ht].
    intros x. now apply oneOf_rune_ascii.
  - intros w t Ht c Hc. apply Ht. now apply bytes_drop in Hc.
Qed.

(** ** The check of an author *)

Lemma byte_inj (a b : ascii) : Utf8.byte a = Utf8.byte b -> a = b.
Proof.
  unfold Utf8.byte. intro H. apply Nat2Z.inj in H.
  rewrite <- (ascii_nat_embedding a), <- (ascii_nat_embedding b).
  now rewrite H.
Qed.

Lemma oneOf_member (cs : string) (c : ascii) :
  Regexp.oneOf cs (Utf8.byte c) = true -> In c (bytes cs).
Proof.
  unfold Regexp.oneOf, bytes, Regexp.rune. intro H.
  apply List.existsb_exists in H. destruct H as (a & Ha & Heq).
  apply Z.eqb_eq in Heq. apply byte_inj in Heq. now subst.
Qed.

Lemma validAuthor_accepted (author : string) :
  validAuthor author -> validateMetadataAuthor author = author.
Proof.
  intros (Hsp & Hpre & H1 & H2 & H3). unfold validateMetadataAuthor.
  destruct (isEmpty author); [reflexivity|].
  rewrite Hsp, Hpre. cbn [negb orb]. unfold rxJsonSymbol.
  rewrite (MatchString_class_none "{\}" author eq_refl); [reflexivity|].
  intros c Hc. destruct (Regexp.oneOf "{\}" (Utf8.byte c)) eqn:E;
    [exfalso | reflexivity].
  apply oneOf_member in E. apply Contains_char_false in H1, H2, H3.
  destruct E as [<-|[<-|[<-|[]]]]; contradiction.
Qed.

(** X9: [validateMetadataAuthor] returns its argument or the empty string,
    never another name; it returns its argument exactly when the argument
    is empty or has a space, no leading [http] and no JSON symbol; and it is
    idempotent. *)
Theorem validateMetadataAuthor_accepts (author : string) :
  (validateMetadataAuthor author = author \/
   validateMetadataAuthor author = "") /\
  (validateMetadataAuthor author = author <->
   author = "" \/ validAuthor author) /\
  validateMetadataAuthor (validateMetadataAuthor author) =
    validateMetadataAuthor author.
Proof.
  assert (H1 : validateMetadataAuthor author = author \/
               validateMetadataAuthor author = "").
  { unfold validateMetadataAuthor. repeat break_if; auto. }
  split; [exact H1|]. split.
  - split.
    + intro E. pose proof (validateMetadataAuthor_valid author) as H.
      rewrite E in H. exact H.
    + intros [->|H]; [reflexivity | now apply validAuthor_accepted].
  - destruct H1 as [E|E]; rewrite E; [exact E | reflexivity].
Qed.

(** ** Entries that are already clean *)

(** A successful run has gone through its continuation on a suffix of the
    text. *)
Lemma run_exit_suffix (r : Regexp.regex) :
  forall pos s c k res,
    Regexp.run r pos s c k = Some res ->
    exists pos' c',
      pos <= pos' /\ k pos' (Slice.drop (pos' - pos) s) c' = Some res.
Proof.
  induction r as [|p|r1 IH1 r2 IH2|r1 IH1 r2 IH2|greedy r1 IH1|i r1 IH1| |];
    intros pos s c k res H.
  - exists pos, c. rewrite Nat.sub_diag. auto.
  - rewrite run_Class in H.
    destruct (Utf8.DecodeRuneInString s) as [[x w]|]; [|discriminate].
    destruct (p x); [|discriminate].
    exists (pos + w), c. replace (pos + w - pos) with w by lia.
    split; [lia | exact H].
  - rewrite run_Cat in H. apply IH1 in H.
    destruct H as (pos1 & c1 & Hle & H). apply IH2 in H.
    destruct H as (pos2 & c2 & Hle2 & H).
    exists pos2, c2. split; [lia|].
    rewrite drop_drop in H.
    now replace (pos1 - pos + (pos2 - pos1)) with (pos2 - pos) in H by lia.
  - cbn [Regexp.run] in H.
    destruct (Regexp.run r1 pos s c k) eqn:E.
    + injection H as <-. now apply IH1 in E.
    + now apply IH2 in H.
  - rewrite run_Star in H.
    remember (S (String.length s)) as n eqn:En. clear En.
    revert pos s c res H.
    induction n as [|n IHn]; intros pos s c res H.
    + exists pos, c. rewrite Nat.sub_diag. auto.
    + rewrite starLoop_S in H. cbv zeta in H.
      assert (Hag : forall res',
                 Regexp.run r1 pos s c
                   (fun pos' s' c' =>
                      if (pos <? pos')%nat
                      then Regexp.starLoop greedy r1 k n pos' s' c'
                      else None) = Some res' ->
                 exists pos' c',
                   pos <= pos' /\
                   k pos' (Slice.drop (pos' - pos) s) c' = Some res').
      { intros res' Hr. apply IH1 in Hr.
        destruct Hr as (pos1 & c1 & Hle & Hr).
        destruct (pos <? pos1)%nat; [|discriminate].
        apply IHn in Hr. destruct Hr as (pos2 & c2 & Hle2 & Hr).
        exists pos2, c2. split; [lia|].
        rewrite drop_drop in Hr.
        now replace (pos1 - pos + (pos2 - pos1)) with (pos2 - pos) in Hr
          by lia. }
      destruct greedy.
      * match type of H with
        | match ?x with _ => _ end = _ => destruct x eqn:E
        end.
        -- injection H as <-. now apply Hag.
        -- exists pos, c. rewrite Nat.sub_diag. auto.
      * destruct (k pos s c) eqn:E.
        -- injection H as <-. exists pos, c. rewrite Nat.sub_diag. auto.
        -- now apply Hag.
  - cbn [Regexp.run] in H. apply IH1 in H.
    destruct H as (pos1 & c1 & Hle & H).
    exists pos1, ((i, (pos, pos1)) :: c1). auto.
  - cbn [Regexp.run] in H. destruct (pos =? 0)%nat; [|discriminate].
    exists pos, c. rewrite Nat.sub_diag. auto.
  - cbn [Regexp.run] in H. destruct s; [|discriminate].
    exists pos, c. rewrite Nat.sub_diag. auto.
Qed.

(** What a class has matched is a character of the text. *)
Lemma run_Class_char (cs : string) (pos : nat) (s : string)
    (c : Regexp.captures) k res :
  List.forallb (fun a => (Utf8.byte a <? 128)%Z) (bytes cs) = true ->
  Regexp.run (Regexp.Class (Regexp.oneOf cs)) pos s c k = Some res ->
  exists a, In a (bytes s) /\ In a (bytes cs).
Proof.
  intros Hcs H. rewrite run_Class in H.
  destruct s as [|c0 s1]; [discriminate|].
  destruct (Utf8.DecodeRuneInString (String c0 s1)) as [[x w]|] eqn:Hdec;
    [|discriminate].
  destruct (Regexp.oneOf cs x) eqn:Hp; [|discriminate].
  pose proof (decode_ascii_rune c0 s1 x w Hdec (oneOf_rune_ascii cs x Hcs Hp))
    as Hx.
  rewrite Hx in Hp. exists c0. split; [now left | now apply oneOf_member].
Qed.

Lemma rxCommaSeparator_none (pos : nat) (s : string) :
  noSeparator s -> Regexp.matchAt rxCommaSeparator pos s = None.
Proof.
  intro Hs.
  destruct (Regexp.matchAt rxCommaSeparator pos s) as [res|] eqn:H;
    [exfalso | reflexivity].
  unfold Regexp.matchAt, rxCommaSeparator, ws in H. cbn [Regexp.seq] in H.
  rewrite run_Cat in H. apply run_exit_suffix in H.
  destruct H as (pos1 & c1 & _ & H). rewrite run_Cat in H.
  apply (run_Class_char ",;" _ _ _ _ _ eq_refl) in H.
  destruct H as (a & Ha & Hsep). apply bytes_drop in Ha. apply Hs in Ha.
  unfold isSeparator, Regexp.oneOf in Ha.
  destruct Hsep as [<-|[<-|[]]]; discriminate.
Qed.

(** An entry without separator is not split. *)
Lemma Split_whole (entry : string) :
  noSeparator entry -> Regexp.Split rxCommaSeparator entry = [entry].
Proof.
  intro Hs. unfold Regexp.Split. destruct entry as [|a entry]; [reflexivity|].
  unfold Regexp.FindAllStringIndex.
  destruct (2 * String.length (String a entry) + 2) as [|fuel] eqn:E;
    [lia|].
  cbn [Regexp.allMatches]. unfold Regexp.search.
  rewrite (searchFuel_fails rxCommaSeparator noSeparator);
    [reflexivity | | | exact Hs].
  - intros pos s. apply rxCommaSeparator_none.
  - intros w s H c Hc. apply H. now apply bytes_drop in Hc.
Qed.

Lemma cleanEntry_noSeparator (e : string) : cleanEntry e -> noSeparator e.
Proof.
  intros (_ & _ & _ & H1 & H2) c Hc.
  destruct (isSeparator c) eqn:E; [exfalso | reflexivity].
  apply oneOf_member in E. apply Contains_char_false in H1, H2.
  destruct E as [<-|[<-|[]]]; contradiction.
Qed.

Lemma cleanCatTags_fixed (l : list string) :
  List.Forall cleanEntry l -> cleanCatTags l = l.
Proof.
  unfold cleanCatTags. induction 1 as [|e l He Hl IH]; [reflexivity|].
  cbn [List.flat_map]. rewrite IH.
  rewrite (Split_whole e (cleanEntry_noSeparator e He)).
  destruct He as (Hne & Hnorm & _). cbn [List.map List.filter].
  rewrite Hnorm. apply nonEmpty_true in Hne. rewrite Hne. reflexivity.
Qed.

(** X10: [cleanCatTags] leaves a list as it is exactly when every entry is
    clean, and so it is idempotent. *)
Theorem cleanCatTags_idempotent (catTags : list string) :
  (cleanCatTags catTags = catTags <-> List.Forall cleanEntry catTags) /\
  cleanCatTags (cleanCatTags catTags) = cleanCatTags catTags.
Proof.
  split.
  - split.
    + intro E. rewrite <- E. apply cleanCatTags_clean.
    + apply cleanCatTags_fixed.
  - apply cleanCatTags_fixed, cleanCatTags_clean.
Qed.

(** ** The check of a link *)

Lemma run_Alt (r1 r2 : Regexp.regex) pos s c k :
  Regexp.run (Regexp.Alt r1 r2) pos s c k =
  match Regexp.run r1 pos s c k with
  | Some m => Some m
  | None => Regexp.run r2 pos s c k
  end.
Proof. reflexivity. Qed.

Lemma run_Class_byte (p : Z -> bool) (pos : nat) (s : string)
    (c : Regexp.captures) k res :
  (forall x, p x = true -> (x < 128)%Z) ->
  Regexp.run (Regexp.Class p) pos s c k = Some res ->
  exists a, In a (bytes s) /\ p (Utf8.byte a) = true.
Proof.
  intros Hascii H. rewrite run_Class in H.
  destruct s as [|c0 s1]; [discriminate|].
  destruct (Utf8.DecodeRuneInString (String c0 s1)) as [[x w]|] eqn:Hdec;
    [|discriminate].
  destruct (p x) eqn:Hp; [|discriminate].
  rewrite (decode_ascii_rune c0 s1 x w Hdec (Hascii x Hp)) in Hp.
  exists c0. split; [now left | exact Hp].
Qed.

Lemma slash_ascii (c : ascii) :
  Ascii.eqb c "/" = true -> (Utf8.byte c < 128)%Z.
Proof. intro H. apply Ascii.eqb_eq in H. subst c. reflexivity. Qed.

Lemma slash_rune (x : Z) :
  (Regexp.rune "/" =? x)%Z = true -> (x < 128)%Z.
Proof. intro H. apply Z.eqb_eq in H. subst x. reflexivity. Qed.

Lemma slash_byte (a : ascii) :
  (Regexp.rune "/" =? Utf8.byte a)%Z = true -> a = "/"%char.
Proof.
  intro H. apply Z.eqb_eq in H. symmetry. now apply byte_inj.
Qed.

Lemma rxUrlCheck_none (pos : nat) (s : string) :
  noSlash s -> Regexp.matchAt rxUrlCheck pos s = None.
Proof.
  intro Hs. unfold Regexp.matchAt, rxUrlCheck. rewrite run_Alt.
  destruct (Regexp.run httpScheme pos s [] Regexp.accept) as [res|] eqn:H.
  - exfalso. unfold httpScheme in H. cbn [Regexp.seq Regexp.lit] in H.
    rewrite run_Cat in H. apply run_exit_suffix in H.
    destruct H as (pos1 & c1 & _ & H).
    rewrite run_Cat in H. apply run_exit_suffix in H.
    destruct H as (pos2 & c2 & _ & H).
    rewrite run_Cat in H. apply run_exit_suffix in H.
    destruct H as (pos3 & c3 & _ & H).
    rewrite run_Cat in H. unfold Regexp.chr in H.
    apply (run_Class_byte _ _ _ _ _ _ slash_rune) in H.
    destruct H as (a & Ha & Hp). apply slash_byte in Hp. subst a.
    do 3 apply bytes_drop in Ha. exact (Hs Ha).
  - change (Regexp.matchAt (Regexp.chr "/") pos s = None).
    apply matchAt_class_none; [exact slash_rune|].
    intros c Hc. destruct (Regexp.rune "/" =? Utf8.byte c)%Z eqn:E;
      [|reflexivity].
    apply slash_byte in E. subst c. now elim Hs.
Qed.

Lemma rxUrlCheck_at_slash (pos : nat) (c0 : ascii) (s1 : string) :
  Ascii.eqb c0 "/" = true ->
  Regexp.matchAt rxUrlCheck pos (String c0 s1) <> None.
Proof.
  intro H. apply Ascii.eqb_eq in H. subst c0.
  unfold Regexp.matchAt, rxUrlCheck. rewrite run_Alt.
  destruct (Regexp.run httpScheme pos _ [] Regexp.accept);
    [discriminate|].
  change (Regexp.matchAt (Regexp.chr "/") pos (String "/" s1) <> None).
  now apply matchAt_class.
Qed.

(** X11: [rxUrlCheck] accepts exactly the strings that contain a slash: its
    first alternative is subsumed by the second, and the expression is not
    anchored. *)
Theorem rxUrlCheck_is_slash (href : string) :
  Regexp.MatchString rxUrlCheck href = Strings.Contains href "/".
Proof.
  destruct (Strings.Contains href "/") eqn:E.
  - apply Contains_char in E.
    unfold Regexp.MatchString, Regexp.search.
    destruct (Regexp.searchFuel _ _ _ _) eqn:Hs; [reflexivity | exfalso].
    pose proof (searchFuel_none rxUrlCheck (fun c => Ascii.eqb c "/")) as Hnone.
    specialize (Hnone slash_ascii
      rxUrlCheck_at_slash (String.length href) 0 href (le_n _) Hs "/"%char E).
    discriminate.
  - apply Contains_char_false in E.
    unfold Regexp.MatchString, Regexp.search.
    rewrite (searchFuel_fails rxUrlCheck noSlash);
      [reflexivity | | | exact E].
    + intros pos s. apply rxUrlCheck_none.
    + intros w s H Hc. apply H. now apply bytes_drop in Hc.
Qed.

(** ** Scripts that do not decode *)

Lemma scriptLoop_undecodable (lib : GoLib) (scripts : list Node)
    (metadata : Metadata) :
  (forall script, In script scripts ->
     json_Decode (Strings.TrimSpace (Dom.TextContent script)) = None) ->
  scriptLoop metadata scripts = metadata.
Proof.
  induction scripts as [|script scripts IH]; intro H; [reflexivity|].
  cbn [scriptLoop].
  assert (E : scriptStep metadata script = None).
  { unfold scriptStep, unmarshalObject.
    rewrite (H script (or_introl eq_refl)). now destruct (isEmpty _). }
  rewrite E. apply IH. intros s Hs. apply H. now right.
Qed.

Lemma mergeJsonLd_zero (originalMetadata : Metadata) :
  mergeJsonLd zeroMetadata originalMetadata = originalMetadata.
Proof.
  destruct originalMetadata as [t a u h d s dt c tg].
  assert (E : forall n, (n <? Utf8.RuneCountInString "")%nat = false)
    by (intro n; apply Nat.ltb_ge; apply Nat.le_0_l).
  unfold mergeJsonLd, zeroMetadata. fields. cbn [noneOf negb].
  rewrite E. fields.
  destruct (isEmpty t) eqn:Et; [apply isEmpty_true in Et; subst t|];
    reflexivity.
Qed.

(** X12: when no JSON-LD script of the page decodes, which includes a page
    without such a script, [extractJsonLd] returns the record of the meta
    tags as it is. *)
Theorem extractJsonLd_undecodable
    (lib : GoLib) (doc : Node) (originalMetadata : Metadata) :
  (forall script, In script (scriptNodes doc) ->
     json_Decode (Strings.TrimSpace (Dom.TextContent script)) = None) ->
  extractJsonLd doc originalMetadata = originalMetadata.
Proof.
  intro H. unfold extractJsonLd, jsonLdMetadata.
  rewrite scriptLoop_undecodable by exact H. apply mergeJsonLd_zero.
Qed.

Lemma extractJsonLd_undecodable_witness :
  let page :=
    Page.html [Page.meta "name" "author" "Jenny Smith";
               Page.ldJson "{ headline: not JSON"] [] in
  extractJsonLd (lib := Ref.lib) page (processMetaTags (lib := Ref.lib) page)
  = processMetaTags (lib := Ref.lib) page.
Proof.
  intro page. apply (extractJsonLd_undecodable Ref.lib page).
  intros script [<-|[]]. reflexivity.
Defined.

(** The text of a script between two no-break spaces U+00A0 is trimmed and
    decoded. *)
Example jsonLd_unicode_space_trimmed :
  let nbsp := String (ascii_of_nat 194) (String (ascii_of_nat 160) "") in
  let text :=
    Page.object [("@type", Page.quoted "NewsArticle");
                 ("author", Page.quoted "Jane Doe")] in
  Strings.TrimSpace (nbsp ++ text ++ nbsp) = text /\
  Author (Page.run (Page.html [Page.ldJson (nbsp ++ text ++ nbsp)] []))
    = "Jane Doe".
Proof. split; reflexivity. Qed.

(** ** The objects of a JSON-LD graph *)

Lemma JSON_nested_ind (P : JSON -> Prop) :
  P JNull -> (forall b, P (JBool b)) -> (forall n, P (JNumber n)) ->
  (forall s, P (JString s)) ->
  (forall items, List.Forall P items -> P (JArray items)) ->
  (forall fields, List.Forall (fun kv => P (snd kv)) fields ->
                  P (JObject fields)) ->
  forall v, P v.
Proof.
  intros Hnull Hbool Hnum Hstr Harr Hobj.
  fix F 1. intros [| b | n | s | items | fields].
  - exact Hnull.
  - apply Hbool.
  - apply Hnum.
  - apply Hstr.
  - apply Harr. induction items as [|x items IH]; constructor; [apply F | exact IH].
  - apply Hobj. induction fields as [|[k x] fields IH]; constructor;
      [apply F | exact IH].
Qed.

Lemma mapRange_incl (lib : GoLib) (A : Type) (m : list (string * A))
    (x : string * A) :
  In x (mapRange m) -> In x m.
Proof.
  unfold mapRange. intro H. apply List.in_flat_map in H.
  destruct H as (i & _ & H).
  destruct (List.nth_error m i) as [kv|] eqn:E; [|destruct H].
  destruct H as [<-|[]]. now apply List.nth_error_In in E.
Qed.

Lemma collect_kindsOk (l : list found) :
  List.Forall kindsOk l -> kindsOk (collect l).
Proof.
  intro H. unfold collect, kindsOk. cbn [fst snd].
  split; apply List.Forall_flat_map; eapply List.Forall_impl; try exact H;
    intros f [H1 H2]; assumption.
Qed.

Lemma kindsOk_nil : kindsOk ([], []).
Proof. split; constructor. Qed.

Lemma prefix_app (sub s : string) :
  String.prefix sub s = true -> exists after, s = (sub ++ after)%string.
Proof.
  revert s. induction sub as [|a sub IH]; intros s H.
  - exists s. reflexivity.
  - destruct s as [|b s]; [discriminate|].
    rewrite prefix_cons in H. apply andb_prop in H. destruct H as [Hab H].
    apply Ascii.eqb_eq in Hab. subst b.
    destruct (IH s H) as (after & ->). exists after. reflexivity.
Qed.

Lemma Contains_occursIn (s sub : string) :
  Strings.Contains s sub = true -> occursIn sub s.
Proof.
  induction s as [|a s IH]; cbn [Strings.Contains]; intro H.
  - rewrite orb_false_r in H. apply prefix_app in H.
    destruct H as (after & ->). exists "", after. reflexivity.
  - apply orb_prop in H. destruct H as [H|H].
    + apply prefix_app in H. destruct H as (after & ->).
      exists "", after. reflexivity.
    + destruct (IH H) as (before & after & ->).
      exists (String a before), after. reflexivity.
Qed.

Lemma mapGet_In (o : jsonObject) (k : string) (v : JSON) :
  mapGet o k = Some v -> In (k, v) o.
Proof.
  induction o as [|[k' v'] o IH]; cbn [mapGet]; [discriminate|].
  destruct (String.eqb_spec k' k) as [->|_].
  - intro H. injection H as ->. now left.
  - intro H. right. now apply IH.
Qed.

Lemma kindOf_article (lib : GoLib) (o : jsonObject) :
  kindOf o = IsArticle -> articleObject o.
Proof.
  unfold kindOf. destruct (mapGet o "@type") as [[| | |t| |]|] eqn:E;
    try discriminate.
  apply mapGet_In in E. intro H. exists t. split; [exact E|].
  destruct (Strings.Contains t "Article") eqn:H1.
  - left. now apply Contains_occursIn.
  - destruct (String.eqb_spec t "SocialMediaPosting") as [->|_]; [auto|].
    destruct (String.eqb_spec t "Report") as [->|_]; [auto|].
    cbn [orb] in H. destruct (String.eqb t "Person"); discriminate.
Qed.

Lemma kindOf_person (lib : GoLib) (o : jsonObject) :
  kindOf o = IsPerson -> personObject o.
Proof.
  unfold kindOf, personObject.
  destruct (mapGet o "@type") as [[| | |t| |]|] eqn:E; try discriminate.
  apply mapGet_In in E.
  destruct (_ || _ || _)%bool; [discriminate|].
  destruct (String.eqb_spec t "Person") as [->|_]; [auto | discriminate].
Qed.

(** X13: every object that [findImportantObjects] puts among the articles
    has under [@type] a string in which [Article] occurs, or the string
    [SocialMediaPosting] or [Report]; every object among the persons has
    under [@type] the string [Person]; whatever the order of the ranges. *)
Theorem findImportantObjects_kinds (lib : GoLib) (v : JSON) :
  kindsOk (findImportant v).
Proof.
  enough (H : kindsOk (findImportant v) /\
              match v with
              | JArray items =>
                  List.Forall (fun item => kindsOk (findImportant item)) items
              | _ => True
              end) by apply H.
  induction v as [| b | n | s | items IH | fields IH] using JSON_nested_ind;
    try (split; [apply kindsOk_nil | exact I]).
  - split; [apply kindsOk_nil|].
    eapply List.Forall_impl; [|exact IH]. now intros item [H _].
  - split; [|exact I]. cbn [findImportant].
    destruct (kindOf fields) eqn:K.
    + split; repeat constructor. now apply (kindOf_article lib).
    + split; repeat constructor. now apply (kindOf_person lib).
    + apply collect_kindsOk. apply List.Forall_forall. intros f Hf.
      apply List.in_map_iff in Hf. destruct Hf as ([k f'] & <- & Hf).
      apply mapRange_incl in Hf. apply List.in_map_iff in Hf.
      destruct Hf as ([k' value] & E & Hin). injection E as _ <-.
      rewrite List.Forall_forall in IH. specialize (IH _ Hin).
      cbn [fst snd] in *. destruct IH as [Hv Hitems].
      destruct value as [| b | n | s | items | fields'];
        try apply kindsOk_nil.
      * apply collect_kindsOk. apply List.Forall_forall. intros g Hg.
        apply List.in_map_iff in Hg. destruct Hg as (item & <- & Hitem).
        rewrite List.Forall_forall in Hitems. specialize (Hitems _ Hitem).
        destruct item; try apply kindsOk_nil. exact Hitems.
      * exact Hv.
Qed.

(** ** What the loop over the scripts keeps *)

Section ScratchRecord.

Context (lib : GoLib).

Lemma articleStep_keeps (metadata : Metadata) (article : jsonObject) :
  (Author metadata = "" \/
   Author (articleStep metadata article) = Author metadata) /\
  (Sitename metadata = "" \/
   Sitename (articleStep metadata article) = Sitename metadata) /\
  (Categories metadata = [] \/
   Categories (articleStep metadata article) = Categories metadata).
Proof.
  repeat split.
  - destruct (isEmpty (Author metadata)) eqn:E;
      [left; now apply isEmpty_true | right].
    now rewrite articleStep_Author, E.
  - destruct (isEmpty (Sitename metadata)) eqn:E;
      [left; now apply isEmpty_true | right].
    unfold articleStep.
    destruct (isEmpty (Author metadata)); fields; rewrite E; fields;
      repeat (first [ break_if | break_match ]; fields); reflexivity.
  - destruct (noneOf (Categories metadata)) eqn:E;
      [left; now apply noneOf_nil | right].
    unfold articleStep.
    destruct (isEmpty (Author metadata)); fields;
      destruct (isEmpty (Sitename metadata)); fields; rewrite E; fields;
      repeat (first [ break_if | break_match ]; fields); reflexivity.
Qed.

Lemma keeps_refl (m : Metadata) : keeps m m.
Proof. repeat split; now right. Qed.

Lemma keeps_trans (a b c : Metadata) : keeps a b -> keeps b c -> keeps a c.
Proof.
  intros (A1 & S1 & C1) (A2 & S2 & C2). repeat split.
  - destruct (String.eqb_spec (Author a) "") as [E|E]; [now left | right].
    destruct A1 as [A1|A1]; [contradiction|].
    destruct A2 as [A2|A2]; congruence.
  - destruct (String.eqb_spec (Sitename a) "") as [E|E]; [now left | right].
    destruct S1 as [S1|S1]; [contradiction|].
    destruct S2 as [S2|S2]; congruence.
  - destruct (Categories a) as [|x l] eqn:E; [now left | right].
    destruct C1 as [C1|C1]; [discriminate|].
    destruct C2 as [C2|C2]; congruence.
Qed.

Lemma articles_keep (articles : list jsonObject) :
  forall metadata, keeps metadata (List.fold_left articleStep articles metadata).
Proof.
  induction articles as [|a articles IH]; intro metadata; cbn [List.fold_left].
  - apply keeps_refl.
  - eapply keeps_trans; [apply articleStep_keeps | apply IH].
Qed.

Lemma scriptStep_keeps (metadata metadata' : Metadata) (script : Node) :
  scriptStep metadata script = Some metadata' -> keeps metadata metadata'.
Proof.
  unfold scriptStep. destruct (isEmpty _); [discriminate|].
  destruct (unmarshalObject _) as [data|]; [|discriminate].
  destruct (findImportantObjects data) as [articles persons].
  intro E. injection E as <-.
  eapply keeps_trans; [apply articles_keep|].
  set (m := List.fold_left articleStep articles metadata).
  destruct (isEmpty (Author m)) eqn:Ea; [|apply keeps_refl].
  destruct (personNames persons); [apply keeps_refl|].
  repeat split; fields; [left; now apply isEmpty_true | now right | now right].
Qed.

Lemma scriptLoop_keeps (scripts : list Node) :
  forall metadata, keeps metadata (scriptLoop metadata scripts).
Proof.
  induction scripts as [|script scripts IH]; intro metadata;
    cbn [scriptLoop]; [apply keeps_refl|].
  destruct (scriptStep metadata script) as [metadata'|] eqn:E; [|apply IH].
  apply scriptStep_keeps in E.
  destruct (allFound metadata'); [exact E|].
  eapply keeps_trans; [exact E | apply IH].
Qed.

End ScratchRecord.

(** X14: in the loop over the scripts and their articles, an author, a
    site name or a list of categories that has been found is never
    replaced: the first article that yields one decides. *)
Theorem jsonLd_first_found_kept
    (lib : GoLib) (scripts : list Node) (metadata : Metadata) :
  (Author metadata = "" \/
   Author (scriptLoop metadata scripts) = Author metadata) /\
  (Sitename metadata = "" \/
   Sitename (scriptLoop metadata scripts) = Sitename metadata) /\
  (Categories metadata = [] \/
   Categories (scriptLoop metadata scripts) = Categories metadata).
Proof. apply scriptLoop_keeps. Qed.

(** The title is not kept in this way: a title of one word is replaced by
    the headline of a later article. *)
Example one_word_title_replaced :
  let script :=
    Page.ldJson
      (Page.object
         [("@graph",
           "[" ++ Page.object [("@type", Page.quoted "Article");
                               ("name", Page.quoted "Hello")]
           ++ "," ++
           Page.object [("@type", Page.quoted "Article");
                        ("headline", Page.quoted "A longer headline")]
           ++ "]")]) in
  Title (Page.run (Page.html [script] [])) = "A longer headline".
Proof. reflexivity. Qed.

(** ** The text of a selector table *)

Lemma firstSome_found {A B : Type} (f : A -> option B) (l : list A) (b : B) :
  firstSome f l = Some b -> exists a, In a l /\ f a = Some b.
Proof.
  unfold firstSome. induction l as [|a l IH]; cbn [List.fold_right];
    [discriminate|].
  destruct (f a) as [b'|] eqn:E.
  - intro H. injection H as <-. exists a. split; [now left | exact E].
  - intro H. destruct (IH H) as (a' & Hin & Ha').
    exists a'. split; [now right | exact Ha'].
Qed.

Lemma firstSome_none {A B : Type} (f : A -> option B) (l : list A) :
  (forall a, In a l -> f a = None) -> firstSome f l = None.
Proof.
  unfold firstSome. induction l as [|a l IH]; intro H; cbn [List.fold_right];
    [reflexivity|].
  rewrite (H a (or_introl eq_refl)). apply IH. intros a' Ha'. apply H.
  now right.
Qed.

(** X15: the text that [extractDomMetaSelectors] returns is empty, or it is
    the normalized text of a node of one of the selectors, it is not empty
    and it has fewer runes than the limit. *)
Theorem extractDomMetaSelectors_bound
    (doc : Node) (limit : nat) (selectors : list Dom.Selector) :
  let text := extractDomMetaSelectors doc limit selectors in
  text = "" \/
  (Utf8.RuneCountInString text < limit /\
   strNormalize text = text /\
   exists selector node,
     In selector selectors /\
     In node (Dom.QuerySelectorAll doc selector) /\
     text = strNormalize (Dom.TextContent node)).
Proof.
  intro text. subst text. unfold extractDomMetaSelectors.
  destruct (firstSome _ selectors) as [text|] eqn:E; [right | now left].
  apply firstSome_found in E. destruct E as (selector & Hsel & E).
  apply firstSome_found in E. destruct E as (node & Hnode & E).
  destruct (nonEmpty (strNormalize (Dom.TextContent node))
            && (Utf8.RuneCountInString (strNormalize (Dom.TextContent node))
                <? limit)%nat)%bool eqn:C; [|discriminate].
  injection E as <-. apply andb_prop in C. destruct C as [_ C].
  apply Nat.ltb_lt in C. split; [exact C|].
  split; [apply strNormalize_idempotent|].
  exists selector, node. auto.
Qed.

(** ** A page without metadata *)

Lemma Node_nested_ind (P : Node -> Prop) :
  (forall cs, List.Forall P cs -> P (DocumentNode cs)) ->
  (forall d a cs, List.Forall P cs -> P (ElementNode d a cs)) ->
  (forall d, P (TextNode d)) -> (forall d, P (CommentNode d)) ->
  forall n, P n.
Proof.
  intros Hdoc Helem Htext Hcomment.
  fix F 1. intros [cs | d a cs | d | d].
  - apply Hdoc. induction cs as [|x cs IH]; constructor; [apply F | exact IH].
  - apply Helem. induction cs as [|x cs IH]; constructor; [apply F | exact IH].
  - apply Htext.
  - apply Hcomment.
Qed.

(** A narrower selector selects fewer nodes. *)
Lemma queryAll_incl (p q : Dom.Selector) :
  (forall anc n, p anc n = true -> q anc n = true) ->
  forall n anc x, In x (Dom.queryAll p anc n) -> In x (Dom.queryAll q anc n).
Proof.
  intro Hpq.
  assert (Hhere : forall anc n x,
             In x (if p anc n then [n] else []) ->
             In x (if q anc n then [n] else [])).
  { intros anc n x H. destruct (p anc n) eqn:E; [|destruct H].
    now rewrite (Hpq anc n E). }
  assert (Hkids : forall cs anc x,
             List.Forall (fun n => forall anc x, In x (Dom.queryAll p anc n) ->
                                                 In x (Dom.queryAll q anc n)) cs ->
             In x (List.flat_map (Dom.queryAll p anc) cs) ->
             In x (List.flat_map (Dom.queryAll q anc) cs)).
  { intros cs anc x Hall H. apply List.in_flat_map in H.
    destruct H as (n & Hn & H). apply List.in_flat_map. exists n.
    split; [exact Hn|]. rewrite List.Forall_forall in Hall. now apply Hall. }
  induction n as [cs IH | d a cs IH | d | d] using Node_nested_ind;
    intros anc x H; cbn [Dom.queryAll] in *;
    apply in_app_or in H; apply in_or_app;
    destruct H as [H|H]; try (left; now apply Hhere);
    try (right; now apply Hkids); now destruct H.
Qed.

Lemma QuerySelectorAll_narrower (doc : Node) (p q : Dom.Selector) :
  (forall anc n, p anc n = true -> q anc n = true) ->
  Dom.QuerySelectorAll doc q = [] -> Dom.QuerySelectorAll doc p = [].
Proof.
  unfold Dom.QuerySelectorAll. intros Hpq Hq.
  destruct (Dom.queryAll p [] doc) as [|x l] eqn:E; [reflexivity|].
  assert (H : In x (Dom.queryAll q [] doc)).
  { apply (queryAll_incl p q Hpq). rewrite E. now left. }
  rewrite Hq in H. destruct H.
Qed.

Lemma both_narrower (a b : Dom.Selector) anc n :
  Dom.both a b anc n = true -> a anc n = true.
Proof. unfold Dom.both. intro H. now apply andb_prop in H. Qed.

Lemma child_narrower (p c : Dom.Selector) anc n :
  Dom.child p c anc n = true -> c anc n = true.
Proof. unfold Dom.child. intro H. now apply andb_prop in H. Qed.

Lemma descendant_narrower (a c : Dom.Selector) anc n :
  Dom.descendant a c anc n = true -> c anc n = true.
Proof. unfold Dom.descendant. intro H. now apply andb_prop in H. Qed.

Section EmptyPage.

Context (lib : GoLib) (doc : Node).

Hypothesis no_elements :
  forall t, In t ["meta"; "script"; "link"; "title"; "h1"; "h2"] ->
            Dom.QuerySelectorAll doc (Dom.tag t) = [].

Hypothesis no_table_match :
  forall selector,
    In selector (metaTitleSelectors ++ metaAuthorSelectors ++
                 metaCategoriesSelectors ++ metaTagsSelectors)%list ->
    Dom.QuerySelectorAll doc selector = [].

Lemma no_meta (x : Dom.Selector) :
  Dom.QuerySelectorAll doc (Dom.both (Dom.tag "meta") x) = [].
Proof.
  apply (QuerySelectorAll_narrower doc _ (Dom.tag "meta"));
    [apply both_narrower | apply no_elements; cbn; auto].
Qed.

Lemma no_script (type : string) :
  Dom.QuerySelectorAll doc (selScript type) = [].
Proof.
  apply (QuerySelectorAll_narrower doc _ (Dom.tag "script"));
    [apply both_narrower | apply no_elements; cbn; auto].
Qed.

Lemma no_head_link (rel : string) :
  Dom.QuerySelectorAll doc (selHeadLink rel) = [].
Proof.
  apply (QuerySelectorAll_narrower doc _ (Dom.tag "link"));
    [|apply no_elements; cbn; auto].
  intros anc n H. apply descendant_narrower in H.
  now apply both_narrower in H.
Qed.

Lemma no_head_meta (x : Dom.Selector) :
  Dom.QuerySelectorAll doc
    (Dom.descendant (Dom.tag "head") (Dom.both (Dom.tag "meta") x)) = [].
Proof.
  apply (QuerySelectorAll_narrower doc _ (Dom.tag "meta"));
    [|apply no_elements; cbn; auto].
  intros anc n H. apply descendant_narrower in H.
  now apply both_narrower in H.
Qed.

Lemma no_head_title : Dom.QuerySelectorAll doc selHeadTitle = [].
Proof.
  apply (QuerySelectorAll_narrower doc _ (Dom.tag "title"));
    [apply child_narrower | apply no_elements; cbn; auto].
Qed.

Lemma table_text_empty (limit : nat) (selectors : list Dom.Selector) :
  (forall s, In s selectors -> Dom.QuerySelectorAll doc s = []) ->
  extractDomMetaSelectors doc limit selectors = "".
Proof.
  intro H. unfold extractDomMetaSelectors.
  rewrite firstSome_none; [reflexivity|].
  intros s Hs. now rewrite (H s Hs).
Qed.

Lemma table_links_empty (part : string) (selectors : list Dom.Selector) :
  (forall s, In s selectors -> Dom.QuerySelectorAll doc s = []) ->
  firstLinkTexts doc part selectors = [].
Proof.
  induction selectors as [|s selectors IH]; intro H; [reflexivity|].
  cbn [firstLinkTexts]. unfold linkTexts at 1.
  rewrite (H s (or_introl eq_refl)). cbn [List.flat_map].
  apply IH. intros s' Hs'. apply H. now right.
Qed.

Lemma empty_page_stages :
  processMetaTags doc = zeroMetadata /\
  jsonLdMetadata doc = zeroMetadata /\
  extractDomTitle doc = "" /\ extractDomAuthor doc = "" /\
  extractDomURL doc None = "" /\ extractDomSitename doc = "" /\
  extractDomCategories doc = [] /\ extractDomTags doc = [].
Proof.
  assert (Htab : forall table,
             (table = metaTitleSelectors \/ table = metaAuthorSelectors \/
              table = metaCategoriesSelectors \/ table = metaTagsSelectors) ->
             forall s, In s table -> Dom.QuerySelectorAll doc s = []).
  { intros table Ht s Hs. apply no_table_match.
    destruct Ht as [->|[->|[->| ->]]]; repeat (apply in_or_app; auto).
    - right. apply in_or_app. auto.
    - right. apply in_or_app. right. apply in_or_app. auto.
    - right. apply in_or_app. right. apply in_or_app. auto. }
  repeat split.
  - unfold processMetaTags, extractOpenGraphMeta, selOpenGraph, selMetaContent.
    rewrite !no_meta. reflexivity.
  - unfold jsonLdMetadata, scriptNodes. rewrite !no_script. reflexivity.
  - unfold extractDomTitle, Dom.QuerySelector.
    rewrite (no_elements "h1"), (no_elements "h2"), no_head_title
      by (cbn; auto 10).
    rewrite table_text_empty by (apply Htab; auto). reflexivity.
  - unfold extractDomAuthor.
    rewrite table_text_empty by (apply Htab; auto). reflexivity.
  - unfold extractDomURL, Dom.QuerySelector, selHeadMetaContent, selMetaContent.
    rewrite !no_head_link. reflexivity.
  - unfold extractDomSitename, Dom.QuerySelector.
    rewrite no_head_title. reflexivity.
  - unfold extractDomCategories, Dom.QuerySelector, selArticleSection.
    rewrite table_links_empty by (apply Htab; auto).
    rewrite no_head_meta. reflexivity.
  - unfold extractDomTags. apply table_links_empty. apply Htab. auto.
Qed.

End EmptyPage.

(** X16: on a page without [meta], [script], [link], [title], [h1] and [h2]
    elements, on which no selector of the four tables selects a node, and
    without a default URL, every field of the returned record is empty. *)
Theorem empty_page_empty_record (lib : GoLib) (doc : Node) :
  (forall t, In t ["meta"; "script"; "link"; "title"; "h1"; "h2"] ->
             Dom.QuerySelectorAll doc (Dom.tag t) = []) ->
  (forall selector,
     In selector (metaTitleSelectors ++ metaAuthorSelectors ++
                  metaCategoriesSelectors ++ metaTagsSelectors)%list ->
     Dom.QuerySelectorAll doc selector = []) ->
  extractMetadata doc None = zeroMetadata.
Proof.
  intros H1 H2.
  destruct (empty_page_stages lib doc H1 H2)
    as (Hpm & Hjl & Ht & Ha & Hu & Hs & Hc & Htg).
  unfold extractMetadata, collectMetadata, extractJsonLd.
  rewrite Hpm, Hjl, Ht, Ha, Hu, Hs, Hc, Htg. reflexivity.
Qed.

Lemma empty_page_empty_record_witness :
  extractMetadata (lib := Ref.lib)
    (Page.html [] [Page.elem "p" "Some text without metadata."]) None
  = zeroMetadata.
Proof.
  apply (empty_page_empty_record Ref.lib).
  - intros t Ht. cbn in Ht.
    repeat (destruct Ht as [<-|Ht]; [reflexivity|]). destruct Ht.
  - intros selector Hs. cbn in Hs.
    repeat (destruct Hs as [<-|Hs]; [reflexivity|]). destruct Hs.
Defined.

(** ** The URL when the default URL is sound *)

(** X17: when the string of the default URL is empty or absolute, which
    includes the call without default URL, the URL of the returned record is
    empty or absolute. *)
Theorem url_absolute_with_sound_default
    (lib : GoLib) (doc : Node) (defaultURL : option Url) :
  emptyOrAbsolute (defaultURLString defaultURL) ->
  emptyOrAbsolute (URL (extractMetadata doc defaultURL)).
Proof.
  intro Hdefault. rewrite extractMetadata_URL.
  destruct (collectMetadata_URL lib doc defaultURL) as [H|H];
    [exact H | now rewrite H].
Qed.

Lemma url_absolute_with_sound_default_witness :
  let page :=
    Page.html [ElementNode "link" [("rel", "canonical");
                                   ("href", "/archive/page.html")] []] [] in
  let base := Some (mkUrl "https" "example.org" "/" "" "") in
  URL (extractMetadata (lib := Ref.lib) page base)
    = "https://example.org/archive/page.html" /\
  emptyOrAbsolute (lib := Ref.lib)
    (URL (extractMetadata (lib := Ref.lib) page base)).
Proof.
  intros page base. split; [reflexivity|].
  apply (url_absolute_with_sound_default Ref.lib page base).
  right. reflexivity.
Defined.

(** ** The headline and the order of the range *)

Lemma nth_error_flat {A : Type} (m : list A) :
  forall pre,
    List.flat_map
      (fun i => match List.nth_error (pre ++ m) i with
                | Some x => [x]
                | None => []
                end)
      (List.seq (List.length pre) (List.length m)) = m.
Proof.
  induction m as [|x m IH]; intro pre; [reflexivity|].
  cbn [List.length List.seq List.flat_map].
  rewrite List.nth_error_app2 by lia. rewrite Nat.sub_diag. cbn [List.nth_error].
  cbn [app]. f_equal.
  specialize (IH (pre ++ [x])%list).
  rewrite <- List.app_assoc in IH. cbn [app] in IH.
  rewrite List.length_app in IH. cbn [List.length] in IH.
  now rewrite Nat.add_1_r in IH.
Qed.

Lemma mapRange_permutation (lib : GoLib) (A : Type) (m : list (string * A)) :
  Permutation (rangeOrder (List.map fst m)) (List.seq 0 (List.length m)) ->
  Permutation (mapRange m) m.
Proof.
  intro H. unfold mapRange.
  rewrite <- (nth_error_flat m []) at 2.
  apply Permutation_flat_map. exact H.
Qed.

Lemma find_unique {A : Type} (f : A -> bool) (l l' : list A) :
  Permutation l l' ->
  (forall x y, In x l -> In y l -> f x = true -> f y = true -> x = y) ->
  List.find f l' = List.find f l.
Proof.
  intros Hperm Huniq.
  destruct (List.find f l) as [x|] eqn:E.
  - apply List.find_some in E. destruct E as [Hx Hfx].
    destruct (List.find f l') as [y|] eqn:E'.
    + apply List.find_some in E'. destruct E' as [Hy Hfy].
      f_equal. apply Huniq; auto.
      apply (Permutation_in _ (Permutation_sym Hperm)). exact Hy.
    + exfalso. apply (Permutation_in _ Hperm) in Hx.
      pose proof (List.find_none _ _ E' _ Hx). congruence.
  - destruct (List.find f l') as [y|] eqn:E'; [exfalso | reflexivity].
    apply List.find_some in E'. destruct E' as [Hy Hfy].
    apply (Permutation_in _ (Permutation_sym Hperm)) in Hy.
    pose proof (List.find_none _ _ E _ Hy). congruence.
Qed.

(** X18: when at most one entry of an article is a usable headline, the
    headline fallback returns it in whatever order the range visits the
    article; the title depends on the order only between several usable
    headlines. *)
Theorem headline_order_independent (lib : GoLib) (article : jsonObject) :
  Permutation (rangeOrder (List.map fst article))
    (List.seq 0 (List.length article)) ->
  (forall kv kv', In kv article -> In kv' article ->
     usableHeadline kv = true -> usableHeadline kv' = true -> kv = kv') ->
  headlineTitle article =
  option_map (fun kv => extractJsonString (snd kv))
    (List.find usableHeadline article).
Proof.
  intros Hperm Huniq. unfold headlineTitle.
  change (List.find _ (mapRange article))
    with (List.find usableHeadline (mapRange article)).
  rewrite (find_unique usableHeadline article (mapRange article));
    [now destruct (List.find usableHeadline article) | | exact Huniq].
  apply Permutation_sym. now apply mapRange_permutation.
Qed.

Lemma headline_order_independent_witness :
  let article := [("@type", JString "Article");
                  ("headline", JString "Only headline here");
                  ("name", JString "Name")] in
  headlineTitle (lib := Ref.libWith Ref.reversed) article =
  option_map (fun kv => extractJsonString (snd kv))
    (List.find (usableHeadline (lib := Ref.libWith Ref.reversed)) article).
Proof.
  intro article.
  apply (headline_order_independent (Ref.libWith Ref.reversed) article).
  - apply (range_orders_permute (List.map fst article)).
  - intros kv kv' H H'. cbn in H, H'.
    repeat match goal with
           | H : _ \/ _ |- _ => destruct H as [<-|H]
           | H : False |- _ => destruct H
           end; intros E E'; try reflexivity; discriminate.
Defined.

(** ** The author of JSON-LD *)

(** X19: the author that the loop over the scripts builds, from an article
    or from the persons joined by a semicolon, is empty or passes the check
    of an author. *)
Theorem jsonLd_author_checked (lib : GoLib) (doc : Node) :
  emptyOrValidAuthor (Author (jsonLdMetadata doc)).
Proof.
  unfold jsonLdMetadata. apply scriptLoop_author_ok. now left.
Qed.

(** Two persons of a graph, joined. *)
Example jsonLd_persons_joined :
  let script :=
    Page.ldJson
      (Page.object
         [("@graph",
           "[" ++ Page.object [("@type", Page.quoted "Person");
                               ("name", Page.quoted "Jane Doe")]
           ++ "," ++
           Page.object [("@type", Page.quoted "Person");
                        ("name", Page.quoted "Acme")]
           ++ "," ++
           Page.object [("@type", Page.quoted "Person");
                        ("name", Page.quoted "John  Roe")]
           ++ "]")]) in
  Author (Page.run (Page.html [script] [])) = "Jane Doe; John Roe".
Proof. reflexivity. Qed.

(** * The entries of the categories and of the tags *)

Lemma separates_isSeparator (c : ascii) : separates c = isSeparator c.
Proof.
  unfold separates, isSeparator, Regexp.oneOf, Regexp.rune.
  cbn [list_ascii_of_string List.existsb]. rewrite orb_false_r.
  f_equal.
  - destruct (Ascii.eqb_spec c ","%char) as [->|H]; [reflexivity|].
    symmetry. apply Z.eqb_neq. intro E. apply byte_inj in E. congruence.
  - destruct (Ascii.eqb_spec c ";"%char) as [->|H]; [reflexivity|].
    symmetry. apply Z.eqb_neq. intro E. apply byte_inj in E. congruence.
Qed.

Lemma pieces_nonempty (s : string) : pieces s <> [].
Proof.
  induction s as [|c s IH]; cbn [pieces]; [discriminate|].
  destruct (separates c); [discriminate|].
  destruct (pieces s); discriminate.
Qed.

(** Before the first separator. *)
Lemma pieces_app (g t : string) :
  noSeparator g ->
  pieces (g ++ t) =
  match pieces t with
  | piece :: rest => (g ++ piece)%string :: rest
  | [] => [g]
  end.
Proof.
  induction g as [|c g IH]; intro Hg.
  - cbn [append]. destruct (pieces t) eqn:E; [now apply pieces_nonempty in E|].
    reflexivity.
  - cbn [append pieces]. rewrite separates_isSeparator.
    rewrite (Hg c) by now left.
    rewrite IH by (intros a Ha; apply Hg; now right).
    destruct (pieces t) eqn:E; [now apply pieces_nonempty in E|].
    reflexivity.
Qed.

Lemma pieces_whole (g : string) : noSeparator g -> pieces g = [g].
Proof.
  intro Hg. rewrite <- (append_empty g) at 1.
  rewrite pieces_app by exact Hg. cbn. now rewrite append_empty.
Qed.

Lemma pieces_separator (g : string) (c : ascii) (t : string) :
  noSeparator g -> isSeparator c = true ->
  pieces (g ++ String c t) = g :: pieces t.
Proof.
  intros Hg Hc. rewrite pieces_app by exact Hg.
  cbn [pieces]. rewrite separates_isSeparator, Hc. now rewrite append_empty.
Qed.

Lemma allWs_noSeparator (w : string) : allWs w -> noSeparator w.
Proof.
  unfold allWs, noSeparator. intros H c Hc.
  rewrite List.Forall_forall in H. apply H in Hc.
  unfold Regexp.perl_s in Hc. cbn [List.existsb] in Hc.
  unfold isSeparator, Regexp.oneOf.
  repeat (apply orb_prop in Hc; destruct Hc as [Hc|Hc]);
    try discriminate; apply Z.eqb_eq in Hc; now rewrite Hc.
Qed.

Lemma noSeparator_app (s t : string) :
  noSeparator s -> noSeparator t -> noSeparator (s ++ t).
Proof.
  intros Hs Ht c Hc. rewrite bytes_app in Hc.
  apply in_app_or in Hc. destruct Hc; auto.
Qed.

Lemma allWs_nil : allWs "".
Proof. constructor. Qed.

Lemma allWs_cons (a : ascii) (w : string) :
  Regexp.perl_s (Utf8.byte a) = true -> allWs w -> allWs (String a w).
Proof. intros Ha Hw. constructor; assumption. Qed.

(** *** A match of the separator *)

(** A greedy star of white space has read white space. *)
Lemma star_ws_exit (n : nat) :
  forall pos s c k res,
    Regexp.starLoop true ws k n pos s c = Some res ->
    exists w t, s = (w ++ t)%string /\ allWs w /\
                k (pos + String.length w) t c = Some res.
Proof.
  induction n as [|n IH]; intros pos s c k res H.
  - exists "", s. rewrite Nat.add_0_r. repeat split; [apply allWs_nil | exact H].
  - rewrite starLoop_S in H. cbv zeta in H.
    destruct (Regexp.run ws pos s c _) as [m|] eqn:E.
    + injection H as ->. unfold ws in E. rewrite run_Class in E.
      destruct s as [|c0 s1]; [discriminate|].
      destruct (Utf8.DecodeRuneInString (String c0 s1)) as [[x wd]|] eqn:Hdec;
        [|discriminate].
      destruct (Regexp.perl_s x) eqn:Hx; [|discriminate].
      assert (Hascii : (x < 128)%Z).
      { unfold Regexp.perl_s in Hx. cbn [List.existsb] in Hx.
        repeat (apply orb_prop in Hx; destruct Hx as [Hx|Hx]);
          try discriminate; apply Z.eqb_eq in Hx; lia. }
      pose proof (decode_ascii_rune c0 s1 x wd Hdec Hascii) as Ex. subst x.
      destruct (decode_shape c0 s1) as (x' & w' & Hdec' & _ & Hone & _).
      rewrite Hdec in Hdec'. injection Hdec' as <- <-.
      destruct (Hone Hascii) as [_ ->].
      replace (pos <? pos + 1)%nat with true in E
        by (symmetry; apply Nat.ltb_lt; lia).
      cbn [Slice.drop] in E. apply IH in E.
      destruct E as (w & t & -> & Hw & E).
      exists (String c0 w), t. cbn [append String.length].
      repeat split; [now apply allWs_cons|].
      now replace (pos + S (String.length w)) with (pos + 1 + String.length w)
        by lia.
    + exists "", s. rewrite Nat.add_0_r.
      repeat split; [apply allWs_nil | exact H].
Qed.

(** A match of [rxCommaSeparator]: white space, a separator, white
    space. *)
Lemma rxCommaSeparator_match (b e : nat) (s : string) (cap : Regexp.captures) :
  Regexp.matchAt rxCommaSeparator b s = Some (e, cap) ->
  exists w c w' t,
    s = (w ++ String c (w' ++ t))%string /\ allWs w /\ isSeparator c = true /\
    allWs w' /\ e = b + String.length w + 1 + String.length w'.
Proof.
  unfold Regexp.matchAt, rxCommaSeparator. cbn [Regexp.seq].
  rewrite run_Cat, run_Star. intro H. apply star_ws_exit in H.
  destruct H as (w & t & -> & Hw & H).
  rewrite run_Cat, run_Class in H.
  destruct t as [|c t]; [discriminate|].
  destruct (Utf8.DecodeRuneInString (String c t)) as [[x wd]|] eqn:Hdec;
    [|discriminate].
  destruct (Regexp.oneOf ",;" x) eqn:Hx; [|discriminate].
  pose proof (oneOf_rune_ascii ",;" x eq_refl Hx) as Hascii.
  pose proof (decode_ascii_rune c t x wd Hdec Hascii) as Ex. subst x.
  destruct (decode_shape c t) as (x' & w1 & Hdec' & _ & Hone & _).
  rewrite Hdec in Hdec'. injection Hdec' as <- <-.
  destruct (Hone Hascii) as [_ ->].
  cbn [Slice.drop] in H. rewrite run_Star in H. apply star_ws_exit in H.
  destruct H as (w' & t' & -> & Hw' & H).
  unfold Regexp.accept in H. injection H as <- _.
  exists w, c, w', t'. repeat split; auto.
Qed.

(** *** The pieces of [Split] and the pieces between the separators *)

Lemma normalized_cons (p : string) (l : list string) :
  normalized (p :: l) =
  ((if nonEmpty (strNormalize p) then [strNormalize p] else [])
     ++ normalized l)%list.
Proof.
  unfold normalized. cbn [List.map List.filter].
  now destruct (nonEmpty (strNormalize p)).
Qed.

Lemma strNormalize_ws_r (y w : string) :
  allWs w -> strNormalize (y ++ w) = strNormalize y.
Proof. intro H. unfold strNormalize. now rewrite Fields_ws_r. Qed.

Lemma strNormalize_ws_l (w y : string) :
  allWs w -> strNormalize (w ++ y) = strNormalize y.
Proof. intro H. unfold strNormalize. now rewrite Fields_ws_l. Qed.

Lemma normalized_ws (w t : string) :
  allWs w -> normalized (pieces (w ++ t)) = normalized (pieces t).
Proof.
  intro Hw. rewrite pieces_app by now apply allWs_noSeparator.
  destruct (pieces t) as [|p l] eqn:E; [now apply pieces_nonempty in E|].
  now rewrite !normalized_cons, strNormalize_ws_l.
Qed.

Lemma drop_app_length (p q : string) (n : nat) :
  n = String.length p -> Slice.drop n (p ++ q) = q.
Proof. intros ->. apply drop_app. Qed.

Lemma splitLoop_pieces (text : string) (fuel : nat) :
  forall (pos end_ : nat) (s : string) (prevEnd : option nat),
    s = Slice.drop pos text ->
    String.length s < fuel ->
    end_ < String.length text ->
    normalized
      (Regexp.splitLoop text
         (Regexp.allMatches fuel rxCommaSeparator pos s prevEnd) pos end_)
    = normalized (pieces s).
Proof.
  induction fuel as [|fuel IH]; intros pos end_ s prevEnd Hs Hfuel Hend; [lia|].
  cbn [Regexp.allMatches]. unfold Regexp.search.
  destruct (Regexp.searchFuel (String.length s) rxCommaSeparator pos s)
    as [[[b e] cap]|] eqn:Hsearch.
  - apply (searchFuel_some rxCommaSeparator isSeparator isSeparator_ascii
             rxCommaSeparator_at_separator) in Hsearch.
    destruct Hsearch as (Hle & Hmatch & Hpre).
    apply rxCommaSeparator_match in Hmatch.
    destruct Hmatch as (w & c & w' & t & Hdrop & Hw & Hc & Hw' & He).
    assert (Hs' : s = (Slice.take (b - pos) s ++ w ++ String c (w' ++ t))%string).
    { rewrite <- Hdrop. symmetry. apply take_drop. }
    assert (Hlen : b - pos <= String.length s).
    { destruct (Nat.le_gt_cases (b - pos) (String.length s)) as [H|H];
        [exact H | exfalso].
      assert (E : Slice.drop (b - pos) s = "").
      { apply (f_equal String.length) in Hdrop. rewrite drop_length in Hdrop.
        rewrite length_app in Hdrop. cbn [String.length] in Hdrop. lia. }
      rewrite E in Hdrop. destruct w; discriminate. }
    remember (Slice.take (b - pos) s) as g eqn:Eg.
    assert (Hg : String.length g = b - pos)
      by (rewrite Eg; apply take_length; exact Hlen).
    assert (Hne : (e =? pos)%nat = false) by (apply Nat.eqb_neq; lia).
    assert (Hne0 : (e =? 0)%nat = false) by (apply Nat.eqb_neq; lia).
    rewrite Hne. cbn [Regexp.splitLoop]. rewrite Hne0.
    assert (Ht : Slice.drop (e - pos) s = t).
    { rewrite Hs'. rewrite <- append_assoc.
      change (String c (w' ++ t)) with ((String c "") ++ (w' ++ t))%string.
      rewrite <- !append_assoc. apply drop_app_length.
      rewrite !length_app. cbn [String.length]. lia. }
    rewrite Ht.
    assert (Hsub : Regexp.substr text pos b = g).
    { unfold Regexp.substr. now rewrite <- Hs, Eg. }
    rewrite Hsub, normalized_cons.
    rewrite (IH e b t (Some e)).
    + replace (pieces s) with (pieces ((g ++ w) ++ String c (w' ++ t)))
        by (now rewrite append_assoc, <- Hs').
      rewrite pieces_separator;
        [|apply noSeparator_app; [exact Hpre | now apply allWs_noSeparator]
         |exact Hc].
      rewrite normalized_cons, strNormalize_ws_r by exact Hw.
      now rewrite normalized_ws.
    + rewrite <- Ht, Hs, drop_drop. f_equal. lia.
    + apply (f_equal String.length) in Hs'.
      rewrite !length_app in Hs'. cbn [String.length] in Hs'.
      rewrite length_app in Hs'. lia.
    + apply (f_equal String.length) in Hs'.
      rewrite !length_app in Hs'. cbn [String.length] in Hs'.
      rewrite length_app in Hs'.
      assert (String.length s = String.length text - pos)
        by (rewrite Hs; apply drop_length).
      lia.
  - pose proof (searchFuel_none rxCommaSeparator isSeparator isSeparator_ascii
                  rxCommaSeparator_at_separator (String.length s) pos s
                  (le_n _) Hsearch) as Hnone.
    cbn [Regexp.splitLoop].
    replace (end_ =? String.length text)%nat with false
      by (symmetry; apply Nat.eqb_neq; lia).
    rewrite <- Hs. now rewrite pieces_whole.
Qed.

(** What [rxCommaSeparator.Split] leaves of an entry, once normalized, is
    what stands between its separators. *)
Lemma Split_pieces (entry : string) :
  normalized (Regexp.Split rxCommaSeparator entry) = normalized (pieces entry).
Proof.
  unfold Regexp.Split. destruct entry as [|a entry]; [reflexivity|].
  unfold Regexp.FindAllStringIndex.
  apply splitLoop_pieces; [reflexivity | lia | cbn [String.length]; lia].
Qed.

Lemma normalized_app (l1 l2 : list string) :
  normalized (l1 ++ l2) = (normalized l1 ++ normalized l2)%list.
Proof. unfold normalized. now rewrite List.map_app, List.filter_app. Qed.

Lemma cleanCatTags_splitEntries (catTags : list string) :
  cleanCatTags catTags = splitEntries catTags.
Proof.
  unfold cleanCatTags, splitEntries.
  induction catTags as [|entry l IH]; [reflexivity|].
  cbn [List.flat_map]. fold (normalized (Regexp.Split rxCommaSeparator entry)).
  now rewrite Split_pieces, IH, normalized_app.
Qed.

(** C8: the categories and the tags of the returned record are the
    collected entries, split at every [,] and [;], each piece white-space
    normalized, which takes the white space around a separator away, and
    the empty pieces dropped; so every entry is not empty,
    is normalized, has no white space at either end and holds neither [,]
    nor [;].  The collected categories are those of JSON-LD, or those of the
    DOM when JSON-LD has none; the collected tags are those of the meta
    tags, or those of the DOM when the meta tags have none. *)
Theorem extractMetadata_entries_clean
    (lib : GoLib) (doc : Node) (defaultURL : option Url) :
  let categories :=
    if noneOf (Categories (jsonLdMetadata doc))
    then extractDomCategories doc else Categories (jsonLdMetadata doc) in
  let tags :=
    if noneOf (Tags (processMetaTags doc))
    then extractDomTags doc else Tags (processMetaTags doc) in
  Categories (extractMetadata doc defaultURL) = splitEntries categories /\
  Tags (extractMetadata doc defaultURL) = splitEntries tags /\
  List.Forall cleanEntry (Categories (extractMetadata doc defaultURL)) /\
  List.Forall cleanEntry (Tags (extractMetadata doc defaultURL)).
Proof.
  intros categories tags.
  destruct (extractMetadata_lists lib doc defaultURL) as (Et & Ec).
  destruct (collectMetadata_fields lib doc defaultURL)
    as (_ & _ & _ & Et' & Ec' & _).
  cbv zeta in Et, Ec, Et', Ec'. rewrite Et' in Et. rewrite Ec' in Ec.
  unfold extractJsonLd in Et, Ec.
  destruct (mergeJsonLd_kept (jsonLdMetadata doc) (processMetaTags doc))
    as (_ & _ & _ & Ek).
  rewrite Ek in Et. rewrite mergeJsonLd_Categories in Ec.
  destruct (processMetaTags_untouched lib doc) as (_ & _ & Eu).
  rewrite Eu in Ec.
  assert (Ec2 : Categories (extractMetadata doc defaultURL)
                = cleanCatTags categories).
  { rewrite Ec. subst categories.
    destruct (noneOf (Categories (jsonLdMetadata doc))) eqn:H;
      [reflexivity | now rewrite H]. }
  split; [now rewrite Ec2, cleanCatTags_splitEntries|].
  split; [now rewrite Et, cleanCatTags_splitEntries|].
  split; [rewrite Ec2 | rewrite Et]; apply cleanCatTags_clean.
Qed.

(** The entries of a page whose tags hold separators and white space of
    Unicode: a no-break space U+00A0 and an ideographic space U+3000. *)
Example entries_unicode_space :
  let nbsp := String (ascii_of_nat 194) (String (ascii_of_nat 160) "") in
  let wide :=
    String (ascii_of_nat 227)
      (String (ascii_of_nat 128) (String (ascii_of_nat 128) "")) in
  let keywords := (nbsp ++ "go ," ++ wide ++ "html" ++ nbsp ++ "parsing;")%string in
  pieces keywords = [(nbsp ++ "go ")%string;
                     (wide ++ "html" ++ nbsp ++ "parsing")%string; ""] /\
  Tags (extractMetadata (lib := Ref.lib)
          (Page.html [Page.meta "name" "keywords" keywords] []) None)
    = ["go"; "html parsing"].
Proof. split; reflexivity. Qed.
